(** * AVG content pipeline: research aggregation and script timing

    A shallow embedding of [research_service.py] (class [ResearchService])
    and [script_service.py] (class [ScriptService] and [_extract_markers]),
    with the code around them: the search providers and their registry
    ([providers.py]), the overrides of the configuration ([loader.py],
    [main.py]) and the file stem of a title ([orchestrator.py]).

    Conventions of the embedding.
    - A Python [str] is a [string]; an [ascii] is read as a code point in
      0..255, and [is_space] is Python's [str.isspace] on that range (the
      same predicate decides [\s] in a [str] pattern of [re]).
    - A Python [float] is an exact rational of [Q]; equalities between
      computed times are stated with [==] where the two sides are computed
      along different paths.
    - A value decoded by [json.loads] is a [JSON] tree; a [dict] is an
      association list in insertion order, read with [dict_get].
    - An exception is a value of [exn]; code that may raise returns [res].
    - The two [asyncio.gather] batches of [research] are run in issue order,
      each task to its end before the next one starts: [gather] returns its
      results in the order of its arguments, whatever the completion order,
      and with [return_exceptions=True] an exception of a task is one of
      these results. *)

From Stdlib Require Import QArith Ascii String.
From stdpp Require Import base option list sorting strings gmap pretty.

Local Open Scope string_scope.
Local Open Scope list_scope.

(** ** Exceptions *)

Inductive exn : Type :=
  | JSONDecodeError
  | KeyError (key : string)
  | TypeError
  | AttributeError
  | ZeroDivisionError
  | ExternalError (msg : string).

Inductive res (A : Type) : Type :=
  | Ok (a : A)
  | Raise (e : exn).
Arguments Ok {A} a.
Arguments Raise {A} e.

#[global] Instance res_ret : MRet res := fun _ a => Ok a.
#[global] Instance res_bind : MBind res := fun _ _ k m =>
  match m with
  | Ok a => k a
  | Raise e => Raise e
  end.

Definition returns {A : Type} (m : res A) : Prop := exists a, m = Ok a.

(** ** Decoded JSON values *)

#[local] Set Warnings "-register-all".


Inductive JSON : Type :=
  | JNull
  | JBool (b : bool)
  | JInt (n : Z)
  | JFloat (q : Q)
  | JStr (s : string)
  | JArr (items : list JSON)
  | JObj (fields : list (string * JSON)).

(** [d.get(k)] on the association list of a dict: a later binding of the same
    key shadows an earlier one, as a later assignment does in Python. *)
Fixpoint dict_get (k : string) (fields : list (string * JSON)) : option JSON :=
  match fields with
  | [] => None
  | (k', v) :: rest =>
      match dict_get k rest with
      | Some v' => Some v'
      | None => if String.eqb k k' then Some v else None
      end
  end.

(** [v.get(k, dflt)]: only a dict has [get]. *)
Definition py_get (v : JSON) (k : string) (dflt : JSON) : res JSON :=
  match v with
  | JObj fields => Ok (default dflt (dict_get k fields))
  | _ => Raise AttributeError
  end.

(** [v[k]] with a string key. *)
Definition py_getitem (v : JSON) (k : string) : res JSON :=
  match v with
  | JObj fields =>
      match dict_get k fields with
      | Some x => Ok x
      | None => Raise (KeyError k)
      end
  | _ => Raise TypeError
  end.

(** [d[k] = v]: the value of a key already present is replaced where it is,
    a new key is added at the end. *)
Fixpoint dict_set (k : string) (v : JSON) (fields : list (string * JSON))
  : list (string * JSON) :=
  match fields with
  | [] => [(k, v)]
  | (k', v') :: rest =>
      if String.eqb k k' then (k, v) :: rest
      else (k', v') :: dict_set k v rest
  end.

(** The keys in the order of their first insertion. *)
Fixpoint dict_keys_from (seen : list string) (fields : list (string * JSON))
  : list string :=
  match fields with
  | [] => []
  | (k, _) :: rest =>
      if bool_decide (k ∈ seen) then dict_keys_from seen rest
      else k :: dict_keys_from (k :: seen) rest
  end.

Definition dict_keys (fields : list (string * JSON)) : list string :=
  dict_keys_from [] fields.

(** [for raw in v]: a list yields its items, a dict its keys, a str its
    characters; anything else is not iterable. *)
Definition py_iter (v : JSON) : res (list JSON) :=
  match v with
  | JArr items => Ok items
  | JObj fields => Ok (JStr <$> dict_keys fields)
  | JStr s => Ok ((fun c => JStr (String c "")) <$> list_ascii_of_string s)
  | _ => Raise TypeError
  end.

(** ** Python string operations *)

Definition is_space (c : ascii) : bool :=
  let n := nat_of_ascii c in
  (Nat.leb 9 n && Nat.leb n 13) || (Nat.leb 28 n && Nat.leb n 32)
  || Nat.eqb n 133 || Nat.eqb n 160.

Fixpoint lstrip (s : string) : string :=
  match s with
  | "" => ""
  | String c s' => if is_space c then lstrip s' else s
  end.

Fixpoint rstrip (s : string) : string :=
  match s with
  | "" => ""
  | String c s' =>
      match rstrip s' with
      | "" => if is_space c then "" else String c ""
      | r => String c r
      end
  end.

(** [s.strip()] *)
Definition strip (s : string) : string := rstrip (lstrip s).

(** [s.split()]: the maximal runs of non-whitespace; [cur] is the run being
    read. *)
Fixpoint split_ws (cur : string) (s : string) : list string :=
  match s with
  | "" => match cur with "" => [] | _ => [cur] end
  | String c s' =>
      if is_space c then
        match cur with
        | "" => split_ws "" s'
        | _ => cur :: split_ws "" s'
        end
      else split_ws (cur +:+ String c "") s'
  end.

Definition py_split (s : string) : list string := split_ws "" s.

(** [sep.join(parts)] *)
Fixpoint join (sep : string) (parts : list string) : string :=
  match parts with
  | [] => ""
  | [p] => p
  | p :: rest => p +:+ sep +:+ join sep rest
  end.

(** [s[:n]] for a non-negative [n]. *)
Fixpoint take_str (n : nat) (s : string) : string :=
  match n, s with
  | S n', String c s' => String c (take_str n' s')
  | _, _ => ""
  end.

Fixpoint drop_str (n : nat) (s : string) : string :=
  match n, s with
  | S n', String _ s' => drop_str n' s'
  | _, _ => s
  end.

(** [strip_prefix p s] is the rest of [s] after the literal [p], if [s]
    starts with it. *)
Fixpoint strip_prefix (p s : string) : option string :=
  match p, s with
  | "", _ => Some s
  | String a p', String b s' =>
      if Ascii.eqb a b then strip_prefix p' s' else None
  | _, _ => None
  end.

(** The longest prefix of [s] without the character [stop], and the rest. *)
Fixpoint span_until (stop : ascii) (s : string) : string * string :=
  match s with
  | "" => ("", "")
  | String c s' =>
      if Ascii.eqb c stop then ("", s)
      else let '(a, b) := span_until stop s' in (String c a, b)
  end.

Fixpoint last_char (s : string) : string :=
  match s with
  | "" => ""
  | String c "" => String c ""
  | String _ s' => last_char s'
  end.

(** ** Regular expressions of the two services

    Each pattern is matched at the head of the remaining text by a function
    returning the captured group and the length of the match; [finditer]
    scans as [re.finditer] does: leftmost match first, the scan resuming at
    the end of a match, one character further after a failure. No pattern
    here matches the empty string. *)

Definition rbracket : ascii := "]"%char.

(** [\[SCREENSHOT:\s*(https?://[^\]]+)\]] *)
Definition match_screenshot (s : string) : option (string * nat) :=
  rest ← strip_prefix "[SCREENSHOT:" s;
  let r1 := lstrip rest in
  r2 ← strip_prefix "http" r1;
  let '(scheme, r3) :=
    match strip_prefix "s" r2 with
    | Some r => ("https", r)
    | None => ("http", r2)
    end in
  r4 ← strip_prefix "://" r3;
  let '(body, after) := span_until rbracket r4 in
  match body, after with
  | String _ _, String _ _ =>
      let group := scheme +:+ "://" +:+ body in
      Some (group,
            (12 + (String.length rest - String.length r1)
             + String.length group + 1)%nat)
  | _, _ => None
  end.

(** [\[VISUAL:\s*([^\]]+)\]]: [\s*] is greedy; when the text before the
    bracket is nothing but whitespace it gives one character back to the
    group. *)
Definition match_visual (s : string) : option (string * nat) :=
  rest ← strip_prefix "[VISUAL:" s;
  let '(body, after) := span_until rbracket rest in
  match body, after with
  | String _ _, String _ _ =>
      let group :=
        match lstrip body with
        | "" => last_char body
        | g => g
        end in
      Some (group, (8 + String.length body + 1)%nat)
  | _, _ => None
  end.

(** [\[(?:SCREENSHOT|VISUAL):[^\]]*\]] (no group: the group returned is the
    whole match). *)
Definition match_cue (s : string) : option (string * nat) :=
  let after_tag :=
    match strip_prefix "[SCREENSHOT:" s with
    | Some rest => Some (12%nat, rest)
    | None =>
        match strip_prefix "[VISUAL:" s with
        | Some rest => Some (8%nat, rest)
        | None => None
        end
    end in
  '(n, rest) ← after_tag;
  let '(body, after) := span_until rbracket rest in
  match after with
  | String _ _ =>
      let len := (n + String.length body + 1)%nat in
      Some (take_str len s, len)
  | "" => None
  end.

Section Scan.
Context (match_at : string -> option (string * nat)).

(** [skip] characters of an earlier match are still to be passed over;
    [pos] is the offset of [s] in the scanned text. *)
Fixpoint finditer_from (skip pos : nat) (s : string) : list (nat * string) :=
  match s with
  | "" => []
  | String _ s' =>
      match skip with
      | S k => finditer_from k (S pos) s'
      | O =>
          match match_at s with
          | Some (g, len) => (pos, g) :: finditer_from (Nat.pred len) (S pos) s'
          | None => finditer_from 0 (S pos) s'
          end
      end
  end.

Definition finditer (s : string) : list (nat * string) := finditer_from 0 0 s.

(** [re.findall(pattern, s)] for a pattern with one group. *)
Definition findall (s : string) : list string := snd <$> finditer s.

(** [re.sub(pattern, rep, s)] *)
Fixpoint sub_from (rep : string) (skip : nat) (s : string) : string :=
  match s with
  | "" => ""
  | String c s' =>
      match skip with
      | S k => sub_from rep k s'
      | O =>
          match match_at s with
          | Some (_, len) => rep +:+ sub_from rep (Nat.pred len) s'
          | None => String c (sub_from rep 0 s')
          end
      end
  end.

Definition re_sub (rep : string) (s : string) : string := sub_from rep 0 s.
End Scan.

(** [re.sub(r"\s+", " ", s)]; [in_run] says that the previous character was
    whitespace, already replaced. *)
Fixpoint collapse_from (in_run : bool) (s : string) : string :=
  match s with
  | "" => ""
  | String c s' =>
      if is_space c then
        if in_run then collapse_from true s'
        else String " " (collapse_from true s')
      else String c (collapse_from false s')
  end.

Definition collapse_ws (s : string) : string := collapse_from false s.

(** Offset of the first occurrence of [needle] in [s]. *)
Fixpoint find_sub (needle s : string) : option nat :=
  match strip_prefix needle s with
  | Some _ => Some 0%nat
  | None =>
      match s with
      | "" => None
      | String _ s' => S <$> find_sub needle s'
      end
  end.

(** [<name[^>]*>.*?</name>] with [re.DOTALL], for [name] one of [style] and
    [script]: the lazy [.*?] stops at the first closing tag. *)
Definition match_element (name : string) (s : string) : option (string * nat) :=
  rest ← strip_prefix ("<" +:+ name) s;
  let '(attrs, after) := span_until ">"%char rest in
  match after with
  | String _ inner =>
      k ← find_sub ("</" +:+ name +:+ ">") inner;
      let len := (1 + String.length name + String.length attrs + 1 + k
                  + (3 + String.length name))%nat in
      Some (take_str len s, len)
  | "" => None
  end.

(** [<[^>]+>] *)
Definition match_tag (s : string) : option (string * nat) :=
  rest ← strip_prefix "<" s;
  let '(body, after) := span_until ">"%char rest in
  match body, after with
  | String _ _, String _ _ =>
      let len := (1 + String.length body + 1)%nat in
      Some (take_str len s, len)
  | _, _ => None
  end.

(** The text of a page, as [_fetch_content] computes it from the HTML. *)
Definition html_to_text (html : string) : string :=
  let text := re_sub (match_element "style") " " html in
  let text := re_sub (match_element "script") " " text in
  let text := re_sub match_tag " " text in
  take_str (Z.to_nat 8000) (strip (collapse_ws text)).

(** [re.sub(r"^```(?:json)?\s*|\s*```$", "", text.strip())]: the first
    alternative can only match at offset 0 and is tried first there; the
    second one matches at the leftmost offset from which nothing but
    whitespace and a closing fence is left. The text is stripped, so [$]
    can only match at its very end. *)
Definition strip_fences (text : string) : string :=
  let s := strip text in
  let s1 :=
    match strip_prefix "```" s with
    | Some r => lstrip (default r (strip_prefix "json" r))
    | None => s
    end in
  match strip_prefix "```" (String.rev s1) with
  | Some r => String.rev (lstrip r)
  | None => s1
  end.

(** ** Data model *)

(** Modelled from the spec: [utils/models.py] is not part of the sources; the
    fields of [ResearchFinding] are the keyword arguments of its constructor
    in [_search_cached] and the attribute [full_content] set by
    [_fetch_content]. *)
Record ResearchFinding : Type := {
  title : string;
  url : string;
  snippet : string;
  full_content : option string;
  relevance_score : Q
}.

(** Modelled from the spec: [ResearchResult] of [utils/models.py], with the
    keyword arguments of its constructor in [_extract_facts]. The three
    fields read from the decoded response hold whatever it decoded to. *)
Record ResearchResult : Type := {
  topic : string;
  query_used : JSON;
  findings : list ResearchFinding;
  key_facts : JSON;
  structured_summary : JSON;
  relevant_urls : list string
}.

Inductive MarkerType : Type := Screenshot | Visual.

#[global] Instance MarkerType_eq_dec : EqDecision MarkerType.
Proof. solve_decision. Defined.

(** Modelled from the spec: [VisualMarker] of [utils/models.py]; [marker_type]
    is one of the strings "screenshot" and "visual". *)
Record VisualMarker : Type := {
  marker_type : MarkerType;
  marker_url : option string;
  description : option string;
  marker_section_id : JSON
}.

(** Modelled from the spec: [ScriptSection] of [utils/models.py], with the
    keyword arguments of its constructor in [_parse] (the start time is
    passed as [start_time]). *)
Record ScriptSection : Type := {
  section_id : JSON;
  section_type : JSON;
  section_title : JSON;
  narration_text : string;
  visual_markers : list VisualMarker;
  estimated_duration_seconds : Q;
  start_time : Q
}.

(** Modelled from the spec: [VideoScript] of [utils/models.py]. *)
Record VideoScript : Type := {
  script_topic : string;
  script_title : JSON;
  sections : list ScriptSection;
  full_text : string;
  total_estimated_seconds : Q
}.

(** ** script_service.py *)

Definition screenshot_marker (sid : JSON) (u : string) : VisualMarker :=
  {| marker_type := Screenshot; marker_url := Some (strip u);
     description := None; marker_section_id := sid |}.

Definition visual_marker (sid : JSON) (d : string) : VisualMarker :=
  {| marker_type := Visual; marker_url := None;
     description := Some (strip d); marker_section_id := sid |}.

Definition _extract_markers (narration : string) (sid : JSON)
  : list VisualMarker * string :=
  let markers := [] in
  let markers :=
    markers ++ (screenshot_marker sid <$> findall match_screenshot narration) in
  let markers :=
    markers ++ (visual_marker sid <$> findall match_visual narration) in
  let clean := re_sub match_cue "" narration in
  (markers, strip (collapse_ws clean)).

(** [(len(clean.split()) / words_per_minute) * 60] *)
Definition duration_of (clean : string) (wpm : Z) : res Q :=
  if Z.eqb wpm 0 then Raise ZeroDivisionError
  else Ok ((inject_Z (Z.of_nat (length (py_split clean))) / inject_Z wpm) * 60)%Q.

Definition as_str (v : JSON) : res string :=
  match v with
  | JStr s => Ok s
  | _ => Raise TypeError
  end.

(** One turn of the loop of [_parse] on the state [(sections, t)]. *)
Definition parse_section (wpm : Z) (st : list ScriptSection * Q) (raw : JSON)
  : res (list ScriptSection * Q) :=
  let '(secs, t) := st in
  narration ← py_get raw "narration_text" (JStr "");
  sid ← py_getitem raw "section_id";
  narration ← as_str narration;
  let '(markers, clean) := _extract_markers narration sid in
  dur ← duration_of clean wpm;
  sid' ← py_get raw "section_id" (JStr ("s" +:+ pretty (length secs)));
  stype ← py_get raw "section_type" (JStr "main");
  ttl ← py_get raw "title" (JStr "");
  let sec :=
    {| section_id := sid'; section_type := stype; section_title := ttl;
       narration_text := clean; visual_markers := markers;
       estimated_duration_seconds := dur; start_time := t |} in
  Ok (secs ++ [sec], (t + dur)%Q).

Fixpoint parse_loop (wpm : Z) (st : list ScriptSection * Q) (raws : list JSON)
  : res (list ScriptSection * Q) :=
  match raws with
  | [] => Ok st
  | raw :: rest => st' ← parse_section wpm st raw; parse_loop wpm st' rest
  end.

Definition _parse (wpm : Z) (tpc : string) (data : JSON) : res VideoScript :=
  secs_json ← py_get data "sections" (JArr []);
  raws ← py_iter secs_json;
  '(secs, t) ← parse_loop wpm ([], 0%Q) raws;
  ttl ← py_get data "title" (JStr tpc);
  Ok {| script_topic := tpc; script_title := ttl; sections := secs;
        full_text := join "

" (narration_text <$> secs);
        total_estimated_seconds := t |}.

(** ** A reference JSON codec

    [json.loads] and [json.dumps] belong to Python's library; the services
    below take them as parameters. This module is an executable instance for
    the concrete runs at the end of the file: the grammar of RFC 8259 on
    texts whose characters stay in 0..255, a number with a fraction or an
    exponent decoded to [JFloat] and any other to [JInt], a repeated key
    keeping its last value, and the default separators and escapes of
    [json.dumps]. A float being an exact rational, the sign of a zero and
    the rounding of a long decimal are not represented. *)
Module RefJson.

Definition dquote : ascii := "034"%char.
Definition backslash : ascii := "092"%char.

Definition is_json_ws (c : ascii) : bool :=
  let n := nat_of_ascii c in
  Nat.eqb n 32 || Nat.eqb n 9 || Nat.eqb n 10 || Nat.eqb n 13.

Fixpoint skip_ws (s : string) : string :=
  match s with
  | String c s' => if is_json_ws c then skip_ws s' else s
  | "" => ""
  end.

Definition digit_of (c : ascii) : option Z :=
  let n := nat_of_ascii c in
  if Nat.leb 48 n && Nat.leb n 57 then Some (Z.of_nat n - 48)%Z else None.

Definition hex_of (c : ascii) : option Z :=
  let n := Z.of_nat (nat_of_ascii c) in
  if (48 <=? n)%Z && (n <=? 57)%Z then Some (n - 48)%Z
  else if (97 <=? n)%Z && (n <=? 102)%Z then Some (n - 87)%Z
  else if (65 <=? n)%Z && (n <=? 70)%Z then Some (n - 55)%Z
  else None.

Fixpoint read_digits (s : string) : list Z * string :=
  match s with
  | String c s' =>
      match digit_of c with
      | Some d => let '(ds, r) := read_digits s' in (d :: ds, r)
      | None => ([], s)
      end
  | "" => ([], "")
  end.

Definition digits_value (ds : list Z) : Z :=
  fold_left (fun a d => 10 * a + d)%Z ds 0%Z.

Definition pow10 (k : nat) : positive := Pos.pow 10 (Pos.of_nat k).

(** A number: an optional minus, an integer part without a leading zero, an
    optional fraction and an optional exponent. *)
Definition parse_number (s : string) : option (JSON * string) :=
  let '(neg, s1) :=
    match s with
    | String "-" r => (true, r)
    | _ => (false, s)
    end in
  let '(ip, s2) :=
    match read_digits s1 with
    | (0%Z :: _, _) => ([0%Z], drop_str 1 s1)
    | r => r
    end in
  match ip with
  | [] => None
  | _ =>
      let '(fd, s3) :=
        match s2 with
        | String "." r =>
            match read_digits r with
            | ([], _) => ([], s2)
            | r' => r'
            end
        | _ => ([], s2)
        end in
      let '(ex, s4) :=
        match s3 with
        | String c r =>
            if Ascii.eqb c "e" || Ascii.eqb c "E" then
              let '(eneg, r1) :=
                match r with
                | String "-" r' => (true, r')
                | String "+" r' => (false, r')
                | _ => (false, r)
                end in
              match read_digits r1 with
              | ([], _) => (None, s3)
              | (ds, r2) =>
                  (Some (if eneg : bool then (- digits_value ds)%Z
                         else digits_value ds), r2)
              end
            else (None, s3)
        | "" => (None, s3)
        end in
      let sgn (z : Z) : Z := if neg : bool then (- z)%Z else z in
      match fd, ex with
      | [], None => Some (JInt (sgn (digits_value ip)), s4)
      | _, _ =>
          let m := sgn (digits_value (ip ++ fd)) in
          let q :=
            match fd with
            | [] => inject_Z m
            | _ => Qmake m (pow10 (length fd))
            end in
          let q :=
            match ex with
            | None => q
            | Some e =>
                if (0 <=? e)%Z then (q * inject_Z (10 ^ e))%Q
                else (q * Qmake 1 (Z.to_pos (10 ^ (- e))))%Q
            end in
          Some (JFloat q, s4)
      end
  end.

Definition char_of_Z (z : Z) : option ascii :=
  if (z <? 256)%Z then Some (ascii_of_nat (Z.to_nat z)) else None.

(** The characters of a string literal after its opening quote. *)
Fixpoint parse_chars (fuel : nat) (s : string) : option (string * string) :=
  match fuel with
  | O => None
  | S f =>
      match s with
      | "" => None
      | String c r =>
          if Ascii.eqb c dquote then Some ("", r)
          else if Ascii.eqb c backslash then
            match r with
            | "" => None
            | String e r' =>
                '(d, rest) ←
                  (if Ascii.eqb e "u" then
                     match list_ascii_of_string (take_str 4 r') with
                     | [h1; h2; h3; h4] =>
                         a ← hex_of h1; b ← hex_of h2;
                         c' ← hex_of h3; d' ← hex_of h4;
                         x ← char_of_Z (((a * 16 + b) * 16 + c') * 16 + d')%Z;
                         Some (x, drop_str 4 r')
                     | _ => None
                     end
                   else if Ascii.eqb e dquote then Some (dquote, r')
                   else if Ascii.eqb e backslash then Some (backslash, r')
                   else if Ascii.eqb e "/" then Some ("/"%char, r')
                   else if Ascii.eqb e "b" then Some ("008"%char, r')
                   else if Ascii.eqb e "f" then Some ("012"%char, r')
                   else if Ascii.eqb e "n" then Some ("010"%char, r')
                   else if Ascii.eqb e "r" then Some ("013"%char, r')
                   else if Ascii.eqb e "t" then Some ("009"%char, r')
                   else None);
                '(more, rest') ← parse_chars f rest;
                Some (String d more, rest')
            end
          else if Nat.ltb (nat_of_ascii c) 32 then None
          else
            '(more, rest) ← parse_chars f r;
            Some (String c more, rest)
      end
  end.

Definition parse_string (s : string) : option (string * string) :=
  match s with
  | String c r =>
      if Ascii.eqb c dquote then parse_chars (S (String.length r)) r else None
  | "" => None
  end.

Fixpoint parse_value (fuel : nat) (s : string) : option (JSON * string) :=
  match fuel with
  | O => None
  | S f =>
      let s := skip_ws s in
      match s with
      | "" => None
      | String c r =>
          if Ascii.eqb c "[" then
            match skip_ws r with
            | String "]" r' => Some (JArr [], r')
            | _ => '(items, r') ← parse_elems f r; Some (JArr items, r')
            end
          else if Ascii.eqb c "{" then
            match skip_ws r with
            | String "}" r' => Some (JObj [], r')
            | _ =>
                '(fields, r') ← parse_members f r;
                Some (JObj (fold_left (fun d kv => dict_set (fst kv) (snd kv) d)
                              fields []), r')
            end
          else if Ascii.eqb c dquote then
            '(str, r') ← parse_string s; Some (JStr str, r')
          else
            match strip_prefix "null" s, strip_prefix "true" s,
                  strip_prefix "false" s with
            | Some r', _, _ => Some (JNull, r')
            | _, Some r', _ => Some (JBool true, r')
            | _, _, Some r' => Some (JBool false, r')
            | _, _, _ => parse_number s
            end
      end
  end
with parse_elems (fuel : nat) (s : string) : option (list JSON * string) :=
  match fuel with
  | O => None
  | S f =>
      '(v, r) ← parse_value f s;
      match skip_ws r with
      | String "," r' => '(vs, r'') ← parse_elems f r'; Some (v :: vs, r'')
      | String "]" r' => Some ([v], r')
      | _ => None
      end
  end
with parse_members (fuel : nat) (s : string)
  : option (list (string * JSON) * string) :=
  match fuel with
  | O => None
  | S f =>
      '(k, r) ← parse_string (skip_ws s);
      match skip_ws r with
      | String ":" r1 =>
          '(v, r2) ← parse_value f r1;
          match skip_ws r2 with
          | String "," r3 =>
              '(kvs, r4) ← parse_members f r3; Some ((k, v) :: kvs, r4)
          | String "}" r3 => Some ([(k, v)], r3)
          | _ => None
          end
      | _ => None
      end
  end.

(** [json.loads(s)]; [None] stands for [JSONDecodeError]. *)
Definition loads (s : string) : option JSON :=
  '(v, rest) ← parse_value (2 + 2 * String.length s) s;
  match skip_ws rest with
  | "" => Some v
  | _ => None
  end.

Definition hex_digit (z : Z) : ascii :=
  ascii_of_nat (Z.to_nat (if (z <? 10)%Z then z + 48 else z + 87)%Z).

Definition escape_char (c : ascii) : string :=
  let n := Z.of_nat (nat_of_ascii c) in
  if Ascii.eqb c dquote then String backslash (String dquote "")
  else if Ascii.eqb c backslash then String backslash (String backslash "")
  else if (n =? 10)%Z then String backslash "n"
  else if (n =? 13)%Z then String backslash "r"
  else if (n =? 9)%Z then String backslash "t"
  else if (n =? 8)%Z then String backslash "b"
  else if (n =? 12)%Z then String backslash "f"
  else if (n <? 32)%Z || (126 <? n)%Z then
    String backslash
      (String "u" (String "0" (String "0"
        (String (hex_digit (n / 16)) (String (hex_digit (n mod 16)) "")))))
  else String c "".

Fixpoint escape (s : string) : string :=
  match s with
  | "" => ""
  | String c s' => escape_char c +:+ escape s'
  end.

Definition quote (s : string) : string :=
  String dquote (escape s +:+ String dquote "").

Fixpoint frac_digits (fuel : nat) (r d : Z) : string :=
  match fuel with
  | O => ""
  | S f =>
      let r10 := (r * 10)%Z in
      pretty (r10 / d)%Z +:+
      (if (r10 mod d =? 0)%Z then "" else frac_digits f (r10 mod d)%Z d)
  end.

(** A float is written as a decimal with at least one digit after the
    point. *)
Definition dump_float (q : Q) : string :=
  let n := Qnum q in
  let d := Z.pos (Qden q) in
  (if (n <? 0)%Z then "-" else "") +:+ pretty (Z.abs n / d)%Z +:+ "."
  +:+ frac_digits 17 (Z.abs n mod d)%Z d.

(** [json.dumps(v)] *)
Fixpoint dumps (v : JSON) : string :=
  match v with
  | JNull => "null"
  | JBool true => "true"
  | JBool false => "false"
  | JInt n => pretty n
  | JFloat q => dump_float q
  | JStr s => quote s
  | JArr items => "[" +:+ join ", " (map dumps items) +:+ "]"
  | JObj fields =>
      "{" +:+ join ", " (map (fun kv => quote (fst kv) +:+ ": " +:+ dumps (snd kv))
                            fields) +:+ "}"
  end.

End RefJson.

(** ** Collaborators and the world *)

(** [SearchResult] of [providers.py], with the fields of the types that the
    dataclass declares. A provider hands on what the response holds under
    a key, of whatever type ([provider_search] below); a result with a
    field that is not a [str] is outside this record, so what is proved of
    [research] is proved for results of the declared types. *)
Record SearchResult : Type := {
  sr_title : string;
  sr_url : string;
  sr_snippet : string;
  position : Z
}.

(** [RuntimeConfig] of [loader.py], with the fields the two services read.
    [llm_complete user_prompt system_prompt max_tokens] is the text of the
    response of [cfg.llm.complete], [search query max_results] the value of
    [cfg.search.search]; both may raise. *)
Record RuntimeConfig : Type := {
  llm_complete : string -> string -> Z -> res string;
  search : JSON -> JSON -> res (list SearchResult);
  search_provider_name : string;
  target_minutes : Z;
  words_per_minute : Z;
  persona : JSON;
  _raw : JSON;
  cache_dir : string
}.

(** What a run can change or tell the outside: the files under the cache
    directory, the queries sent to the search provider and the URLs
    requested over HTTP, oldest first. *)
Record World : Type := {
  files : gmap string string;
  search_calls : list JSON;
  http_calls : list string
}.

(** State over [World] with exceptions; the state reached is kept when an
    exception is raised. *)
Definition M (A : Type) : Type := World -> res A * World.

#[global] Instance M_ret : MRet M := fun _ a w => (Ok a, w).
#[global] Instance M_bind : MBind M := fun _ _ k m w =>
  match m w with
  | (Ok a, w') => k a w'
  | (Raise e, w') => (Raise e, w')
  end.

Definition lift {A : Type} (r : res A) : M A := fun w => (r, w).

(** The outcome of a task as [gather(..., return_exceptions=True)] reports
    it. *)
Definition try_task {A : Type} (m : M A) : M (res A) :=
  fun w => let '(r, w') := m w in (Ok r, w').

Fixpoint gather {A : Type} (tasks : list (M A)) : M (list (res A)) :=
  match tasks with
  | [] => mret []
  | t :: ts => r ← try_task t; rs ← gather ts; mret (r :: rs)
  end.

Definition read_file (path : string) : M (option string) :=
  fun w => (Ok (files w !! path), w).

Definition write_file (path text : string) : M unit :=
  fun w => (Ok tt, {| files := <[path := text]> (files w);
                      search_calls := search_calls w;
                      http_calls := http_calls w |}).

Definition call_search (cfg : RuntimeConfig) (q n : JSON)
  : M (list SearchResult) :=
  fun w => (search cfg q n, {| files := files w;
                               search_calls := search_calls w ++ [q];
                               http_calls := http_calls w |}).

Definition path_join (dir name : string) : string := dir +:+ "/" +:+ name.

Definition nl : string := String "010"%char "".
Definition dq : string := String "034"%char "".

(** ** Sorting, slicing and deduplication *)

(** [sorted(l, key=key, reverse=True)]: Python's sort is stable, also in
    reverse, so the result is the one list that is in descending order of
    [key] and keeps the elements of equal key in their order in [l]. It is
    computed here by insertion from the right: [x] goes before the first
    element whose key does not exceed its own. *)
Fixpoint insert_desc {A : Type} (key : A -> Q) (x : A) (l : list A) : list A :=
  match l with
  | [] => [x]
  | y :: l' =>
      if Qle_bool (key y) (key x) then x :: y :: l'
      else y :: insert_desc key x l'
  end.

Definition py_sorted_desc {A : Type} (key : A -> Q) (l : list A) : list A :=
  foldr (insert_desc key) [] l.

(** [l[:bound]] *)
Definition py_slice_to {A : Type} (bound : JSON) (l : list A) : res (list A) :=
  match bound with
  | JInt n =>
      Ok (if (0 <=? n)%Z then take (Z.to_nat n) l
          else take (length l - Z.to_nat (- n)) l)
  | JBool b => Ok (take (if b then 1 else 0)%nat l)
  | JNull => Ok l
  | _ => Raise TypeError
  end.

(** [[f for f in l if not (f.url in seen or seen.add(f.url))]] *)
Fixpoint unique_from (seen : gset string) (l : list ResearchFinding)
  : list ResearchFinding :=
  match l with
  | [] => []
  | f :: l' =>
      if decide (url f ∈ seen) then unique_from seen l'
      else f :: unique_from ({[url f]} ∪ seen) l'
  end.

(** The loop [for r in results: if not isinstance(r, Exception): ...]. *)
Fixpoint merge_results (results : list (res (list ResearchFinding)))
  : list ResearchFinding :=
  match results with
  | [] => []
  | Ok r :: rest => r ++ merge_results rest
  | Raise _ :: rest => merge_results rest
  end.

(** The findings of [unique] are objects shared with [top]: an object is
    named by its index in [unique]. *)
Definition refs (heap : list ResearchFinding) : list (nat * ResearchFinding) :=
  imap pair heap.

Definition select_top (top_n : JSON) (unique : list ResearchFinding)
  : res (list (nat * ResearchFinding)) :=
  py_slice_to top_n
    (py_sorted_desc (fun r => relevance_score (snd r)) (refs unique)).

(** ** research_service.py, and generate_script of script_service.py *)

Definition finding_of_result (r : SearchResult) : ResearchFinding :=
  {| title := sr_title r; url := sr_url r; snippet := sr_snippet r;
     full_content := None;
     relevance_score := (1 - inject_Z (position r) * (1 # 10))%Q |}.

(** [f.__dict__], in the order of the fields. *)
Definition finding_to_json (f : ResearchFinding) : JSON :=
  JObj [("title", JStr (title f)); ("url", JStr (url f));
        ("snippet", JStr (snippet f));
        ("full_content",
         match full_content f with Some c => JStr c | None => JNull end);
        ("relevance_score", JFloat (relevance_score f))].

Definition finding_fields : list string :=
  ["title"; "url"; "snippet"; "full_content"; "relevance_score"].

Section Services.

(** Python's library: [json.loads] ([None] for [JSONDecodeError]; the
    other exceptions that it can raise, [ValueError] for an integer literal
    beyond the digit limit and [RecursionError], are not among its
    outcomes here, so a statement on a decoded response speaks of a
    response that [json.loads] decodes or rejects with [JSONDecodeError]),
    [json.dumps], [hashlib.md5(s.encode()).hexdigest()], [str(v)] for a
    value that is not a [str], and the GET request of [aiohttp] giving the
    status and the body. *)
Variable json_loads : string -> option JSON.
Variable json_dumps : JSON -> string.
Variable md5_hex : string -> string.
Variable py_repr : JSON -> string.
Variable http_get : string -> res (Z * string).

(** Modelled from the spec: the default of the field [relevance_score] in
    [utils/models.py]; the field follows [full_content], which has one. *)
Variable default_relevance_score : Q.

Variable cfg : RuntimeConfig.

(** [f"{v}"] *)
Definition format_value (v : JSON) : string :=
  match v with
  | JStr s => s
  | _ => py_repr v
  end.

Definition py_json_loads (text : string) : res JSON :=
  match json_loads text with
  | Some v => Ok v
  | None => Raise JSONDecodeError
  end.

Definition cache_root : string := path_join (cache_dir cfg) "research".

(** A keyword argument that the constructor of a dataclass requires:
    [TypeError] when it is missing. *)
Definition required (k : string) (fields : list (string * JSON)) : res JSON :=
  match dict_get k fields with
  | Some v => Ok v
  | None => Raise TypeError
  end.

(** [ResearchFinding] called with the items of the dict [f] as keyword
    arguments: a key that is not a field, and a missing field without a
    default, raise [TypeError]. A field holding a value of another type than
    the one declared is refused here; Python would fail at its first use. *)
Definition finding_of_json (f : JSON) : res ResearchFinding :=
  match f with
  | JObj fields =>
      if forallb (fun kv => bool_decide (fst kv ∈ finding_fields)) fields then
        t ← required "title" fields; t ← as_str t;
        u ← required "url" fields; u ← as_str u;
        s ← required "snippet" fields; s ← as_str s;
        c ← match dict_get "full_content" fields with
            | None | Some JNull => Ok None
            | Some (JStr c) => Ok (Some c)
            | Some _ => Raise TypeError
            end;
        r ← match dict_get "relevance_score" fields with
            | None => Ok default_relevance_score
            | Some (JFloat q) => Ok q
            | Some (JInt n) => Ok (inject_Z n)
            | Some _ => Raise TypeError
            end;
        Ok {| title := t; url := u; snippet := s; full_content := c;
              relevance_score := r |}
      else Raise TypeError
  | _ => Raise TypeError
  end.

Fixpoint findings_of_json (items : list JSON) : res (list ResearchFinding) :=
  match items with
  | [] => Ok []
  | f :: rest =>
      x ← finding_of_json f; xs ← findings_of_json rest; Ok (x :: xs)
  end.

Definition search_cache_path (query : JSON) : string :=
  let cache_key :=
    md5_hex (search_provider_name cfg +:+ ":" +:+ format_value query) in
  path_join cache_root ("search_" +:+ cache_key +:+ ".json").

Definition _search_cached (query : JSON) : M (list ResearchFinding) :=
  let cache_path := search_cache_path query in
  cached ← read_file cache_path;
  match cached with
  | Some text =>
      lift (v ← py_json_loads text; items ← py_iter v; findings_of_json items)
  | None =>
      max_results ← lift (c ← py_getitem (_raw cfg) "search";
                          py_getitem c "max_results");
      raw_results ← call_search cfg query max_results;
      let found := finding_of_result <$> raw_results in
      _ ← write_file cache_path (json_dumps (JArr (finding_to_json <$> found)));
      mret found
  end.

Definition page_cache_path (u : string) : string :=
  path_join cache_root ("page_" +:+ md5_hex u +:+ ".txt").

Definition with_content (f : ResearchFinding) (text : string) : ResearchFinding :=
  {| title := title f; url := url f; snippet := snippet f;
     full_content := Some text; relevance_score := relevance_score f |}.

(** [_fetch_content] returns the finding as it has left it; any exception of
    the request is caught and logged. *)
Definition _fetch_content (f : ResearchFinding) : M ResearchFinding :=
  let cache_path := page_cache_path (url f) in
  cached ← read_file cache_path;
  match cached with
  | Some text => mret (with_content f text)
  | None =>
      fun w =>
        let w1 := {| files := files w; search_calls := search_calls w;
                     http_calls := http_calls w ++ [url f] |} in
        match http_get (url f) with
        | Ok (status, html) =>
            if (status =? 200)%Z then
              let text := html_to_text html in
              (_ ← write_file cache_path text; mret (with_content f text)) w1
            else (Ok f, w1)
        | Raise _ => (Ok f, w1)
        end
  end.

(** The second [gather]: each finding of [top] is fetched; it is the object
    of [heap] that its index names, which is read and updated in place. An
    exception leaves the object as it is. *)
Fixpoint fetch_all (top : list (nat * ResearchFinding))
  (heap : list ResearchFinding) : M (list ResearchFinding) :=
  match top with
  | [] => mret heap
  | (i, _) :: rest =>
      match heap !! i with
      | Some f =>
          r ← try_task (_fetch_content f);
          match r with
          | Ok f' => fetch_all rest (<[i := f']> heap)
          | Raise _ => fetch_all rest heap
          end
      | None => fetch_all rest heap
      end
  end.

Definition queries_prompt (tpc : string) : string :=
  "Generate 4 targeted search queries to research this topic for a YouTube "
  +:+ "tech video: '" +:+ tpc +:+ "'" +:+ nl +:+ nl
  +:+ "Return ONLY a JSON array of strings.".

Definition _generate_queries (tpc : string) : M (list JSON) :=
  text ← lift (llm_complete cfg (queries_prompt tpc) "" 512);
  let raw := strip_fences text in
  match json_loads raw with
  | Some (JArr queries) => mret (take 4 queries)
  | Some _ => mret [JStr tpc]
  | None =>
      mret [JStr tpc; JStr (tpc +:+ " announcement"); JStr (tpc +:+ " review")]
  end.

(** [(f.full_content or f.snippet)] *)
Definition content_or_snippet (f : ResearchFinding) : string :=
  match full_content f with
  | Some (String c r) => String c r
  | _ => snippet f
  end.

Definition has_content (f : ResearchFinding) : bool :=
  match full_content f with
  | Some (String _ _) => true
  | _ => false
  end.

Definition fallback_facts (tpc : string) (found : list ResearchFinding) : JSON :=
  JObj [("key_facts", JArr ((fun f => JStr (snippet f)) <$> take 8 found));
        ("structured_summary", JStr ("Research on: " +:+ tpc));
        ("query_used", JStr tpc)].

Definition facts_prompt (tpc : string) (found : list ResearchFinding) : string :=
  let snippets :=
    join (nl +:+ nl)
      ((fun f => "SOURCE: " +:+ title f +:+ nl +:+ "URL: " +:+ url f +:+ nl
                 +:+ take_str 1500 (content_or_snippet f) +:+ nl +:+ "---")
       <$> take 8 found) in
  "Researching '" +:+ tpc +:+ "' for a YouTube tech video." +:+ nl +:+ nl
  +:+ "Sources:" +:+ nl +:+ snippets +:+ nl +:+ nl
  +:+ "Return JSON: { " +:+ dq +:+ "key_facts" +:+ dq +:+ ": [...], "
  +:+ dq +:+ "structured_summary" +:+ dq +:+ ": " +:+ dq +:+ "..." +:+ dq
  +:+ ", " +:+ dq +:+ "query_used" +:+ dq +:+ ": " +:+ dq +:+ "..." +:+ dq
  +:+ " }" +:+ nl
  +:+ "8-15 specific key_facts. Return ONLY valid JSON.".

Definition _extract_facts (tpc : string) (found : list ResearchFinding)
  : M ResearchResult :=
  text ← lift (llm_complete cfg (facts_prompt tpc found) "" 2048);
  let raw := strip_fences text in
  let data :=
    match json_loads raw with
    | Some d => d
    | None => fallback_facts tpc found
    end in
  lift (
    qu ← py_get data "query_used" (JStr tpc);
    kf ← py_get data "key_facts" (JArr []);
    ss ← py_get data "structured_summary" (JStr "");
    Ok {| topic := tpc; query_used := qu; findings := found; key_facts := kf;
          structured_summary := ss;
          relevant_urls := url <$> filter (fun f => has_content f = true) found |}).

Definition research (tpc : string) : M ResearchResult :=
  queries ← _generate_queries tpc;
  results ← gather (_search_cached <$> queries);
  let all_findings := merge_results results in
  let unique := unique_from ∅ all_findings in
  top_n ← lift (c ← py_getitem (_raw cfg) "search";
                py_getitem c "top_pages_to_fetch");
  top ← lift (select_top top_n unique);
  unique ← fetch_all top unique;
  _extract_facts tpc unique.

(** [_SYSTEM.format(...)] *)
Definition system_prompt (tone audience style opener_hook : JSON)
  (target_words : Z) : string :=
  "You are an expert YouTube scriptwriter specialising in tech content." +:+ nl
  +:+ "Write in a " +:+ format_value tone +:+ " style for "
  +:+ format_value audience +:+ "." +:+ nl
  +:+ format_value style +:+ ". " +:+ format_value opener_hook +:+ "." +:+ nl
  +:+ "Embed visual cues using [SCREENSHOT: https://url] and "
  +:+ "[VISUAL: description] markers." +:+ nl
  +:+ "Target word count: " +:+ pretty target_words +:+ " words (~"
  +:+ pretty (target_minutes cfg) +:+ " minutes at 150 wpm)." +:+ nl
  +:+ "Return ONLY valid JSON, no markdown fences.".

(** [_USER.format(...)] *)
Definition user_prompt (tpc : string) (summary : JSON) (facts urls : string)
  (min_sections max_sections : JSON) (section_types : string) : string :=
  "Create a YouTube script about: " +:+ tpc +:+ nl +:+ nl
  +:+ "RESEARCH SUMMARY:" +:+ nl +:+ format_value summary +:+ nl +:+ nl
  +:+ "KEY FACTS:" +:+ nl +:+ facts +:+ nl +:+ nl
  +:+ "RELEVANT URLS TO SCREENSHOT:" +:+ nl +:+ urls +:+ nl +:+ nl
  +:+ "Return JSON:" +:+ nl +:+ "{" +:+ nl
  +:+ "  " +:+ dq +:+ "title" +:+ dq +:+ ": " +:+ dq
  +:+ "engaging video title" +:+ dq +:+ "," +:+ nl
  +:+ "  " +:+ dq +:+ "sections" +:+ dq +:+ ": [" +:+ nl
  +:+ "    {" +:+ nl
  +:+ "      " +:+ dq +:+ "section_id" +:+ dq +:+ ": " +:+ dq +:+ "intro"
  +:+ dq +:+ "," +:+ nl
  +:+ "      " +:+ dq +:+ "section_type" +:+ dq +:+ ": " +:+ dq +:+ "intro"
  +:+ dq +:+ "," +:+ nl
  +:+ "      " +:+ dq +:+ "title" +:+ dq +:+ ": " +:+ dq +:+ "Section Title"
  +:+ dq +:+ "," +:+ nl
  +:+ "      " +:+ dq +:+ "narration_text" +:+ dq +:+ ": " +:+ dq
  +:+ "Full narration with [SCREENSHOT: url] markers" +:+ dq +:+ nl
  +:+ "    }" +:+ nl +:+ "  ]" +:+ nl +:+ "}" +:+ nl +:+ nl
  +:+ "Include " +:+ format_value min_sections +:+ "-"
  +:+ format_value max_sections +:+ " sections. Types: " +:+ section_types
  +:+ ".".

Fixpoint strs_of_json (items : list JSON) : res (list string) :=
  match items with
  | [] => Ok []
  | v :: rest => x ← as_str v; xs ← strs_of_json rest; Ok (x :: xs)
  end.

(** The bullet of the facts list is U+2022, kept as the three bytes of its
    UTF-8 encoding. *)
Definition bullet : string := "•".

(** The system and user prompts of [generate_script], in this order. *)
Definition script_prompts (research : ResearchResult) : res (string * string) :=
  let target_words := (target_minutes cfg * words_per_minute cfg)%Z in
  tone ← py_getitem (persona cfg) "tone";
  audience ← py_getitem (persona cfg) "audience";
  style ← py_getitem (persona cfg) "style";
  opener_hook ← py_getitem (persona cfg) "opener_hook";
  let system := system_prompt tone audience style opener_hook target_words in
  script_cfg ← py_getitem (_raw cfg) "script";
  sections_cfg ← py_getitem script_cfg "sections";
  facts ← py_iter (key_facts research);
  let facts := join nl ((fun f => bullet +:+ " " +:+ format_value f) <$> facts) in
  let urls := join nl (take 10 (relevant_urls research)) in
  min_sections ← py_getitem sections_cfg "min";
  max_sections ← py_getitem sections_cfg "max";
  allowed ← py_getitem sections_cfg "allowed_types";
  allowed ← py_iter allowed;
  allowed ← strs_of_json allowed;
  let user :=
    user_prompt (topic research) (structured_summary research) facts urls
      min_sections max_sections (join ", " allowed) in
  Ok (system, user).

Definition generate_script (research : ResearchResult) : res VideoScript :=
  '(system, user) ← script_prompts research;
  text ← llm_complete cfg user system 8192;
  let raw := strip_fences text in
  data ← py_json_loads raw;
  _parse (words_per_minute cfg) (topic research) data.

End Services.

(** ** Order of appearance

    The markers of a narration in the order in which their cues appear in
    it, as the specification words it: the matches of the two cue patterns,
    merged by their offset in the text. *)
Fixpoint merge_by_offset {A : Type} (a : list (nat * A))
  : list (nat * A) -> list (nat * A) :=
  fix inner (b : list (nat * A)) : list (nat * A) :=
    match a, b with
    | [], _ => b
    | _, [] => a
    | x :: a', y :: b' =>
        if Nat.leb (fst x) (fst y) then x :: merge_by_offset a' b
        else y :: inner b'
    end.

Definition markers_by_appearance (narration : string) (sid : JSON)
  : list VisualMarker :=
  snd <$> merge_by_offset
    (prod_map id (screenshot_marker sid) <$> finditer match_screenshot narration)
    (prod_map id (visual_marker sid) <$> finditer match_visual narration).

Definition is_screenshot (m : VisualMarker) : Prop := marker_type m = Screenshot.
Definition is_visual (m : VisualMarker) : Prop := marker_type m = Visual.

(** The estimated timeline: [timeline t secs t'] when the sections follow
    one another from time [t] to time [t'] without gap or overlap. *)
Inductive timeline : Q -> list ScriptSection -> Q -> Prop :=
  | timeline_nil t : timeline t [] t
  | timeline_cons t sec secs t' :
      start_time sec = t ->
      timeline (t + estimated_duration_seconds sec)%Q secs t' ->
      timeline t (sec :: secs) t'.

(** [sum] of a list of durations, from the left as the loop adds them. *)
Definition sum_durations (ds : list Q) : Q := fold_left Qplus ds 0%Q.

(** Two findings that differ at most by their fetched content. *)
Definition same_record (f g : ResearchFinding) : Prop :=
  title f = title g /\ url f = url g /\ snippet f = snippet g
  /\ relevance_score f = relevance_score g.

(** [built_from wpm raw sec]: the section [sec] is what one turn of the loop
    of [_parse] makes of the raw section [raw]. *)
Definition built_from (wpm : Z) (raw : JSON) (sec : ScriptSection) : Prop :=
  exists narration sid,
    py_get raw "narration_text" (JStr "") = Ok (JStr narration)
    /\ py_getitem raw "section_id" = Ok sid
    /\ visual_markers sec = fst (_extract_markers narration sid)
    /\ narration_text sec = strip (collapse_ws (re_sub match_cue "" narration))
    /\ wpm <> 0%Z
    /\ estimated_duration_seconds sec
       = (inject_Z (Z.of_nat (length (py_split (narration_text sec))))
          / inject_Z wpm * 60)%Q.

#[global] Instance is_screenshot_dec m : Decision (is_screenshot m).
Proof. unfold is_screenshot. apply _. Defined.
#[global] Instance is_visual_dec m : Decision (is_visual m).
Proof. unfold is_visual. apply _. Defined.

(** ** Concrete inputs *)

(** The narration of the scenario of the specification, followed by a
    section that is nothing but cues. *)
Definition demo_narration : string :=
  "Intro text [SCREENSHOT: https://a.example/1] more text [VISUAL: chart of growth]".

Definition demo_script_json : JSON :=
  JObj [("title", JStr "Demo");
        ("sections",
         JArr [JObj [("section_id", JStr "intro");
                     ("narration_text", JStr demo_narration)];
               JObj [("section_id", JStr "beat");
                     ("narration_text", JStr "[VISUAL: logo]")];
               JObj [("section_id", JStr "outro");
                     ("section_type", JStr "outro");
                     ("narration_text", JStr "Thanks for watching")]])].

(** A configuration whose LLM answers [answer] to every prompt and whose
    search provider returns the same two results for every query. *)
Definition demo_results : list SearchResult :=
  [ {| sr_title := "First"; sr_url := "https://a.example/1";
       sr_snippet := "first snippet"; position := 0 |};
    {| sr_title := "Second"; sr_url := "https://a.example/2";
       sr_snippet := "second snippet"; position := 1 |} ].

Definition demo_cfg (answer : string) : RuntimeConfig :=
  {| llm_complete := fun _ _ _ => Ok answer;
     search := fun _ _ => Ok demo_results;
     search_provider_name := "searx";
     target_minutes := 5;
     words_per_minute := 150;
     persona :=
       JObj [("tone", JStr "casual"); ("audience", JStr "developers");
             ("style", JStr "Concise"); ("opener_hook", JStr "Ask a question")];
     _raw :=
       JObj [("search",
              JObj [("max_results", JInt 5); ("top_pages_to_fetch", JInt 2)]);
             ("script",
              JObj [("sections",
                     JObj [("min", JInt 3); ("max", JInt 8);
                           ("allowed_types",
                            JArr [JStr "intro"; JStr "main"; JStr "outro"])])])];
     cache_dir := "./cache" |}.

Definition empty_world : World :=
  {| files := ∅; search_calls := []; http_calls := [] |}.

Definition demo_research : ResearchResult :=
  {| topic := "rust"; query_used := JStr "rust"; findings := [];
     key_facts := JArr [JStr "Rust is memory safe"];
     structured_summary := JStr "A summary";
     relevant_urls := ["https://a.example/1"] |}.

(** Stand-ins for [hashlib] and [str] in the concrete runs: no property
    below depends on what they compute. *)
Definition demo_md5 (s : string) : string := s.
Definition demo_repr (v : JSON) : string := RefJson.dumps v.
Definition demo_http (u : string) : res (Z * string) :=
  Ok (200%Z, "<html><body><p>page</p></body></html>").

(** A narration whose visual cue comes before its screenshot cue. *)
Definition interleaved_narration : string :=
  "First [VISUAL: chart] then [SCREENSHOT: https://a.example/1] done".

(** * The configuration, the providers and the file stem *)

(** ** orchestrator.py: the file stem of a title *)

Definition in_range (a b n : nat) : bool := Nat.leb a n && Nat.leb n b.

(** [\w] in a [str] pattern, on the code points 0..255. *)
Definition is_word (c : ascii) : bool :=
  let n := nat_of_ascii c in
  in_range 48 57 n || in_range 65 90 n || Nat.eqb n 95 || in_range 97 122 n
  || Nat.eqb n 170 || in_range 178 179 n || Nat.eqb n 181
  || in_range 185 186 n || in_range 188 190 n || in_range 192 214 n
  || in_range 216 246 n || in_range 248 255 n.

(** A class of characters, as a pattern of one character. *)
Definition match_char (cls : ascii -> bool) (s : string)
  : option (string * nat) :=
  match s with
  | String c _ => if cls c then Some (String c "", 1%nat) else None
  | "" => None
  end.

Fixpoint space_run (s : string) : nat :=
  match s with
  | String c s' => if is_space c then S (space_run s') else O
  | "" => O
  end.

(** [\s+] *)
Definition match_spaces (s : string) : option (string * nat) :=
  match space_run s with
  | O => None
  | n => Some (take_str n s, n)
  end.

(** [[^\w\s-]] *)
Definition unsafe_char (c : ascii) : bool :=
  negb (is_word c || is_space c || Ascii.eqb c "-").

Definition _safe_stem (title : string) : string :=
  let s := re_sub (match_char unsafe_char) "" title in
  match take_str 80 (re_sub match_spaces "_" (strip s)) with
  | "" => "video"
  | stem => stem
  end.

(** A character that [_safe_stem] lets through: a word character or a
    hyphen. *)
Definition stem_char (c : ascii) : bool := is_word c || Ascii.eqb c "-".

(** ** Python values beyond [exn] *)

(** The exceptions of the configuration code: those of [exn] and
    [ValueError] with its message. *)
Inductive py_error : Type :=
  | Builtin (e : exn)
  | ValueError (msg : string).

Inductive checked (A : Type) : Type :=
  | Done (a : A)
  | Failed (e : py_error).
Arguments Done {A} a.
Arguments Failed {A} e.

#[global] Instance checked_ret : MRet checked := fun _ a => Done a.
#[global] Instance checked_bind : MBind checked := fun _ _ k m =>
  match m with
  | Done a => k a
  | Failed e => Failed e
  end.
#[global] Instance checked_fmap : FMap checked := fun _ _ f m =>
  match m with
  | Done a => Done (f a)
  | Failed e => Failed e
  end.

Definition of_res {A : Type} (r : res A) : checked A :=
  match r with
  | Ok a => Done a
  | Raise e => Failed (Builtin e)
  end.

(** [s.lower()] on the code points 0..255. *)
Definition lower_char (c : ascii) : ascii :=
  let n := nat_of_ascii c in
  if in_range 65 90 n || in_range 192 214 n || in_range 216 222 n
  then ascii_of_nat (n + 32) else c.

Fixpoint lower (s : string) : string :=
  match s with
  | "" => ""
  | String c s' => String (lower_char c) (lower s')
  end.

(** [c in s] for a character [c]. *)
Fixpoint contains_char (c : ascii) (s : string) : bool :=
  match s with
  | "" => false
  | String x s' => Ascii.eqb x c || contains_char c s'
  end.

(** [s.replace(c, "")] for a character [c]. *)
Fixpoint remove_char (c : ascii) (s : string) : string :=
  match s with
  | "" => ""
  | String x s' =>
      if Ascii.eqb x c then remove_char c s' else String x (remove_char c s')
  end.

(** [s.split(sep)] for a separator of one character; [cur] is the piece
    being read. *)
Fixpoint split_on (sep : ascii) (cur : string) (s : string) : list string :=
  match s with
  | "" => [cur]
  | String c s' =>
      if Ascii.eqb c sep then cur :: split_on sep "" s'
      else split_on sep (cur +:+ String c "") s'
  end.

(** [s.split(sep, 1)] for a string [s] in which [sep] occurs. *)
Definition split_once (sep : ascii) (s : string) : string * string :=
  let '(k, rest) := span_until sep s in (k, drop_str 1 rest).

(** [c.isdigit()] on the code points 0..255: the decimal digits and the
    superscripts one, two and three. *)
Definition is_digit_char (c : ascii) : bool :=
  let n := nat_of_ascii c in
  in_range 48 57 n || in_range 178 179 n || Nat.eqb n 185.

Definition is_decimal_char (c : ascii) : bool :=
  in_range 48 57 (nat_of_ascii c).

(** A character that the cast of a [--set] value takes for part of a
    number. *)
Definition digit_or_dot (c : ascii) : bool := is_digit_char c || Ascii.eqb c ".".

Fixpoint all_chars (p : ascii -> bool) (s : string) : bool :=
  match s with
  | "" => true
  | String c s' => p c && all_chars p s'
  end.

(** [s.isdigit()] *)
Definition isdigit (s : string) : bool :=
  match s with
  | "" => false
  | _ => all_chars is_digit_char s
  end.

Fixpoint decimal_value (acc : Z) (s : string) : Z :=
  match s with
  | "" => acc
  | String c s' => decimal_value (10 * acc + (Z.of_nat (nat_of_ascii c) - 48)) s'
  end.

(** The number of decimal digits that [s] begins with. *)
Fixpoint decimal_prefix (s : string) : nat :=
  match s with
  | String c s' => if is_decimal_char c then S (decimal_prefix s') else O
  | "" => O
  end.

(** The two messages of [int]: the literal is shown by [repr] cut at 200
    characters. *)
Definition invalid_int_literal (v : string) : string :=
  "invalid literal for int() with base 10: "
  +:+ take_str 200 ("'" +:+ v +:+ "'").

Definition digit_limit_exceeded (digits : nat) : string :=
  "Exceeds the limit (4300 digits) for integer string conversion: value has "
  +:+ pretty (Z.of_nat digits)
  +:+ " digits; use sys.set_int_max_str_digits() to increase the limit".

(** [int(v)] for a [v] that [isdigit] accepts, as CPython 3.11 converts it
    with the default limit of 4300 digits: the decimal digits that [v]
    begins with are counted first, leading zeros among them, and more than
    4300 of them raise; a superscript is a digit for [isdigit] and not for
    [int]. *)
Definition py_int (v : string) : checked JSON :=
  if (4300 <? Z.of_nat (decimal_prefix v))%Z then
    Failed (ValueError (digit_limit_exceeded (decimal_prefix v)))
  else if all_chars is_decimal_char v then Done (JInt (decimal_value 0 v))
  else Failed (ValueError (invalid_int_literal v)).

(** [float(v)] for a [v] made of a dot or more and of characters that
    [isdigit] accepts, with one such character at least. The float is the
    rational that [v] writes; beyond 308 digits before the dot Python's
    float can be [inf], which no rational is. *)
Definition py_float (v : string) : checked JSON :=
  match split_on "." "" v with
  | [ip; fp] =>
      if all_chars is_decimal_char ip && all_chars is_decimal_char fp then
        Done (JFloat (Qmake (decimal_value 0 (ip +:+ fp))
                        (Z.to_pos (10 ^ Z.of_nat (String.length fp)))))
      else Failed (ValueError
             ("could not convert string to float: '" +:+ v +:+ "'"))
  | _ => Failed (ValueError
           ("could not convert string to float: '" +:+ v +:+ "'"))
  end.

(** ** main.py: the [--set] arguments *)

(** The "auto-cast" of a value. *)
Definition auto_cast (v : string) : checked JSON :=
  if String.eqb (lower v) "true" then Done (JBool true)
  else if String.eqb (lower v) "false" then Done (JBool false)
  else if isdigit (remove_char "." v) then
    if contains_char "." v then py_float v else py_int v
  else Done (JStr v).

Fixpoint collect_overrides (overrides : list (string * JSON))
  (set_args : list string) : checked (list (string * JSON)) :=
  match set_args with
  | [] => Done overrides
  | item :: rest =>
      if negb (contains_char "=" item) then
        Failed (ValueError
          ("--set must be in format key=value, got: " +:+ item))
      else
        let '(k, v) := split_once "=" item in
        v ← auto_cast v;
        collect_overrides (dict_set k v overrides) rest
  end.

(** [_apply_set_overrides(cfg_path, set_args)]; the path is not used. *)
Definition _apply_set_overrides (set_args : list string)
  : checked (option (list (string * JSON))) :=
  match set_args with
  | [] => Done None
  | _ => Some <$> collect_overrides [] set_args
  end.

(** ** loader.py: overrides by dotted key *)

(** The loop of [_set_nested] over [keys[:-1]] and its last assignment, on
    the dict [d]; the result is [d] as the assignment leaves it. *)
Fixpoint set_path (init : list string) (last_key : string) (value : JSON)
  (d : JSON) : res JSON :=
  match init with
  | [] =>
      match d with
      | JObj fields => Ok (JObj (dict_set last_key value fields))
      | _ => Raise TypeError
      end
  | key :: rest =>
      match d with
      | JObj fields =>
          let child := default (JObj []) (dict_get key fields) in
          child' ← set_path rest last_key value child;
          Ok (JObj (dict_set key child' fields))
      | _ => Raise AttributeError
      end
  end.

Definition _set_nested (d : JSON) (dot_key : string) (value : JSON) : res JSON :=
  let keys := split_on "." "" dot_key in
  set_path (removelast keys) (default "" (last keys)) value d.

(** [d[k1][k2]...[kn]], as the docstring of [_set_nested] writes it. *)
Fixpoint get_path (keys : list string) (d : JSON) : option JSON :=
  match keys with
  | [] => Some d
  | key :: rest =>
      match d with
      | JObj fields => dict_get key fields ≫= get_path rest
      | _ => None
      end
  end.

(** The loop of [ConfigLoader.load] and of [run_generate] over the items of
    an overrides dict. *)
Fixpoint apply_overrides (cfg : JSON) (items : list (string * JSON))
  : res JSON :=
  match items with
  | [] => Ok cfg
  | (dot_key, value) :: rest =>
      cfg' ← _set_nested cfg dot_key value; apply_overrides cfg' rest
  end.

(** A decoded JSON document: no object holds a key twice. *)
Fixpoint wf_json (v : JSON) : bool :=
  match v with
  | JArr items => forallb wf_json items
  | JObj fields =>
      bool_decide (NoDup (fst <$> fields))
      && forallb (fun kv => wf_json (snd kv)) fields
  | _ => true
  end.

(** ** providers.py: the search providers *)

(** A GET request of a provider and what the provider makes of it:
    [http_json] stands for [session.get], [raise_for_status] and
    [resp.json], and raises when one of them does. *)
Record Request : Type := {
  req_url : string;
  req_params : list (string * JSON);
  req_headers : list (string * string)
}.

(** [SearchResult] as a provider builds it: the three texts are what the
    response holds under their keys, of whatever type. *)
Record ProviderResult : Type := {
  res_title : JSON;
  res_url : JSON;
  res_snippet : JSON;
  res_position : Z
}.

(** The provider objects, with what their constructors read from the
    environment. *)
Inductive SearchProvider : Type :=
  | GoogleSearchProvider (api_key cx : string)
  | BingSearchProvider (api_key : string)
  | SerpAPIProvider (api_key : string)
  | SearxProvider (base_url : string).

Definition provider_name (p : SearchProvider) : string :=
  match p with
  | GoogleSearchProvider _ _ => "google"
  | BingSearchProvider _ => "bing"
  | SerpAPIProvider _ => "serpapi"
  | SearxProvider _ => "searx"
  end.

(** [enumerate(l)] *)
Definition enumerate {A : Type} (l : list A) : list (Z * A) :=
  imap (fun i x => (Z.of_nat i, x)) l.

(** The comprehension that builds the results, for the keys of the title,
    the URL and the snippet of a provider. *)
Fixpoint results_of (tk uk sk : string) (items : list (Z * JSON))
  : res (list ProviderResult) :=
  match items with
  | [] => Ok []
  | (i, item) :: rest =>
      t ← py_get item tk (JStr "");
      u ← py_get item uk (JStr "");
      s ← py_get item sk (JStr "");
      rs ← results_of tk uk sk rest;
      Ok ({| res_title := t; res_url := u; res_snippet := s;
             res_position := i |} :: rs)
  end.

(** [v[:n]] for an integer [n]; a dict cannot be sliced ([TypeError] up to
    Python 3.11). *)
Definition py_slice_value (v : JSON) (n : Z) : res JSON :=
  match v with
  | JArr items => items' ← py_slice_to (JInt n) items; Ok (JArr items')
  | JStr s =>
      chars ← py_slice_to (JInt n) (list_ascii_of_string s);
      Ok (JStr (string_of_list_ascii chars))
  | _ => Raise TypeError
  end.

Section Providers.

Variable http_json : Request -> res JSON.

Definition provider_search (p : SearchProvider) (query : string)
  (max_results : Z) : res (list ProviderResult) :=
  match p with
  | GoogleSearchProvider api_key cx =>
      data ← http_json
        {| req_url := "https://www.googleapis.com/customsearch/v1";
           req_params := [("key", JStr api_key); ("cx", JStr cx);
                          ("q", JStr query);
                          ("num", JInt (Z.min max_results 10))];
           req_headers := [] |};
      items ← py_get data "items" (JArr []);
      items ← py_iter items;
      results_of "title" "link" "snippet" (enumerate items)
  | BingSearchProvider api_key =>
      data ← http_json
        {| req_url := "https://api.bing.microsoft.com/v7.0/search";
           req_params := [("q", JStr query);
                          ("count", JInt (Z.min max_results 50));
                          ("mkt", JStr "en-US")];
           req_headers := [("Ocp-Apim-Subscription-Key", api_key)] |};
      pages ← py_get data "webPages" (JObj []);
      items ← py_get pages "value" (JArr []);
      items ← py_iter items;
      results_of "name" "url" "snippet" (enumerate items)
  | SerpAPIProvider api_key =>
      data ← http_json
        {| req_url := "https://serpapi.com/search";
           req_params := [("q", JStr query); ("api_key", JStr api_key);
                          ("engine", JStr "google");
                          ("num", JInt (Z.min max_results 10))];
           req_headers := [] |};
      items ← py_get data "organic_results" (JArr []);
      items ← py_iter items;
      results_of "title" "link" "snippet" (enumerate items)
  | SearxProvider base_url =>
      data ← http_json
        {| req_url := base_url +:+ "/search";
           req_params := [("q", JStr query); ("format", JStr "json");
                          ("categories", JStr "general")];
           req_headers := [] |};
      items ← py_get data "results" (JArr []);
      items ← py_slice_value items max_results;
      items ← py_iter items;
      results_of "title" "url" "content" (enumerate items)
  end.

End Providers.

(** [os.environ[key]] *)
Definition environ (env : gmap string string) (key : string) : checked string :=
  match env !! key with
  | Some v => Done v
  | None => Failed (Builtin (KeyError key))
  end.

(** [_SEARCH_PROVIDERS]: the names and the constructors. *)
Definition _SEARCH_PROVIDERS
  : list (string * (gmap string string -> checked SearchProvider)) :=
  [ ("google", fun env =>
       api_key ← environ env "GOOGLE_SEARCH_API_KEY";
       cx ← environ env "GOOGLE_SEARCH_CX";
       Done (GoogleSearchProvider api_key cx));
    ("bing", fun env =>
       api_key ← environ env "BING_SEARCH_API_KEY";
       Done (BingSearchProvider api_key));
    ("serpapi", fun env =>
       api_key ← environ env "SERPAPI_KEY";
       Done (SerpAPIProvider api_key));
    ("searx", fun env =>
       Done (SearxProvider
               (default "http://localhost:8080" (env !! "SEARX_BASE_URL")))) ].

Fixpoint assoc_get {A : Type} (k : string) (l : list (string * A)) : option A :=
  match l with
  | [] => None
  | (k', v) :: rest => if String.eqb k k' then Some v else assoc_get k rest
  end.

Definition get_search_provider (env : gmap string string) (name : string)
  : checked SearchProvider :=
  match assoc_get (lower name) _SEARCH_PROVIDERS with
  | Some cls => cls env
  | None =>
      Failed (ValueError
        ("Unknown search provider '" +:+ name +:+ "'. Available: "
         +:+ "['google', 'bing', 'serpapi', 'searx']"))
  end.

(** ** loader.py and main.py: the configuration of a run *)

(** [overrides_doc.get("overrides", {}).items()] *)
Definition topic_overrides (doc : JSON) : res (list (string * JSON)) :=
  o ← py_get doc "overrides" (JObj []);
  match o with
  | JObj items => Ok items
  | _ => Raise AttributeError
  end.

(** The dict that [ConfigLoader.load] hands to [_build]: the decoded base
    configuration [base] with the overrides of the topic file, when there
    is one; [topic_doc] is the decoded topic file. *)
Definition load_raw (base : JSON) (topic_doc : option JSON) : res JSON :=
  match topic_doc with
  | Some doc => items ← topic_overrides doc; apply_overrides base items
  | None => Ok base
  end.

Section Configuration.

(** [ConfigLoader._build], which resolves the providers from the
    environment and may raise. *)
Variable _build : JSON -> checked RuntimeConfig.

Definition load (base : JSON) (topic_doc : option JSON)
  : checked RuntimeConfig :=
  cfg ← of_res (load_raw base topic_doc); _build cfg.

(** The configuration with which [run_generate] runs the pipeline: the one
    of [load], unless [--set] arguments give overrides; then the base
    configuration is read again and built with these. *)
Definition run_generate_config (base : JSON) (topic_doc : option JSON)
  (set_args : list string) : checked RuntimeConfig :=
  cfg ← load base topic_doc;
  set_overrides ← _apply_set_overrides set_args;
  match set_overrides with
  | Some (kv :: items) =>
      raw ← of_res (apply_overrides base (kv :: items)); _build raw
  | _ => Done cfg
  end.

End Configuration.

(** A raw section that the loop of [_parse] accepts: a dict with a
    [section_id] whose [narration_text], when it has one, is a [str]. *)
Definition raw_section_ok (raw : JSON) : Prop :=
  exists fields,
    raw = JObj fields
    /\ is_Some (dict_get "section_id" fields)
    /\ (dict_get "narration_text" fields = None
        \/ exists n, dict_get "narration_text" fields = Some (JStr n)).

(** A configuration whose LLM answers [answer] to every prompt and whose
    search provider is down, and a server that has no page. *)
Definition offline_cfg (answer : string) : RuntimeConfig :=
  {| llm_complete := fun _ _ _ => Ok answer;
     search := fun _ _ => Raise (ExternalError "connection refused");
     search_provider_name := "searx";
     target_minutes := 5;
     words_per_minute := 150;
     persona := JObj [];
     _raw :=
       JObj [("search",
              JObj [("max_results", JInt 5); ("top_pages_to_fetch", JInt 2)])];
     cache_dir := "./cache" |}.

Definition offline_http (u : string) : res (Z * string) := Ok (404%Z, "").

(** A base configuration, a topic file that overrides one of its values,
    and a [_build] that keeps the dict as the raw configuration. *)
Definition demo_base : JSON :=
  JObj [("search", JObj [("max_results", JInt 5)]);
        ("script", JObj [("target_minutes", JInt 5)])].

Definition demo_topic_doc : JSON :=
  JObj [("topic", JStr "rust");
        ("overrides", JObj [("script.target_minutes", JInt 8)])].

Definition demo_build (raw : JSON) : checked RuntimeConfig :=
  Done {| llm_complete := fun _ _ _ => Ok "";
          search := fun _ _ => Ok [];
          search_provider_name := "searx";
          target_minutes := 5;
          words_per_minute := 150;
          persona := JObj [];
          _raw := raw;
          cache_dir := "./cache" |}.

(** A Searx instance that answers every request with the same three
    results. *)
Definition demo_http_json (req : Request) : res JSON :=
  Ok (JObj [("query", JStr "rust");
            ("results",
             JArr [JObj [("title", JStr "First"); ("url", JStr "https://a.example/1");
                         ("content", JStr "first snippet")];
                   JObj [("title", JStr "Second"); ("url", JStr "https://a.example/2")];
                   JObj [("title", JStr "Third"); ("url", JStr "https://a.example/3");
                         ("content", JStr "third snippet")]])]).

(** The demo configuration with a negative [search.top_pages_to_fetch]; its
    LLM answers with a text that is not JSON. *)
Definition negative_top_cfg : RuntimeConfig :=
  {| llm_complete := fun _ _ _ => Ok "not json";
     search := fun _ _ => Ok demo_results;
     search_provider_name := "searx";
     target_minutes := 5;
     words_per_minute := 150;
     persona := JObj [];
     _raw :=
       JObj [("search",
              JObj [("max_results", JInt 5);
                    ("top_pages_to_fetch", JInt (-1))])];
     cache_dir := "./cache" |}.

(** The demo configuration with an LLM that answers the prompt for the
    queries (the one of 512 tokens) with a text that is not JSON, and the
    prompt for the facts with a JSON list. *)
Definition list_facts_cfg : RuntimeConfig :=
  {| llm_complete := fun _ _ max_tokens =>
       if (max_tokens =? 512)%Z then Ok "not json" else Ok "[1, 2]";
     search := fun _ _ => Ok demo_results;
     search_provider_name := "searx";
     target_minutes := 5;
     words_per_minute := 150;
     persona := JObj [];
     _raw :=
       JObj [("search",
              JObj [("max_results", JInt 5); ("top_pages_to_fetch", JInt 2)])];
     cache_dir := "./cache" |}.

(** * Properties *)

(** ** Inversion of monadic code *)

Lemma bind_Ok {A B : Type} (m : res A) (k : A -> res B) (b : B) :
  (m ≫= k) = Ok b -> exists a, m = Ok a /\ k a = Ok b.
Proof. destruct m as [a|e]; simpl; [eauto | discriminate]. Qed.

Ltac res_inv H :=
  repeat match type of H with
  | (_ ≫= _) = Ok _ =>
      let a := fresh "a" in
      let Ha := fresh "Ha" in
      apply bind_Ok in H as (a & Ha & H)
  | (let '(_, _) := ?p in _) = Ok _ => destruct p eqn:?
  end.

(** ** The script timeline *)

Lemma duration_of_Ok clean wpm d :
  duration_of clean wpm = Ok d ->
  wpm <> 0%Z
  /\ d = (inject_Z (Z.of_nat (length (py_split clean))) / inject_Z wpm * 60)%Q.
Proof.
  unfold duration_of. destruct (Z.eqb_spec wpm 0); [discriminate|].
  intros [= <-]. done.
Qed.

Lemma duration_nonneg clean wpm d :
  (0 < wpm)%Z -> duration_of clean wpm = Ok d -> (0 <= d)%Q.
Proof.
  intros Hw [_ ->]%duration_of_Ok.
  apply Qmult_le_0_compat; [|discriminate].
  apply Qle_shift_div_l.
  - change 0%Q with (inject_Z 0). rewrite <- Zlt_Qlt. done.
  - rewrite Qmult_0_l. change 0%Q with (inject_Z 0). rewrite <- Zle_Qle. lia.
Qed.

Lemma parse_section_ok wpm secs t raw st' :
  parse_section wpm (secs, t) raw = Ok st' ->
  exists sec,
    st' = (secs ++ [sec], (t + estimated_duration_seconds sec)%Q)
    /\ start_time sec = t
    /\ built_from wpm raw sec.
Proof.
  unfold parse_section. intros H. res_inv H.
  destruct a; simpl in Ha1; try discriminate.
  injection Ha1 as ->. injection H as <-.
  eexists (Build_ScriptSection _ _ _ _ _ _ _).
  split; [reflexivity|]. split; [reflexivity|].
  apply duration_of_Ok in Ha2 as [Hw ->].
  exists a1, a0. simpl. unfold _extract_markers in Heqp.
  injection Heqp as <- <-. done.
Qed.

Lemma timeline_app t secs t' sec :
  timeline t secs t' -> start_time sec = t' ->
  timeline t (secs ++ [sec]) (t' + estimated_duration_seconds sec)%Q.
Proof.
  induction 1 as [t|t s0 secs t' Hs _ IH]; intros Hsec; simpl.
  - constructor; [done|constructor].
  - constructor; [done|auto].
Qed.

Lemma parse_loop_ok wpm raws : forall secs t t0 secs' t',
  timeline t0 secs t ->
  parse_loop wpm (secs, t) raws = Ok (secs', t') ->
  exists news,
    secs' = secs ++ news /\ timeline t0 secs' t'
    /\ Forall2 (built_from wpm) raws news.
Proof.
  induction raws as [|raw raws IH]; intros secs t t0 secs' t' Ht H; simpl in H.
  - injection H as <- <-. exists []. rewrite app_nil_r. auto.
  - apply bind_Ok in H as ([secs1 t1] & H1 & H).
    apply parse_section_ok in H1 as (sec & [= -> ->] & Hstart & Hb).
    apply IH with (t0 := t0) in H as (news & -> & Htl & Hall).
    + exists (sec :: news). rewrite <- app_assoc in Htl |- *. simpl in Htl |- *.
      split; [reflexivity|]. split; [exact Htl|by constructor].
    + by apply timeline_app.
Qed.

Lemma parse_Ok wpm tpc data script :
  _parse wpm tpc data = Ok script ->
  exists sj raws,
    py_get data "sections" (JArr []) = Ok sj /\ py_iter sj = Ok raws
    /\ Forall2 (built_from wpm) raws (sections script)
    /\ timeline 0 (sections script) (total_estimated_seconds script).
Proof.
  unfold _parse. intros H. res_inv H. injection H as <-. simpl.
  match goal with
  | Hl : parse_loop _ _ _ = Ok _ |- _ =>
      apply parse_loop_ok with (t0 := 0%Q) in Hl as (news & -> & Htl & Hall);
        [|constructor]
  end.
  eauto 10.
Qed.

Lemma timeline_prefix_sums t secs t' :
  timeline t secs t' ->
  t' = fold_left Qplus (estimated_duration_seconds <$> secs) t
  /\ forall i sec, secs !! i = Some sec ->
       start_time sec
       = fold_left Qplus (take i (estimated_duration_seconds <$> secs)) t.
Proof.
  induction 1 as [t|t s0 secs t' Hs _ [IH1 IH2]]; simpl.
  - split; [done|]. intros i sec Hi. by rewrite lookup_nil in Hi.
  - split; [done|]. intros [|i] sec Hi; simpl in *.
    + by injection Hi as <-.
    + by apply IH2.
Qed.

Lemma timeline_adjacent t secs t' :
  timeline t secs t' ->
  (forall i a b, secs !! i = Some a -> secs !! S i = Some b ->
     start_time b = (start_time a + estimated_duration_seconds a)%Q)
  /\ (forall a, last secs = Some a ->
       t' = (start_time a + estimated_duration_seconds a)%Q).
Proof.
  induction 1 as [t|t s0 secs t' Hs Htl [IH1 IH2]].
  - split; [intros i a b Hi; by rewrite lookup_nil in Hi | discriminate].
  - split.
    + intros [|i] a b Ha Hb; simpl in *.
      * injection Ha as <-. inversion Htl; subst; simpl in Hb; [done|].
        injection Hb as <-. congruence.
      * eauto.
    + intros a Ha. destruct secs as [|s1 secs].
      * simpl in Ha. injection Ha as <-. inversion Htl; subst. done.
      * apply IH2. by rewrite last_cons_cons in Ha.
Qed.

Lemma timeline_lower_bound t secs t' :
  timeline t secs t' ->
  Forall (fun s => 0 <= estimated_duration_seconds s)%Q secs ->
  (t <= t')%Q /\ forall i a, secs !! i = Some a -> (t <= start_time a)%Q.
Proof.
  induction 1 as [t|t s0 secs t' Hs _ IH]; intros Hnn.
  - split; [apply Qle_refl|]. intros i a Hi. by rewrite lookup_nil in Hi.
  - apply Forall_cons in Hnn as [H0 Hnn]. destruct (IH Hnn) as [IH1 IH2].
    assert (t <= t + estimated_duration_seconds s0)%Q as Hstep.
    { rewrite <- (Qplus_0_r t) at 1. by apply Qplus_le_r. }
    split; [by eapply Qle_trans|].
    intros [|i] a Hi; simpl in Hi.
    + injection Hi as <-. rewrite Hs. apply Qle_refl.
    + eapply Qle_trans; [exact Hstep|eauto].
Qed.

Lemma timeline_monotone t secs t' :
  timeline t secs t' ->
  Forall (fun s => 0 <= estimated_duration_seconds s)%Q secs ->
  forall i j a b, (i <= j)%nat -> secs !! i = Some a -> secs !! j = Some b ->
    (start_time a <= start_time b)%Q.
Proof.
  induction 1 as [t|t s0 secs t' Hs Htl IH]; intros Hnn i j a b Hij Ha Hb.
  - by rewrite lookup_nil in Ha.
  - pose proof Hnn as [H0 Hnn']%Forall_cons.
    destruct i as [|i]; simpl in Ha.
    + injection Ha as <-. rewrite Hs.
      eapply (timeline_lower_bound t (s0 :: secs) t'); [|done|exact Hb].
      by constructor.
    + destruct j as [|j]; [lia|]. simpl in Hb.
      eapply IH; [done| |exact Ha|exact Hb]. lia.
Qed.

Lemma built_durations_nonneg wpm raws secs :
  (0 < wpm)%Z -> Forall2 (built_from wpm) raws secs ->
  Forall (fun s => 0 <= estimated_duration_seconds s)%Q secs.
Proof.
  intros Hw. induction 1 as [|raw sec raws secs Hb _ IH]; constructor; [|done].
  destruct Hb as (n & sid & _ & _ & _ & _ & Hne & ->).
  eapply duration_nonneg; [exact Hw|]. unfold duration_of.
  destruct (Z.eqb_spec wpm 0); [lia|reflexivity].
Qed.

Lemma duration_nonpos clean wpm d :
  (wpm < 0)%Z -> duration_of clean wpm = Ok d -> (d <= 0)%Q.
Proof.
  intros Hw [_ ->]%duration_of_Ok.
  set (n := Z.of_nat (length (py_split clean))).
  assert (0 <= n)%Z as Hn by (unfold n; lia).
  destruct wpm as [|p|p]; try lia.
  unfold Qle, Qdiv, Qmult, Qinv. simpl. lia.
Qed.

Lemma timeline_upper_bound t secs t' :
  timeline t secs t' ->
  Forall (fun s => estimated_duration_seconds s <= 0)%Q secs ->
  (t' <= t)%Q /\ forall i a, secs !! i = Some a -> (start_time a <= t)%Q.
Proof.
  induction 1 as [t|t s0 secs t' Hs _ IH]; intros Hnp.
  - split; [apply Qle_refl|]. intros i a Hi. by rewrite lookup_nil in Hi.
  - apply Forall_cons in Hnp as [H0 Hnp]. destruct (IH Hnp) as [IH1 IH2].
    assert (t + estimated_duration_seconds s0 <= t)%Q as Hstep.
    { rewrite <- (Qplus_0_r t) at 2. by apply Qplus_le_r. }
    split; [by eapply Qle_trans|].
    intros [|i] a Hi; simpl in Hi.
    + injection Hi as <-. rewrite Hs. apply Qle_refl.
    + eapply Qle_trans; [eauto|exact Hstep].
Qed.

Lemma timeline_antitone t secs t' :
  timeline t secs t' ->
  Forall (fun s => estimated_duration_seconds s <= 0)%Q secs ->
  forall i j a b, (i <= j)%nat -> secs !! i = Some a -> secs !! j = Some b ->
    (start_time b <= start_time a)%Q.
Proof.
  induction 1 as [t|t s0 secs t' Hs Htl IH]; intros Hnp i j a b Hij Ha Hb.
  - by rewrite lookup_nil in Ha.
  - pose proof Hnp as [H0 Hnp']%Forall_cons.
    destruct i as [|i]; simpl in Ha.
    + injection Ha as <-. rewrite Hs.
      eapply (timeline_upper_bound t (s0 :: secs) t'); [|done|exact Hb].
      by constructor.
    + destruct j as [|j]; [lia|]. simpl in Hb.
      eapply IH; [done| |exact Ha|exact Hb]. lia.
Qed.

Lemma built_durations_nonpos wpm raws secs :
  (wpm < 0)%Z -> Forall2 (built_from wpm) raws secs ->
  Forall (fun s => estimated_duration_seconds s <= 0)%Q secs.
Proof.
  intros Hw. induction 1 as [|raw sec raws secs Hb _ IH]; constructor; [|done].
  destruct Hb as (n & sid & _ & _ & _ & _ & Hne & ->).
  eapply duration_nonpos; [exact Hw|]. unfold duration_of.
  destruct (Z.eqb_spec wpm 0); [lia|reflexivity].
Qed.

(** C2, as amended: in every script built by [_parse], the start time of
    section [i] is the sum of the estimated durations of the sections
    before it (so the first one starts at 0), each section starts where the
    previous one ends (no gap, no overlap), and the total is the sum of all
    durations. The start times never decrease when the words-per-minute
    rate is positive; the rate is not validated, and with a negative one
    the durations are negative or zero and the start times never
    increase. *)
Theorem script_timeline wpm tpc data script :
  _parse wpm tpc data = Ok script ->
  let secs := sections script in
  let durs := estimated_duration_seconds <$> secs in
  (forall i sec, secs !! i = Some sec ->
     start_time sec = sum_durations (take i durs))
  /\ (forall i a b, secs !! i = Some a -> secs !! S i = Some b ->
       start_time b = (start_time a + estimated_duration_seconds a)%Q)
  /\ total_estimated_seconds script = sum_durations durs
  /\ ((0 < wpm)%Z ->
      forall i j a b, (i <= j)%nat -> secs !! i = Some a -> secs !! j = Some b ->
        (start_time a <= start_time b)%Q)
  /\ ((wpm < 0)%Z ->
      forall i j a b, (i <= j)%nat -> secs !! i = Some a -> secs !! j = Some b ->
        (start_time b <= start_time a)%Q).
Proof.
  intros (sj & raws & _ & _ & Hb & Htl)%parse_Ok secs durs.
  destruct (timeline_prefix_sums _ _ _ Htl) as [Htot Hpre].
  destruct (timeline_adjacent _ _ _ Htl) as [Hadj _].
  split; [exact Hpre|]. split; [exact Hadj|]. split; [exact Htot|]. split.
  - intros Hw. eapply timeline_monotone; [exact Htl|].
    by eapply built_durations_nonneg.
  - intros Hw. eapply timeline_antitone; [exact Htl|].
    by eapply built_durations_nonpos.
Qed.

Lemma script_timeline_witness :
  exists script,
    _parse 150 "demo" demo_script_json = Ok script
    /\ total_estimated_seconds script
       = sum_durations (estimated_duration_seconds <$> sections script)
    /\ forall i j a b, (i <= j)%nat ->
         sections script !! i = Some a -> sections script !! j = Some b ->
         (start_time a <= start_time b)%Q.
Proof.
  eexists. split; [vm_compute; reflexivity|].
  match goal with
  | |- context [sections ?s] =>
      destruct (script_timeline 150 "demo" demo_script_json s)
        as (_ & _ & Htot & Hmono & _); [vm_compute; reflexivity|]
  end.
  split; [exact Htot|apply Hmono; lia].
Defined.

(** C2, as stated, fails: the words-per-minute rate is read from the
    configuration as it is, and with the rate -150 the first section of the
    demo script, of four words, lasts -1.6 seconds, so the second section
    starts before the first. *)
Lemma negative_rate_start_times_decrease :
  exists script a b,
    _parse (-150) "demo" demo_script_json = Ok script
    /\ sections script !! 0%nat = Some a
    /\ sections script !! 1%nat = Some b
    /\ start_time a = 0%Q
    /\ (start_time b == -8 # 5)%Q
    /\ (start_time b < start_time a)%Q.
Proof.
  eexists _, _, _. split; [vm_compute; reflexivity|].
  split; [reflexivity|]. split; [reflexivity|].
  split; [reflexivity|]. split; [by vm_compute|by vm_compute].
Qed.

(** ** Durations *)

Lemma zero_words_zero_duration wpm :
  (inject_Z (Z.of_nat 0) / inject_Z wpm * 60 == 0)%Q.
Proof. simpl. unfold Qdiv. by rewrite !Qmult_0_l. Qed.

(** C5: every section of a script built by [_parse] comes from one raw
    section; its text is the narration with the cues removed and the
    whitespace collapsed, and its estimated duration is the number of words
    of that text divided by the words-per-minute rate, times 60. A section
    without words has duration 0 and the section after it (or the total,
    when it is the last one) starts where it starts. Four words at 150
    words per minute give 1.6 seconds. *)
Theorem section_duration wpm tpc data script :
  _parse wpm tpc data = Ok script ->
  (exists sj raws,
     py_get data "sections" (JArr []) = Ok sj /\ py_iter sj = Ok raws
     /\ Forall2 (built_from wpm) raws (sections script))
  /\ (forall i sec, sections script !! i = Some sec ->
       estimated_duration_seconds sec
       = (inject_Z (Z.of_nat (length (py_split (narration_text sec))))
          / inject_Z wpm * 60)%Q)
  /\ (forall i sec, sections script !! i = Some sec ->
       py_split (narration_text sec) = [] ->
       (estimated_duration_seconds sec == 0)%Q
       /\ (forall b, sections script !! S i = Some b ->
             (start_time b == start_time sec)%Q)
       /\ (S i = length (sections script) ->
             (total_estimated_seconds script == start_time sec)%Q))
  /\ (forall i sec, sections script !! i = Some sec -> wpm = 150%Z ->
       length (py_split (narration_text sec)) = 4%nat ->
       (estimated_duration_seconds sec == 8 # 5)%Q).
Proof.
  intros (sj & raws & Hsj & Hraws & Hb & Htl)%parse_Ok.
  assert (forall i sec, sections script !! i = Some sec ->
            estimated_duration_seconds sec
            = (inject_Z (Z.of_nat (length (py_split (narration_text sec))))
               / inject_Z wpm * 60)%Q) as Hdur.
  { intros i sec Hi.
    destruct (Forall2_lookup_r _ _ _ _ _ Hb Hi) as (raw & _ & Hraw).
    by destruct Hraw as (n & sid & _ & _ & _ & _ & _ & ->). }
  split; [eauto|]. split; [exact Hdur|].
  destruct (timeline_adjacent _ _ _ Htl) as [Hadj Hlast].
  split.
  - intros i sec Hi Hwords.
    assert (estimated_duration_seconds sec == 0)%Q as Hz.
    { rewrite (Hdur i sec Hi), Hwords. apply zero_words_zero_duration. }
    split; [exact Hz|]. split.
    + intros b Hb'. rewrite (Hadj i sec b Hi Hb'), Hz. apply Qplus_0_r.
    + intros Hlen. rewrite (Hlast sec), Hz; [apply Qplus_0_r|].
      rewrite last_lookup, <- Hlen. exact Hi.
  - intros i sec Hi -> Hfour. rewrite (Hdur i sec Hi), Hfour. reflexivity.
Qed.

Lemma section_duration_witness :
  exists script,
    _parse 150 "demo" demo_script_json = Ok script
    /\ (exists a b c, sections script = [a; b; c]
        /\ narration_text a = "Intro text more text"
        /\ (estimated_duration_seconds a == 8 # 5)%Q
        /\ narration_text b = ""
        /\ (estimated_duration_seconds b == 0)%Q
        /\ (start_time c == start_time b)%Q).
Proof.
  eexists. split; [vm_compute; reflexivity|].
  match goal with
  | |- context [sections ?s] =>
      destruct (section_duration 150 "demo" demo_script_json s)
        as (_ & _ & Hzero & Hfour); [vm_compute; reflexivity|]
  end.
  do 3 eexists. split; [reflexivity|]. split; [reflexivity|].
  split; [apply (Hfour 0%nat); reflexivity|]. split; [reflexivity|].
  destruct (Hzero 1%nat _ eq_refl eq_refl) as (Hz & Hnext & _).
  split; [exact Hz|apply Hnext; reflexivity].
Defined.

(** ** Cue extraction *)

Lemma finditer_from_offsets m s : forall skip pos,
  Forall (fun p => pos <= fst p)%nat (finditer_from m skip pos s)
  /\ StronglySorted lt (fst <$> finditer_from m skip pos s).
Proof.
  induction s as [|c s IH]; intros skip pos; simpl.
  - split; constructor.
  - assert (forall k,
      Forall (fun p => pos <= fst p)%nat (finditer_from m k (S pos) s)) as Hge.
    { intros k. destruct (IH k (S pos)) as [H _].
      eapply Forall_impl; [exact H|]. simpl. lia. }
    destruct skip as [|k]; [|split; [apply Hge|apply IH]].
    destruct (m (String c s)) as [[g len]|]; [|split; [apply Hge|apply IH]].
    destruct (IH (Nat.pred len) (S pos)) as [H1 H2].
    split; [constructor; [simpl; lia|apply Hge]|].
    simpl. constructor; [exact H2|].
    apply Forall_fmap. eapply Forall_impl; [exact H1|]. simpl. lia.
Qed.

Lemma merge_by_offset_nil_r {A : Type} (a : list (nat * A)) :
  merge_by_offset a [] = a.
Proof. by destruct a. Qed.

Lemma merge_by_offset_cons {A : Type} (x y : nat * A) a b :
  merge_by_offset (x :: a) (y :: b)
  = if Nat.leb (fst x) (fst y) then x :: merge_by_offset a (y :: b)
    else y :: merge_by_offset (x :: a) b.
Proof. reflexivity. Qed.

Lemma merge_by_offset_perm {A : Type} (a b : list (nat * A)) :
  merge_by_offset a b ≡ₚ a ++ b.
Proof.
  revert b. induction a as [|x a IHa]; intros b; [by destruct b|].
  induction b as [|y b IHb]; [by rewrite app_nil_r|].
  rewrite merge_by_offset_cons. destruct (Nat.leb (fst x) (fst y)).
  - simpl. constructor. apply IHa.
  - rewrite IHb. by rewrite <- Permutation_middle.
Qed.

Lemma merge_by_offset_filter_l {A : Type} (P : A -> Prop)
  `{!forall x, Decision (P x)} (a b : list (nat * A)) :
  Forall (fun x => P (snd x)) a -> Forall (fun x => ~ P (snd x)) b ->
  filter P (snd <$> merge_by_offset a b) = snd <$> a.
Proof.
  revert b. induction a as [|x a IHa]; intros b Ha Hb.
  - replace (merge_by_offset [] b) with b by (by destruct b).
    induction Hb as [|y b Hy _ IH]; [done|].
    rewrite fmap_cons. by rewrite filter_cons_False.
  - apply Forall_cons in Ha as [Hx Ha].
    induction Hb as [|y b Hy Hb IH].
    + rewrite merge_by_offset_nil_r, !fmap_cons.
      rewrite filter_cons_True by done. f_equal.
      pose proof (IHa [] Ha ltac:(constructor)) as E.
      by rewrite merge_by_offset_nil_r in E.
    + rewrite merge_by_offset_cons.
      destruct (Nat.leb (fst x) (fst y)); rewrite fmap_cons.
      * rewrite filter_cons_True by done. rewrite fmap_cons. f_equal.
        apply IHa; [done|by constructor].
      * rewrite filter_cons_False by done. exact IH.
Qed.

Lemma merge_by_offset_filter_r {A : Type} (P : A -> Prop)
  `{!forall x, Decision (P x)} (a b : list (nat * A)) :
  Forall (fun x => ~ P (snd x)) a -> Forall (fun x => P (snd x)) b ->
  filter P (snd <$> merge_by_offset a b) = snd <$> b.
Proof.
  revert b. induction a as [|x a IHa]; intros b Ha Hb.
  - replace (merge_by_offset [] b) with b by (by destruct b).
    induction Hb as [|y b Hy _ IH]; [done|].
    rewrite !fmap_cons. rewrite filter_cons_True by done. by f_equal.
  - apply Forall_cons in Ha as [Hx Ha].
    induction Hb as [|y b Hy Hb IH].
    + rewrite merge_by_offset_nil_r, fmap_cons.
      rewrite filter_cons_False by done.
      pose proof (IHa [] Ha ltac:(constructor)) as E.
      by rewrite merge_by_offset_nil_r in E.
    + rewrite merge_by_offset_cons.
      destruct (Nat.leb (fst x) (fst y)); rewrite fmap_cons.
      * rewrite filter_cons_False by done.
        rewrite IHa; [done|done|by constructor].
      * rewrite filter_cons_True by done. rewrite fmap_cons. f_equal. exact IH.
Qed.

Lemma split_ws_collapse s :
  (forall cur, split_ws cur (collapse_from false s) = split_ws cur s)
  /\ split_ws "" (collapse_from true s) = split_ws "" s.
Proof.
  induction s as [|c s [IHa IHb]]; [done|].
  simpl. destruct (is_space c) eqn:Hc.
  - split; [|exact IHb]. intros cur. simpl. by rewrite IHb.
  - split; [intros cur|]; simpl; rewrite Hc; apply IHa.
Qed.

Lemma split_ws_lstrip s : split_ws "" (lstrip s) = split_ws "" s.
Proof.
  induction s as [|c s IH]; [done|].
  simpl. destruct (is_space c) eqn:Hc; [exact IH|]. simpl. by rewrite Hc.
Qed.

Lemma split_ws_rstrip s : forall cur, split_ws cur (rstrip s) = split_ws cur s.
Proof.
  induction s as [|c s IH]; intros cur; [done|].
  simpl. destruct (rstrip s) as [|c' r] eqn:Hr.
  - destruct (is_space c) eqn:Hc.
    + simpl. rewrite <- (IH ""). simpl. by destruct cur.
    + simpl. rewrite Hc. by rewrite <- IH.
  - simpl. destruct (is_space c); [|by rewrite <- IH].
    rewrite <- IH. done.
Qed.

Lemma py_split_normalise s : py_split (strip (collapse_ws s)) = py_split s.
Proof.
  unfold py_split, strip, collapse_ws.
  rewrite split_ws_rstrip, split_ws_lstrip. apply split_ws_collapse.
Qed.

(** C4, as amended: the markers of a section are grouped by kind, the
    screenshot markers first and the visual markers after them; within each
    kind they are in the order of appearance of their cues (increasing
    offsets), so the list is the list in order of appearance sorted by kind,
    and it is that list when the narration has cues of one kind only. No
    position is kept with a marker. The cleaned text has the words of the
    narration without its cue spans. *)
Theorem markers_grouped_by_kind narration sid :
  let markers := fst (_extract_markers narration sid) in
  let clean := snd (_extract_markers narration sid) in
  let shots := finditer match_screenshot narration in
  let visuals := finditer match_visual narration in
  let in_order := markers_by_appearance narration sid in
  markers = (screenshot_marker sid <$> (snd <$> shots))
            ++ (visual_marker sid <$> (snd <$> visuals))
  /\ StronglySorted lt (fst <$> shots)
  /\ StronglySorted lt (fst <$> visuals)
  /\ markers = filter is_screenshot in_order ++ filter is_visual in_order
  /\ markers ≡ₚ in_order
  /\ (shots = [] \/ visuals = [] -> markers = in_order)
  /\ py_split clean = py_split (re_sub match_cue "" narration).
Proof.
  intros markers clean shots visuals in_order.
  set (a := prod_map id (screenshot_marker sid) <$> shots).
  set (b := prod_map id (visual_marker sid) <$> visuals).
  assert (markers = (snd <$> a) ++ (snd <$> b)) as Hm.
  { subst markers a b shots visuals. unfold _extract_markers, findall. simpl.
    rewrite <- !list_fmap_compose. done. }
  assert (Forall (fun x => is_screenshot (snd x)) a) as Ha.
  { subst a. apply Forall_fmap, Forall_true. by intros []. }
  assert (Forall (fun x => is_visual (snd x)) b) as Hb.
  { subst b. apply Forall_fmap, Forall_true. by intros []. }
  assert (Forall (fun x => ~ is_visual (snd x)) a) as Ha'.
  { eapply Forall_impl; [exact Ha|]. unfold is_screenshot, is_visual. congruence. }
  assert (Forall (fun x => ~ is_screenshot (snd x)) b) as Hb'.
  { eapply Forall_impl; [exact Hb|]. unfold is_screenshot, is_visual. congruence. }
  split.
  { subst markers shots visuals. unfold _extract_markers, findall. done. }
  split; [apply finditer_from_offsets|]. split; [apply finditer_from_offsets|].
  split.
  { subst in_order. unfold markers_by_appearance. fold shots visuals a b.
    rewrite (merge_by_offset_filter_l is_screenshot a b Ha Hb').
    rewrite (merge_by_offset_filter_r is_visual a b Ha' Hb). exact Hm. }
  split.
  { subst in_order. unfold markers_by_appearance. fold shots visuals a b.
    rewrite Hm, merge_by_offset_perm. by rewrite fmap_app. }
  split.
  { subst in_order. unfold markers_by_appearance. fold shots visuals a b.
    rewrite Hm. intros [H|H]; subst a b; rewrite H; simpl.
    - by destruct (prod_map id (visual_marker sid) <$> visuals).
    - by rewrite merge_by_offset_nil_r, app_nil_r. }
  subst clean. unfold _extract_markers. simpl. apply py_split_normalise.
Qed.

(** C4, as stated, fails: the visual cue of [interleaved_narration] comes
    first in the text and second in the marker list; and two narrations
    that differ by the place of a cue give the same markers and text. *)
Lemma markers_not_in_order_of_appearance :
  fst (_extract_markers interleaved_narration (JStr "s1"))
    <> markers_by_appearance interleaved_narration (JStr "s1")
  /\ marker_type <$> fst (_extract_markers interleaved_narration (JStr "s1"))
     = [Screenshot; Visual]
  /\ marker_type <$> markers_by_appearance interleaved_narration (JStr "s1")
     = [Visual; Screenshot]
  /\ "[VISUAL: chart] one two" <> "one [VISUAL: chart] two"
  /\ _extract_markers "[VISUAL: chart] one two" (JStr "s1")
     = _extract_markers "one [VISUAL: chart] two" (JStr "s1").
Proof.
  split; [vm_compute; discriminate|].
  split; [reflexivity|]. split; [reflexivity|].
  split; [discriminate|reflexivity].
Qed.

(** ** Deduplication by URL *)

Lemma not_seen_add (u v : string) (seen : gset string) :
  v ∉ {[u]} ∪ seen <-> u <> v /\ v ∉ seen.
Proof.
  rewrite not_elem_of_union, not_elem_of_singleton.
  split; intros [H1 H2]; (split; [congruence|exact H2]).
Qed.

Lemma unique_from_elem_of l : forall seen g,
  g ∈ unique_from seen l <->
  exists i, l !! i = Some g /\ (url g ∉ seen)
    /\ forall j g', (j < i)%nat -> l !! j = Some g' -> url g' <> url g.
Proof.
  induction l as [|f l IH]; intros seen g; simpl.
  - split; [by intros ?%elem_of_nil|]. intros (i & Hi & _).
    by rewrite lookup_nil in Hi.
  - destruct (decide (url f ∈ seen)) as [Hin|Hnin].
    + rewrite IH. split.
      * intros (i & Hi & Hg & Hfirst). exists (S i). split; [done|].
        split; [done|]. intros [|j] g' Hj Hg'; simpl in Hg'.
        -- injection Hg' as <-. congruence.
        -- apply (Hfirst j); [lia|done].
      * intros ([|i] & Hi & Hg & Hfirst); simpl in Hi.
        -- injection Hi as <-. done.
        -- exists i. split; [done|]. split; [done|].
           intros j g' Hj Hg'. apply (Hfirst (S j)); [lia|done].
    + rewrite elem_of_cons, IH. split.
      * intros [->|(i & Hi & Hg & Hfirst)].
        -- exists 0%nat. split; [done|]. split; [done|]. intros j g' Hj. lia.
        -- apply not_seen_add in Hg as [Hne Hg].
           exists (S i). split; [done|]. split; [done|].
           intros [|j] g' Hj Hg'; simpl in Hg'.
           ++ by injection Hg' as <-.
           ++ apply (Hfirst j); [lia|done].
      * intros ([|i] & Hi & Hg & Hfirst); simpl in Hi.
        -- injection Hi as <-. by left.
        -- right. exists i. split; [done|]. split.
           ++ apply not_seen_add. split; [|done].
              apply (Hfirst 0%nat); [lia|done].
           ++ intros j g' Hj Hg'. apply (Hfirst (S j)); [lia|done].
Qed.

Lemma unique_from_NoDup l : forall seen,
  NoDup (url <$> unique_from seen l).
Proof.
  induction l as [|f l IH]; intros seen; simpl; [constructor|].
  destruct (decide (url f ∈ seen)); [apply IH|].
  rewrite fmap_cons. apply NoDup_cons. split; [|apply IH].
  intros (g & Hu & Hg)%list_elem_of_fmap.
  apply unique_from_elem_of in Hg as (i & _ & Hnin & _).
  apply not_seen_add in Hnin as [Hne _]. done.
Qed.

Lemma unique_from_sublist l : forall seen, unique_from seen l `sublist_of` l.
Proof.
  induction l as [|f l IH]; intros seen; simpl; [constructor|].
  destruct (decide (url f ∈ seen)); [apply sublist_cons|apply sublist_skip];
    apply IH.
Qed.

Lemma unique_from_covers l : forall seen f,
  f ∈ l -> url f ∉ seen -> exists g, g ∈ unique_from seen l /\ url g = url f.
Proof.
  induction l as [|h l IH]; intros seen f Hf Hnin; [by apply elem_of_nil in Hf|].
  simpl. destruct (decide (url h ∈ seen)) as [Hin|Hh].
  - apply elem_of_cons in Hf as [->|Hf]; [done|]. by apply IH.
  - destruct (decide (url h = url f)) as [Heq|Hne].
    + exists h. split; [by left|done].
    + apply elem_of_cons in Hf as [->|Hf]; [done|].
      destruct (IH ({[url h]} ∪ seen) f Hf) as (g & Hg & Hu);
        [by apply not_seen_add|].
      exists g. split; [by right|done].
Qed.


(** ** Ranking *)

#[local] Instance Qeq_decision (x y : Q) : Decision (x == y)%Q := Qeq_dec x y.

Definition by_score_desc {A : Type} (key : A -> Q) : relation A :=
  fun a b => (key b <= key a)%Q.

Lemma Qle_bool_false x y : Qle_bool x y = false -> (y < x)%Q.
Proof.
  intros H. apply Qnot_le_lt. intros Hle%Qle_bool_iff. congruence.
Qed.

Lemma insert_desc_perm {A : Type} (key : A -> Q) x l :
  insert_desc key x l ≡ₚ x :: l.
Proof.
  induction l as [|y l IH]; simpl; [done|].
  destruct (Qle_bool (key y) (key x)); [done|].
  rewrite IH. apply perm_swap.
Qed.

Lemma py_sorted_desc_perm {A : Type} (key : A -> Q) l :
  py_sorted_desc key l ≡ₚ l.
Proof.
  induction l as [|x l IH]; simpl; [done|].
  rewrite insert_desc_perm. by constructor.
Qed.

Lemma insert_desc_sorted {A : Type} (key : A -> Q) x l :
  StronglySorted (by_score_desc key) l ->
  StronglySorted (by_score_desc key) (insert_desc key x l).
Proof.
  induction 1 as [|y l Hl IH Hy]; simpl; [repeat constructor|].
  destruct (Qle_bool (key y) (key x)) eqn:Hc.
  - apply Qle_bool_iff in Hc. constructor; [by constructor|].
    constructor; [exact Hc|].
    eapply Forall_impl; [exact Hy|]. unfold by_score_desc. simpl.
    intros z Hz. by eapply Qle_trans.
  - apply Qle_bool_false in Hc. constructor; [exact IH|].
    rewrite insert_desc_perm. constructor; [|exact Hy].
    by apply Qlt_le_weak.
Qed.

Lemma py_sorted_desc_sorted {A : Type} (key : A -> Q) l :
  StronglySorted (by_score_desc key) (py_sorted_desc key l).
Proof.
  induction l as [|x l IH]; simpl; [constructor|by apply insert_desc_sorted].
Qed.

Lemma insert_desc_stable {A : Type} (key : A -> Q) (q : Q) x l :
  filter (fun a => key a == q)%Q (insert_desc key x l)
  = filter (fun a => key a == q)%Q (x :: l).
Proof.
  induction l as [|y l IH]; simpl; [done|].
  destruct (Qle_bool (key y) (key x)) eqn:Hc; [done|].
  apply Qle_bool_false in Hc.
  rewrite (filter_cons _ y), IH, !filter_cons.
  destruct (decide (key y == q)%Q) as [Hy|Hy];
    destruct (decide (key x == q)%Q) as [Hx|Hx]; try done.
  rewrite Hx, <- Hy in Hc. by apply Qlt_irrefl in Hc.
Qed.

Lemma py_sorted_desc_stable {A : Type} (key : A -> Q) (q : Q) l :
  filter (fun a => key a == q)%Q (py_sorted_desc key l)
  = filter (fun a => key a == q)%Q l.
Proof.
  induction l as [|x l IH]; simpl; [done|].
  rewrite insert_desc_stable, !filter_cons. by rewrite IH.
Qed.

Lemma insert_desc_fmap {A B : Type} (f : A -> B) (key : B -> Q) x l :
  f <$> insert_desc (fun a => key (f a)) x l = insert_desc key (f x) (f <$> l).
Proof.
  induction l as [|y l IH]; [done|].
  rewrite fmap_cons. cbn [insert_desc].
  destruct (Qle_bool (key (f y)) (key (f x))); [done|].
  rewrite fmap_cons. f_equal. exact IH.
Qed.

Lemma py_sorted_desc_fmap {A B : Type} (f : A -> B) (key : B -> Q) l :
  f <$> py_sorted_desc (fun a => key (f a)) l = py_sorted_desc key (f <$> l).
Proof.
  induction l as [|x l IH]; [done|].
  rewrite fmap_cons. unfold py_sorted_desc in *. rewrite !foldr_cons.
  rewrite <- IH. apply insert_desc_fmap.
Qed.

Lemma refs_snd heap : snd <$> refs heap = heap.
Proof.
  unfold refs. rewrite fmap_imap.
  rewrite (imap_ext _ (fun _ x => x)) by done.
  induction heap as [|x l IH]; [done|]. rewrite imap_cons. f_equal. exact IH.
Qed.

Lemma refs_fst heap : fst <$> refs heap = seq 0 (length heap).
Proof.
  unfold refs. rewrite fmap_imap. apply list_eq. intros i.
  rewrite list_lookup_imap. destruct (heap !! i) as [x|] eqn:Hi; simpl.
  - symmetry. apply lookup_seq. split; [done|]. by apply lookup_lt_Some in Hi.
  - symmetry. apply lookup_ge_None. rewrite length_seq.
    by apply lookup_ge_None in Hi.
Qed.

Lemma refs_elem_of heap i f : (i, f) ∈ refs heap <-> heap !! i = Some f.
Proof.
  unfold refs. split.
  - intros (j & y & [= -> ->] & Hj)%elem_of_lookup_imap_1. done.
  - intros H. by apply (elem_of_lookup_imap_2 pair) in H.
Qed.



(** ** The services *)

Lemma M_bind_Ok {A B : Type} (m : M A) (k : A -> M B) w b w' :
  (m ≫= k) w = (Ok b, w') ->
  exists a w1, m w = (Ok a, w1) /\ k a w1 = (Ok b, w').
Proof.
  unfold mbind, M_bind. destruct (m w) as [[a|e] w1]; [eauto|discriminate].
Qed.

Lemma lift_Ok {A : Type} (r : res A) w a w' :
  lift r w = (Ok a, w') -> r = Ok a /\ w' = w.
Proof. unfold lift. by intros [= -> ->]. Qed.

Lemma score_strictly_decreasing (p1 p2 : Z) :
  (p1 < p2)%Z ->
  (1 - inject_Z p2 * (1 # 10) < 1 - inject_Z p1 * (1 # 10))%Q.
Proof. intros H. unfold Qlt. simpl. lia. Qed.

Lemma score_non_positive (p : Z) :
  (10 <= p)%Z -> (1 - inject_Z p * (1 # 10) <= 0)%Q.
Proof. intros H. unfold Qle. simpl. lia. Qed.

Lemma finding_of_json_to_json d f : finding_of_json d (finding_to_json f) = Ok f.
Proof. destruct f as [t u s [c|] r]; reflexivity. Qed.

Lemma findings_of_json_to_json d fs :
  findings_of_json d (finding_to_json <$> fs) = Ok fs.
Proof.
  induction fs as [|f fs IH]; [done|].
  rewrite fmap_cons. cbn [findings_of_json].
  rewrite finding_of_json_to_json, IH. done.
Qed.

Section ServiceProperties.

Variable json_loads : string -> option JSON.
Variable json_dumps : JSON -> string.
Variable md5_hex : string -> string.
Variable py_repr : JSON -> string.
Variable http_get : string -> res (Z * string).
Variable default_relevance_score : Q.

Local Abbreviation search_cached :=
  (_search_cached json_loads json_dumps md5_hex py_repr default_relevance_score).
Local Abbreviation cache_path := (search_cache_path md5_hex py_repr).

(** What a call of [_search_cached] does when the cache has no file for the
    query. *)
Lemma search_cached_miss cfg q w found w' :
  files w !! cache_path cfg q = None ->
  search_cached cfg q w = (Ok found, w') ->
  exists max_results raw,
    search cfg q max_results = Ok raw
    /\ found = finding_of_result <$> raw
    /\ files w'
       = <[cache_path cfg q := json_dumps (JArr (finding_to_json <$> found))]>
           (files w)
    /\ search_calls w' = search_calls w ++ [q]
    /\ http_calls w' = http_calls w.
Proof.
  intros Hmiss H. unfold _search_cached in H.
  apply M_bind_Ok in H as (cached & w1 & Hread & H).
  unfold read_file in Hread. injection Hread as <- <-. rewrite Hmiss in H.
  apply M_bind_Ok in H as (max_results & w1 & [Hmax ->]%lift_Ok & H).
  apply M_bind_Ok in H as (raw & w2 & Hcall & H).
  unfold call_search in Hcall. injection Hcall as Hraw <-.
  apply M_bind_Ok in H as ([] & w3 & Hwrite & H).
  unfold write_file in Hwrite. injection Hwrite as <-.
  injection H as <- <-. simpl. eauto 10.
Qed.

(** What it does when the file is there. *)
Lemma search_cached_hit cfg q w text :
  files w !! cache_path cfg q = Some text ->
  search_cached cfg q w
  = (v ← py_json_loads json_loads text; items ← py_iter v;
     findings_of_json default_relevance_score items, w).
Proof.
  intros Hhit. unfold _search_cached, mbind at 1, M_bind, read_file.
  rewrite Hhit. reflexivity.
Qed.

(** C9: on a cache miss every finding gets the score [1 - 0.1 * position] of
    the search result it is made from; a result of greater position gets a
    strictly smaller score, so the scores strictly decrease along the
    results when the positions are the 0-based ranks; and from position 10
    on the score is at most 0. *)
Theorem fresh_relevance_scores cfg q w found w' :
  files w !! cache_path cfg q = None ->
  search_cached cfg q w = (Ok found, w') ->
  exists max_results raw,
    search cfg q max_results = Ok raw
    /\ found = finding_of_result <$> raw
    /\ Forall2 (fun r f =>
         relevance_score f = (1 - inject_Z (position r) * (1 # 10))%Q) raw found
    /\ (forall i j ri rj fi fj,
          raw !! i = Some ri -> raw !! j = Some rj ->
          found !! i = Some fi -> found !! j = Some fj ->
          (position ri < position rj)%Z ->
          (relevance_score fj < relevance_score fi)%Q)
    /\ ((forall i r, raw !! i = Some r -> position r = Z.of_nat i) ->
        forall i j fi fj, (i < j)%nat ->
          found !! i = Some fi -> found !! j = Some fj ->
          (relevance_score fj < relevance_score fi)%Q)
    /\ (forall i r f, raw !! i = Some r -> found !! i = Some f ->
          (10 <= position r)%Z -> (relevance_score f <= 0)%Q).
Proof.
  intros Hmiss H.
  destruct (search_cached_miss _ _ _ _ _ Hmiss H)
    as (max_results & raw & Hraw & -> & _).
  exists max_results, raw. split; [done|]. split; [done|].
  assert (forall i r f, raw !! i = Some r ->
            (finding_of_result <$> raw) !! i = Some f ->
            f = finding_of_result r) as Hat.
  { intros i r f Hr Hf. rewrite list_lookup_fmap, Hr in Hf. by injection Hf. }
  split.
  { apply Forall2_fmap_r, Forall_Forall2_diag, Forall_true. done. }
  split.
  { intros i j ri rj fi fj Hri Hrj Hfi Hfj Hlt.
    rewrite (Hat i ri fi), (Hat j rj fj) by done.
    by apply score_strictly_decreasing. }
  split.
  { intros Hrank i j fi fj Hij Hfi Hfj.
    pose proof Hfi as Hri. pose proof Hfj as Hrj.
    rewrite list_lookup_fmap in Hri, Hrj.
    destruct (raw !! i) as [ri|] eqn:Ei; [|done].
    destruct (raw !! j) as [rj|] eqn:Ej; [|done].
    rewrite (Hat i ri fi), (Hat j rj fj) by done.
    apply score_strictly_decreasing.
    rewrite (Hrank i ri), (Hrank j rj) by done. lia. }
  intros i r f Hr Hf Hpos. rewrite (Hat i r f) by done.
  by apply score_non_positive.
Qed.

(** C10: when a call of [_search_cached] misses the cache and succeeds, it
    asks the provider once and writes the findings to the cache file of
    the query; if [json.loads] gives back what [json.dumps] was given, every
    call made while that file is in place, whatever the search provider and
    the rest of the configuration, returns the same findings, field by
    field, and leaves the world as it is: the provider is not asked. *)
Theorem search_cache_round_trip cfg q w0 found w1 :
  files w0 !! cache_path cfg q = None ->
  search_cached cfg q w0 = (Ok found, w1) ->
  json_loads (json_dumps (JArr (finding_to_json <$> found)))
  = Some (JArr (finding_to_json <$> found)) ->
  files w1 !! cache_path cfg q
  = Some (json_dumps (JArr (finding_to_json <$> found)))
  /\ search_calls w1 = search_calls w0 ++ [q]
  /\ forall cfg' w,
       search_provider_name cfg' = search_provider_name cfg ->
       cache_dir cfg' = cache_dir cfg ->
       files w !! cache_path cfg q = files w1 !! cache_path cfg q ->
       search_cached cfg' q w = (Ok found, w).
Proof.
  intros Hmiss H Hrt.
  destruct (search_cached_miss _ _ _ _ _ Hmiss H)
    as (max_results & raw & _ & _ & Hfiles & Hcalls & _).
  assert (files w1 !! cache_path cfg q
          = Some (json_dumps (JArr (finding_to_json <$> found)))) as Hfile.
  { rewrite Hfiles. apply lookup_insert_eq. }
  split; [exact Hfile|]. split; [exact Hcalls|].
  intros cfg' w Hname Hdir Hsame.
  assert (cache_path cfg' q = cache_path cfg q) as Hpath.
  { unfold search_cache_path, cache_root. by rewrite Hname, Hdir. }
  rewrite (search_cached_hit cfg' q w
             (json_dumps (JArr (finding_to_json <$> found))))
    by (rewrite Hpath, Hsame; exact Hfile).
  unfold py_json_loads. rewrite Hrt. simpl.
  by rewrite findings_of_json_to_json.
Qed.

(** ** Unparsable responses *)

(** C6, as amended: a response that is not valid JSON gives the three
    fallback queries; a response that is valid JSON but not a list gives the
    topic alone; a response that is a list gives its first four entries (all
    of them when there are fewer). No case raises or changes the world. *)
Theorem generate_queries_cases cfg tpc text w :
  llm_complete cfg (queries_prompt tpc) "" 512 = Ok text ->
  let raw := strip_fences text in
  let out := _generate_queries json_loads cfg tpc w in
  (json_loads raw = None ->
     out = (Ok [JStr tpc; JStr (tpc +:+ " announcement");
                JStr (tpc +:+ " review")], w))
  /\ (forall v, json_loads raw = Some v -> (forall l, v <> JArr l) ->
        out = (Ok [JStr tpc], w))
  /\ (forall l, json_loads raw = Some (JArr l) ->
        out = (Ok (take 4 l), w) /\ (length (take 4 l) <= 4)%nat
        /\ take 4 l `prefix_of` l).
Proof.
  intros Hllm raw out. subst out raw.
  unfold _generate_queries, mbind at 1 2 3, M_bind, lift. rewrite Hllm.
  split; [by intros ->|]. split.
  - intros v -> Hv. destruct v; try done. by destruct (Hv items).
  - intros l ->. split; [done|]. split; [rewrite length_take; lia|].
    apply prefix_take.
Qed.

Lemma same_record_refl f : same_record f f.
Proof. by repeat split. Qed.

Lemma same_record_trans f g h :
  same_record f g -> same_record g h -> same_record f h.
Proof. unfold same_record. intros (?&?&?&?) (?&?&?&?). repeat split; congruence. Qed.

Lemma fetch_content_same cfg f w :
  exists f' w',
    _fetch_content md5_hex http_get cfg f w = (Ok f', w') /\ same_record f' f
    /\ (http_calls w' = http_calls w \/ http_calls w' = http_calls w ++ [url f]).
Proof.
  unfold _fetch_content, mbind at 1, M_bind, read_file.
  destruct (files w !! _) as [text|].
  - do 2 eexists. split; [reflexivity|]. split; [by repeat split|by left].
  - destruct (http_get (url f)) as [[status html]|e].
    + destruct (status =? 200)%Z.
      * do 2 eexists. split; [reflexivity|].
        split; [by repeat split|by right].
      * do 2 eexists. split; [reflexivity|].
        split; [apply same_record_refl|by right].
    + do 2 eexists. split; [reflexivity|].
      split; [apply same_record_refl|by right].
Qed.

(** [fetch_all] always returns; it changes the findings at most by their
    content, leaves the objects that [top] does not name as they are, and
    sends requests for URLs of objects that [top] names only. *)
Lemma fetch_all_spec cfg top : forall heap w,
  exists heap' w' requests,
    fetch_all md5_hex http_get cfg top heap w = (Ok heap', w')
    /\ Forall2 same_record heap' heap
    /\ (forall i, i ∉ fst <$> top -> heap' !! i = heap !! i)
    /\ http_calls w' = http_calls w ++ requests
    /\ (forall u, u ∈ requests ->
          exists i f, i ∈ fst <$> top /\ heap !! i = Some f /\ url f = u).
Proof.
  induction top as [|[i f0] top IH]; intros heap w; simpl.
  - exists heap, w, []. split; [reflexivity|].
    split; [apply Forall_Forall2_diag, Forall_true, same_record_refl|].
    split; [done|]. split; [by rewrite app_nil_r|].
    intros u Hu. by apply elem_of_nil in Hu.
  - destruct (heap !! i) as [f|] eqn:Hi.
    + destruct (fetch_content_same cfg f w) as (f' & w1 & Hf & Hsame & Hcalls).
      unfold mbind at 1, M_bind, try_task. rewrite Hf.
      destruct (IH (<[i := f']> heap) w1)
        as (heap' & w' & reqs & Hrest & Hall & Hout & Hreq & Hfrom).
      assert (Forall2 same_record (<[i := f']> heap) heap) as Hstep.
      { rewrite <- (list_insert_id heap i f) at 2 by done.
        apply Forall2_insert; [|done].
        apply Forall_Forall2_diag, Forall_true, same_record_refl. }
      exists heap', w', ((if decide (http_calls w1 = http_calls w) then []
                          else [url f]) ++ reqs).
      split; [exact Hrest|]. split.
      { eapply Forall2_trans; [apply same_record_trans|exact Hall|exact Hstep]. }
      split.
      { intros j Hj. apply not_elem_of_cons in Hj as [Hne Hj].
        rewrite (Hout j Hj). by apply list_lookup_insert_ne. }
      split.
      { rewrite Hreq. destruct (decide (http_calls w1 = http_calls w)) as [->|Hne].
        - done.
        - destruct Hcalls as [Heq | ->]; [done|]. by rewrite <- app_assoc. }
      intros u [Hu|Hu]%elem_of_app.
      * destruct (decide (http_calls w1 = http_calls w)); [by apply elem_of_nil in Hu|].
        apply list_elem_of_singleton in Hu as ->.
        exists i, f. split; [by left|done].
      * destruct (Hfrom u Hu) as (j & g & Hj & Hg & Hug).
        destruct (Forall2_lookup_l _ _ _ _ _ Hstep Hg) as (g0 & Hg0 & Hs).
        exists j, g0. split; [by right|]. split; [done|].
        destruct Hs as (_ & Hurl & _). congruence.
    + destruct (IH heap w) as (heap' & w' & reqs & Hrest & Hall & Hout & Hreq & Hfrom).
      exists heap', w', reqs. split; [exact Hrest|]. split; [exact Hall|].
      split; [intros j Hj; apply not_elem_of_cons in Hj as [_ Hj]; auto|].
      split; [exact Hreq|].
      intros u Hu. destruct (Hfrom u Hu) as (j & g & Hj & Hg).
      exists j, g. split; [by right|done].
Qed.

(** The steps of a run of [research] that returns. *)
Lemma research_Ok cfg tpc w r w' :
  research json_loads json_dumps md5_hex py_repr http_get
    default_relevance_score cfg tpc w = (Ok r, w') ->
  exists queries w1 results w2 top_n top heap w3,
    _generate_queries json_loads cfg tpc w = (Ok queries, w1)
    /\ gather (search_cached cfg <$> queries) w1 = (Ok results, w2)
    /\ select_top top_n (unique_from ∅ (merge_results results)) = Ok top
    /\ fetch_all md5_hex http_get cfg top
         (unique_from ∅ (merge_results results)) w2 = (Ok heap, w3)
    /\ _extract_facts json_loads cfg tpc heap w3 = (Ok r, w').
Proof.
  intros H. unfold research in H.
  apply M_bind_Ok in H as (queries & w1 & Hq & H).
  apply M_bind_Ok in H as (results & w2 & Hg & H).
  apply M_bind_Ok in H as (top_n & w3 & [_ ->]%lift_Ok & H).
  apply M_bind_Ok in H as (top & w4 & [Htop ->]%lift_Ok & H).
  apply M_bind_Ok in H as (heap & w5 & Hfetch & H).
  eauto 15.
Qed.

Lemma extract_facts_findings cfg tpc found w r w' :
  _extract_facts json_loads cfg tpc found w = (Ok r, w') -> findings r = found.
Proof.
  intros H. unfold _extract_facts in H.
  apply M_bind_Ok in H as (text & w1 & _ & H).
  apply lift_Ok in H as [H _]. res_inv H. by injection H as <-.
Qed.

Lemma research_findings cfg tpc w r w' :
  research json_loads json_dumps md5_hex py_repr http_get
    default_relevance_score cfg tpc w = (Ok r, w') ->
  exists queries w1 results w2,
    _generate_queries json_loads cfg tpc w = (Ok queries, w1)
    /\ gather (search_cached cfg <$> queries) w1 = (Ok results, w2)
    /\ Forall2 same_record (findings r)
         (unique_from ∅ (merge_results results)).
Proof.
  intros (queries & w1 & results & w2 & top_n & top & heap & w3
          & Hq & Hg & _ & Hfetch & Hfacts)%research_Ok.
  apply extract_facts_findings in Hfacts as ->.
  exists queries, w1, results, w2. split; [exact Hq|]. split; [exact Hg|].
  destruct (fetch_all_spec cfg top (unique_from ∅ (merge_results results)) w2)
    as (heap' & w'' & reqs & Hfetch' & Hall & _).
  rewrite Hfetch in Hfetch'. by injection Hfetch' as -> _.
Qed.

Lemma same_record_urls l k :
  Forall2 same_record l k -> url <$> l = url <$> k.
Proof.
  induction 1 as [|f g l k (_ & Hu & _) _ IH]; [done|].
  rewrite !fmap_cons. by rewrite Hu, IH.
Qed.

(** C1: whatever the per-query results (in the order in which the queries
    were issued; a failed query contributes nothing), the deduplicated list
    has no URL twice, keeps the merge order, has a finding for every URL
    that was found, and its findings are exactly the first ones met in merge
    order with their URL: whether a later finding is dropped depends on its
    URL alone, not on its score or its other fields. The findings that a
    run of [research] returns are that list for the results of its queries,
    up to the fetched content. *)
Theorem dedup_first_seen :
  (forall results : list (res (list ResearchFinding)),
     let merged := merge_results results in
     let unique := unique_from ∅ merged in
     NoDup (url <$> unique)
     /\ unique `sublist_of` merged
     /\ (forall f, f ∈ merged -> exists g, g ∈ unique /\ url g = url f)
     /\ (forall g, g ∈ unique <->
           exists i, merged !! i = Some g
             /\ forall j g', (j < i)%nat -> merged !! j = Some g' ->
                  url g' <> url g))
  /\ (forall cfg tpc w r w',
        research json_loads json_dumps md5_hex py_repr http_get
          default_relevance_score cfg tpc w = (Ok r, w') ->
        NoDup (url <$> findings r)
        /\ exists queries w1 results w2,
             _generate_queries json_loads cfg tpc w = (Ok queries, w1)
             /\ gather (search_cached cfg <$> queries) w1 = (Ok results, w2)
             /\ Forall2 same_record (findings r)
                  (unique_from ∅ (merge_results results))).
Proof.
  split.
  - intros results merged unique. split; [apply unique_from_NoDup|].
    split; [apply unique_from_sublist|]. split.
    + intros f Hf. by apply unique_from_covers.
    + intros g. unfold unique. rewrite unique_from_elem_of. split.
      * intros (i & Hi & _ & H). eauto.
      * intros (i & Hi & H). exists i. split; [done|].
        split; [apply not_elem_of_empty|done].
  - intros cfg tpc w r w' H.
    destruct (research_findings _ _ _ _ _ H)
      as (queries & w1 & results & w2 & Hq & Hg & Hsame).
    split; [|eauto 10].
    rewrite (same_record_urls _ _ Hsame). apply unique_from_NoDup.
Qed.

(** The steps of a run of [research] that returns, with the setting read
    and the world reached. *)
Lemma research_steps cfg tpc w r w' :
  research json_loads json_dumps md5_hex py_repr http_get
    default_relevance_score cfg tpc w = (Ok r, w') ->
  exists queries w1 results w2 top_n top,
    _generate_queries json_loads cfg tpc w = (Ok queries, w1)
    /\ gather (search_cached cfg <$> queries) w1 = (Ok results, w2)
    /\ (c ← py_getitem (_raw cfg) "search"; py_getitem c "top_pages_to_fetch")
       = Ok top_n
    /\ select_top top_n (unique_from ∅ (merge_results results)) = Ok top
    /\ fetch_all md5_hex http_get cfg top
         (unique_from ∅ (merge_results results)) w2 = (Ok (findings r), w').
Proof.
  intros H. unfold research in H.
  apply M_bind_Ok in H as (queries & w1 & Hq & H).
  apply M_bind_Ok in H as (results & w2 & Hg & H).
  apply M_bind_Ok in H as (top_n & w3 & [Hn ->]%lift_Ok & H).
  apply M_bind_Ok in H as (top & w4 & [Htop ->]%lift_Ok & H).
  apply M_bind_Ok in H as (heap & w5 & Hfetch & H).
  pose proof (extract_facts_findings _ _ _ _ _ _ H) as Hf.
  unfold _extract_facts in H.
  apply M_bind_Ok in H as (text & w6 & [_ ->]%lift_Ok & H).
  apply lift_Ok in H as [_ ->]. rewrite Hf.
  exists queries, w1, results, w2, top_n, top. done.
Qed.

Lemma py_slice_to_fmap {A B : Type} (f : A -> B) bound (l t : list A) :
  py_slice_to bound l = Ok t -> py_slice_to bound (f <$> l) = Ok (f <$> t).
Proof.
  destruct bound as [|b|n| | | |]; try discriminate; intros [= <-]; simpl.
  - done.
  - by rewrite fmap_take.
  - rewrite length_fmap. by destruct (0 <=? n)%Z; rewrite fmap_take.
Qed.

(** What the second [gather] does for the findings that [top] names, when
    it names each object once: each of them is fetched, so that a request
    is sent for its URL or its content is set from the page cache. *)
Lemma fetch_all_selected cfg top : forall heap w,
  NoDup (fst <$> top) ->
  exists heap' w' requests,
    fetch_all md5_hex http_get cfg top heap w = (Ok heap', w')
    /\ (forall i, i ∉ fst <$> top -> heap' !! i = heap !! i)
    /\ http_calls w' = http_calls w ++ requests
    /\ (forall i f, i ∈ fst <$> top -> heap !! i = Some f ->
          exists g, heap' !! i = Some g /\ same_record g f
            /\ (url f ∈ requests \/ exists text, full_content g = Some text)).
Proof.
  induction top as [|[i f0] top IH]; intros heap w Hnd; cbn [fetch_all].
  - exists heap, w, []. split; [reflexivity|]. split; [done|].
    split; [by rewrite app_nil_r|]. intros i f Hi. by apply elem_of_nil in Hi.
  - rewrite fmap_cons in Hnd. cbn [fst] in Hnd.
    apply NoDup_cons in Hnd as [Hi Hnd].
    destruct (heap !! i) as [f|] eqn:Hf.
    + assert (exists f' w1 reqs,
                _fetch_content md5_hex http_get cfg f w = (Ok f', w1)
                /\ same_record f' f
                /\ http_calls w1 = http_calls w ++ reqs
                /\ (url f ∈ reqs \/ exists text, full_content f' = Some text))
        as (f' & w1 & reqs & Hrun & Hsame & Hcalls & Hdone).
      { unfold _fetch_content, mbind at 1, M_bind, read_file.
        destruct (files w !! _) as [text|].
        - exists (with_content f text), w, []. split; [reflexivity|].
          split; [by repeat split|]. split; [by rewrite app_nil_r|].
          right. by exists text.
        - destruct (http_get (url f)) as [[status html]|e];
            [destruct (status =? 200)%Z|];
            eexists _, _, [url f]; (split; [reflexivity|]);
            (split; [by repeat split|]); (split; [reflexivity|]);
            left; by apply list_elem_of_singleton. }
      unfold mbind at 1, M_bind, try_task. rewrite Hrun.
      destruct (IH (<[i := f']> heap) w1 Hnd)
        as (heap' & w' & reqs' & Hrest & Hout & Hreq & Hsel).
      exists heap', w', (reqs ++ reqs'). split; [exact Hrest|].
      split.
      { intros j Hj. rewrite fmap_cons in Hj. cbn [fst] in Hj.
        apply not_elem_of_cons in Hj as [Hne Hj].
        rewrite (Hout j Hj). by apply list_lookup_insert_ne. }
      split; [rewrite Hreq, Hcalls; by rewrite app_assoc|].
      intros j g Hj Hg. rewrite fmap_cons in Hj. cbn [fst] in Hj.
      apply elem_of_cons in Hj as [-> | Hj].
      * rewrite Hf in Hg. injection Hg as <-.
        exists f'. split.
        { rewrite (Hout i Hi). apply list_lookup_insert_eq.
          by apply lookup_lt_Some in Hf. }
        split; [exact Hsame|].
        destruct Hdone as [Hr | Hc]; [left|by right].
        apply elem_of_app. by left.
      * assert (j <> i) as Hne by (intros ->; done).
        destruct (Hsel j g Hj) as (g' & Hg' & Hs & Hd).
        { rewrite list_lookup_insert_ne by done. exact Hg. }
        exists g'. split; [exact Hg'|]. split; [exact Hs|].
        destruct Hd as [Hr | Hc]; [left|by right].
        apply elem_of_app. by right.
    + destruct (IH heap w Hnd)
        as (heap' & w' & reqs' & Hrest & Hout & Hreq & Hsel).
      exists heap', w', reqs'. split; [exact Hrest|].
      split.
      { intros j Hj. rewrite fmap_cons in Hj. cbn [fst] in Hj.
        apply not_elem_of_cons in Hj as [_ Hj]. by apply Hout. }
      split; [exact Hreq|].
      intros j g Hj Hg. rewrite fmap_cons in Hj. cbn [fst] in Hj.
      apply elem_of_cons in Hj as [-> | Hj]; [congruence|].
      by apply Hsel.
Qed.

(** C7, as amended: in every run of [research] that returns, the unique
    findings are ranked by the stable sort by descending score (a
    permutation of them, in descending order of score, in which findings of
    equal score keep their merge order), and the findings selected for the
    content fetch are the slice of that ranking up to the value of
    [search.top_pages_to_fetch] read from the configuration: its first [n]
    findings for a non-negative integer [n] (all of them when there are
    fewer), and all but its last [k] for a negative integer [-k]. Each
    selected finding names one object of the unique list, no object is
    selected twice, and the content fetch is run on that selection: for
    every selected finding a request is sent for its URL or its content is
    set from the page cache, requests go to URLs of selected findings
    only, and a finding that is not selected is returned as it is. *)
Theorem top_pages_selection cfg tpc w r w' :
  research json_loads json_dumps md5_hex py_repr http_get
    default_relevance_score cfg tpc w = (Ok r, w') ->
  exists queries w1 results w2 top_n top requests,
    _generate_queries json_loads cfg tpc w = (Ok queries, w1)
    /\ gather (search_cached cfg <$> queries) w1 = (Ok results, w2)
    /\ (c ← py_getitem (_raw cfg) "search"; py_getitem c "top_pages_to_fetch")
       = Ok top_n
    /\ let unique := unique_from ∅ (merge_results results) in
       let ranking := py_sorted_desc relevance_score unique in
       ranking ≡ₚ unique
       /\ StronglySorted (by_score_desc relevance_score) ranking
       /\ (forall q, filter (fun f => relevance_score f == q)%Q ranking
                  = filter (fun f => relevance_score f == q)%Q unique)
       /\ select_top top_n unique = Ok top
       /\ py_slice_to top_n ranking = Ok (snd <$> top)
       /\ (forall n, top_n = JInt n -> (0 <= n)%Z ->
             snd <$> top = take (Z.to_nat n) ranking)
       /\ (forall n, top_n = JInt n -> (n < 0)%Z ->
             snd <$> top = take (length ranking - Z.to_nat (- n)) ranking)
       /\ NoDup (fst <$> top)
       /\ (forall i f, (i, f) ∈ top -> unique !! i = Some f)
       /\ fetch_all md5_hex http_get cfg top unique w2 = (Ok (findings r), w')
       /\ http_calls w' = http_calls w2 ++ requests
       /\ requests ⊆ url <$> (snd <$> top)
       /\ (forall i f, (i, f) ∈ top ->
             exists g, findings r !! i = Some g /\ same_record g f
               /\ (url f ∈ requests \/ exists text, full_content g = Some text))
       /\ (forall i f, unique !! i = Some f -> (i, f) ∉ top ->
             findings r !! i = Some f).
Proof.
  intros (queries & w1 & results & w2 & top_n & top & Hq & Hg & Hn & Htop
          & Hfetch)%research_steps.
  set (unique := unique_from ∅ (merge_results results)) in *.
  set (ranking := py_sorted_desc relevance_score unique).
  set (sorted := py_sorted_desc (fun r => relevance_score (snd r))
                   (refs unique)).
  assert (sorted ≡ₚ refs unique) as Hperm by apply py_sorted_desc_perm.
  assert (snd <$> sorted = ranking) as Hsnd.
  { unfold sorted, ranking.
    rewrite (py_sorted_desc_fmap snd relevance_score). by rewrite refs_snd. }
  assert (py_slice_to top_n ranking = Ok (snd <$> top)) as Hslice.
  { rewrite <- Hsnd. by apply py_slice_to_fmap. }
  assert (top `sublist_of` sorted) as Hsub.
  { unfold select_top in Htop. fold sorted in Htop.
    destruct top_n as [|b|n| | | |]; try discriminate;
      injection Htop as <-; [done|apply sublist_take|].
    destruct (0 <=? n)%Z; apply sublist_take. }
  assert (forall i f, (i, f) ∈ top -> unique !! i = Some f) as Hnames.
  { intros i f Hin. apply refs_elem_of. rewrite <- Hperm.
    by eapply elem_of_sublist. }
  assert (NoDup (fst <$> top)) as Hnd.
  { eapply sublist_NoDup; [|by apply fmap_sublist].
    rewrite Hperm, refs_fst. apply NoDup_seq. }
  destruct (fetch_all_selected cfg top unique w2 Hnd)
    as (heap & w3 & requests & Hrun & Hout & Hreq & Hsel).
  rewrite Hfetch in Hrun. injection Hrun as <- <-.
  destruct (fetch_all_spec cfg top unique w2)
    as (heap' & w3' & reqs' & Hrun' & _ & _ & Hreq' & Hfrom).
  rewrite Hfetch in Hrun'. injection Hrun' as <- <-.
  assert (reqs' = requests) as ->.
  { rewrite Hreq in Hreq'. by apply app_inv_head in Hreq'. }
  exists queries, w1, results, w2, top_n, top, requests.
  split; [exact Hq|]. split; [exact Hg|]. split; [exact Hn|].
  split; [apply py_sorted_desc_perm|]. split; [apply py_sorted_desc_sorted|].
  split; [intros q; apply py_sorted_desc_stable|].
  split; [exact Htop|]. split; [exact Hslice|].
  split.
  { intros n -> Hpos. simpl in Hslice.
    destruct (Z.leb_spec 0 n); [|lia]. by injection Hslice as <-. }
  split.
  { intros n -> Hneg. simpl in Hslice.
    destruct (Z.leb_spec 0 n); [lia|]. by injection Hslice as <-. }
  split; [exact Hnd|]. split; [exact Hnames|]. split; [exact Hfetch|].
  split; [exact Hreq|]. split.
  { intros u Hu. destruct (Hfrom u Hu) as (i & f & Hi & Hf & <-).
    apply list_elem_of_fmap in Hi as ([j g] & -> & Hin). cbn [fst] in Hf.
    rewrite (Hnames _ _ Hin) in Hf. injection Hf as ->.
    apply list_elem_of_fmap. exists f. split; [done|].
    apply list_elem_of_fmap. by exists (j, f). }
  split.
  { intros i f Hin. apply (Hsel i f); [|by apply Hnames].
    apply list_elem_of_fmap. by exists (i, f). }
  intros i f Hi Hnot. rewrite Hout; [exact Hi|].
  intros ([j g] & -> & Hin)%list_elem_of_fmap. cbn [fst] in Hi, Hnot.
  pose proof (Hnames _ _ Hin) as Hj. unfold unique in Hj.
  rewrite Hj in Hi. by injection Hi as ->.
Qed.

(** C8 fails in [_extract_facts]: when the response of the LLM to the facts
    prompt decodes to a JSON value that is not an object (a list, a number,
    [null], ...), nothing catches the [AttributeError] of [data.get]:
    [_extract_facts] raises it, and so does the run of [research] that has
    come to this step, which returns none of the findings it has
    collected. The fallback is reached by a response that does not decode
    only; [_generate_queries] checks the type of what it has decoded. *)
Theorem extract_facts_raises_on_non_object cfg tpc found w answer v :
  llm_complete cfg (facts_prompt tpc found) "" 2048 = Ok answer ->
  json_loads (strip_fences answer) = Some v ->
  (forall fields, v <> JObj fields) ->
  _extract_facts json_loads cfg tpc found w = (Raise AttributeError, w)
  /\ forall w0 queries w1 results w2 top_n top,
       _generate_queries json_loads cfg tpc w0 = (Ok queries, w1) ->
       gather (search_cached cfg <$> queries) w1 = (Ok results, w2) ->
       (c ← py_getitem (_raw cfg) "search";
        py_getitem c "top_pages_to_fetch") = Ok top_n ->
       select_top top_n (unique_from ∅ (merge_results results)) = Ok top ->
       fetch_all md5_hex http_get cfg top
         (unique_from ∅ (merge_results results)) w2 = (Ok found, w) ->
       research json_loads json_dumps md5_hex py_repr http_get
         default_relevance_score cfg tpc w0 = (Raise AttributeError, w).
Proof.
  intros Hllm Hv Hnot.
  assert (_extract_facts json_loads cfg tpc found w
          = (Raise AttributeError, w)) as Hfacts.
  { unfold _extract_facts, lift. rewrite Hllm.
    unfold mbind at 1, M_bind. cbv beta iota zeta. rewrite Hv.
    destruct v as [| | | | | |fields]; try reflexivity.
    by destruct (Hnot fields). }
  split; [exact Hfacts|].
  intros w0 queries w1 results w2 top_n top Hq Hg Hn Htop Hfetch.
  unfold research.
  unfold mbind at 1, M_bind. rewrite Hq.
  unfold mbind at 1, M_bind. rewrite Hg.
  unfold mbind at 1, M_bind, lift. rewrite Hn.
  unfold mbind at 1, M_bind. rewrite Htop.
  unfold mbind at 1, M_bind. rewrite Hfetch. exact Hfacts.
Qed.

(** C3 fails in [generate_script]: once the prompts are built and the LLM
    has answered, a response that is not valid JSON makes [generate_script]
    raise the decoding error, where [_generate_queries] and [_extract_facts]
    catch it and fall back. *)
Theorem generate_script_raises_on_invalid_json cfg research system user text :
  script_prompts py_repr cfg research = Ok (system, user) ->
  llm_complete cfg user system 8192 = Ok text ->
  json_loads (strip_fences text) = None ->
  generate_script json_loads py_repr cfg research = Raise JSONDecodeError.
Proof.
  intros Hp Hllm Hbad. unfold generate_script. rewrite Hp. simpl.
  rewrite Hllm. simpl. unfold py_json_loads. by rewrite Hbad.
Qed.

End ServiceProperties.

(** ** Concrete runs *)

Lemma fresh_relevance_scores_witness :
  let cfg := demo_cfg "" in
  let q := JStr "rust" in
  files empty_world !! search_cache_path demo_md5 demo_repr cfg q = None
  /\ exists found w',
       _search_cached RefJson.loads RefJson.dumps demo_md5 demo_repr 0 cfg q
         empty_world = (Ok found, w')
       /\ Forall2 (fun r f =>
            relevance_score f = (1 - inject_Z (position r) * (1 # 10))%Q)
            demo_results found.
Proof.
  intros cfg q.
  assert (files empty_world !! search_cache_path demo_md5 demo_repr cfg q = None)
    as Hmiss by reflexivity.
  split; [exact Hmiss|].
  eassert (_search_cached RefJson.loads RefJson.dumps demo_md5 demo_repr 0 cfg q
             empty_world = (Ok _, _)) as Hrun by (vm_compute; reflexivity).
  do 2 eexists. split; [exact Hrun|].
  destruct (fresh_relevance_scores RefJson.loads RefJson.dumps demo_md5
              demo_repr 0 cfg q _ _ _ Hmiss Hrun)
    as (max_results & raw & Hraw & _ & Hscores & _).
  injection Hraw as <-. exact Hscores.
Defined.

Lemma search_cache_round_trip_witness :
  let cfg := demo_cfg "" in
  let q := JStr "rust" in
  exists found w1,
    files empty_world !! search_cache_path demo_md5 demo_repr cfg q = None
    /\ _search_cached RefJson.loads RefJson.dumps demo_md5 demo_repr 0 cfg q
         empty_world = (Ok found, w1)
    /\ RefJson.loads (RefJson.dumps (JArr (finding_to_json <$> found)))
       = Some (JArr (finding_to_json <$> found))
    /\ search_calls w1 = [q]
    /\ _search_cached RefJson.loads RefJson.dumps demo_md5 demo_repr 0 cfg q w1
       = (Ok found, w1).
Proof.
  intros cfg q.
  assert (files empty_world !! search_cache_path demo_md5 demo_repr cfg q = None)
    as Hmiss by reflexivity.
  eassert (_search_cached RefJson.loads RefJson.dumps demo_md5 demo_repr 0 cfg q
             empty_world = (Ok _, _)) as Hrun by (vm_compute; reflexivity).
  do 2 eexists. split; [exact Hmiss|]. split; [exact Hrun|].
  match type of Hrun with
  | _ = (Ok ?found, _) =>
      assert (RefJson.loads (RefJson.dumps (JArr (finding_to_json <$> found)))
              = Some (JArr (finding_to_json <$> found))) as Hrt
        by (vm_compute; reflexivity)
  end.
  split; [exact Hrt|].
  destruct (search_cache_round_trip RefJson.loads RefJson.dumps demo_md5
              demo_repr 0 cfg q _ _ _ Hmiss Hrun Hrt) as (_ & Hcalls & Hlater).
  split; [exact Hcalls|]. apply Hlater; reflexivity.
Defined.

Lemma top_pages_selection_witness :
  let cfg := demo_cfg "not json" in
  exists r w',
    research RefJson.loads RefJson.dumps demo_md5 demo_repr demo_http 0 cfg
      "rust" empty_world = (Ok r, w')
    /\ (c ← py_getitem (_raw cfg) "search"; py_getitem c "top_pages_to_fetch")
       = Ok (JInt 2)
    /\ exists top requests,
         (length (snd <$> top) <= 2)%nat
         /\ NoDup (fst <$> top)
         /\ requests ⊆ url <$> (snd <$> top)
         /\ forall i f, (i, f) ∈ top ->
              exists g, findings r !! i = Some g /\ same_record g f
                /\ (url f ∈ requests
                    \/ exists text, full_content g = Some text).
Proof.
  intros cfg.
  eassert (research RefJson.loads RefJson.dumps demo_md5 demo_repr demo_http 0
             cfg "rust" empty_world = (Ok _, _)) as Hrun
    by (vm_compute; reflexivity).
  do 2 eexists. split; [exact Hrun|]. split; [reflexivity|].
  destruct (top_pages_selection RefJson.loads RefJson.dumps demo_md5 demo_repr
              demo_http 0 cfg "rust" _ _ _ Hrun)
    as (queries & w1 & results & w2 & top_n & top & requests & _ & _ & Hn
        & _ & _ & _ & _ & _ & Hfirst & _ & Hnd & _ & _ & _ & Hsub & Hsel & _).
  injection Hn as <-.
  exists top, requests. split.
  { rewrite (Hfirst 2%Z eq_refl ltac:(lia)), length_take. lia. }
  split; [exact Hnd|]. split; [exact Hsub|exact Hsel].
Defined.

(** C7, as stated, fails for a negative setting: with
    [search.top_pages_to_fetch] at -1 and two unique findings, the slice
    selects all but the last one, and the page of the first finding is
    fetched, where the first -1 findings of the ranking are none. *)
Lemma negative_top_pages_selects_all_but_last :
  exists r w',
    research RefJson.loads RefJson.dumps demo_md5 demo_repr demo_http 0
      negative_top_cfg "rust" empty_world = (Ok r, w')
    /\ (c ← py_getitem (_raw negative_top_cfg) "search";
        py_getitem c "top_pages_to_fetch") = Ok (JInt (-1))
    /\ url <$> findings r = ["https://a.example/1"; "https://a.example/2"]
    /\ select_top (JInt (-1)) (finding_of_result <$> demo_results)
       = Ok [(0%nat, finding_of_result
                       {| sr_title := "First"; sr_url := "https://a.example/1";
                          sr_snippet := "first snippet"; position := 0 |})]
    /\ http_calls w' = ["https://a.example/1"]
    /\ relevant_urls r = ["https://a.example/1"].
Proof.
  do 2 eexists. split; [vm_compute; reflexivity|].
  split; [reflexivity|]. split; [reflexivity|]. split; [reflexivity|].
  split; reflexivity.
Qed.

(** C6, as stated, fails: the response [{}] is valid JSON and not a list,
    and the queries are the topic alone, not the three fallback queries. *)
Lemma non_list_response_gives_topic_only :
  let cfg := demo_cfg "{}" in
  llm_complete cfg (queries_prompt "rust") "" 512 = Ok "{}"
  /\ RefJson.loads (strip_fences "{}") = Some (JObj [])
  /\ _generate_queries RefJson.loads cfg "rust" empty_world
     = (Ok [JStr "rust"], empty_world)
  /\ fst (_generate_queries RefJson.loads cfg "rust" empty_world)
     <> Ok [JStr "rust"; JStr "rust announcement"; JStr "rust review"].
Proof.
  intros cfg. split; [reflexivity|]. split; [reflexivity|].
  split; [reflexivity|]. vm_compute. discriminate.
Qed.

Lemma generate_queries_cases_witness :
  let cfg := demo_cfg "not json" in
  llm_complete cfg (queries_prompt "rust") "" 512 = Ok "not json"
  /\ RefJson.loads (strip_fences "not json") = None
  /\ _generate_queries RefJson.loads cfg "rust" empty_world
     = (Ok [JStr "rust"; JStr "rust announcement"; JStr "rust review"],
        empty_world).
Proof.
  intros cfg.
  assert (llm_complete cfg (queries_prompt "rust") "" 512 = Ok "not json")
    as Hllm by reflexivity.
  assert (RefJson.loads (strip_fences "not json") = None) as Hbad
    by reflexivity.
  split; [exact Hllm|]. split; [exact Hbad|].
  destruct (generate_queries_cases RefJson.loads cfg "rust" "not json"
              empty_world Hllm) as (Hnone & _).
  exact (Hnone Hbad).
Defined.

Lemma extract_facts_raises_on_non_object_witness :
  let cfg := list_facts_cfg in
  exists found w,
    url <$> found = ["https://a.example/1"; "https://a.example/2"]
    /\ llm_complete cfg (facts_prompt "rust" found) "" 2048 = Ok "[1, 2]"
    /\ RefJson.loads (strip_fences "[1, 2]") = Some (JArr [JInt 1; JInt 2])
    /\ _extract_facts RefJson.loads cfg "rust" found w
       = (Raise AttributeError, w)
    /\ research RefJson.loads RefJson.dumps demo_md5 demo_repr demo_http 0
         cfg "rust" empty_world = (Raise AttributeError, w).
Proof.
  intros cfg.
  eassert (_generate_queries RefJson.loads cfg "rust" empty_world
           = (Ok _, _)) as Hq by (vm_compute; reflexivity).
  match type of Hq with
  | _ = (Ok ?queries, ?w1) =>
      eassert (gather (_search_cached RefJson.loads RefJson.dumps demo_md5
                         demo_repr 0 cfg <$> queries) w1 = (Ok _, _)) as Hg
        by (vm_compute; reflexivity)
  end.
  match type of Hg with
  | _ = (Ok ?results, ?w2) =>
      eassert (select_top (JInt 2) (unique_from ∅ (merge_results results))
               = Ok _) as Htop by (vm_compute; reflexivity);
      match type of Htop with
      | _ = Ok ?top =>
          eassert (fetch_all demo_md5 demo_http cfg top
                     (unique_from ∅ (merge_results results)) w2
                   = (Ok _, _)) as Hfetch by (vm_compute; reflexivity)
      end
  end.
  match type of Hfetch with
  | _ = (Ok ?found, ?w) =>
      destruct (extract_facts_raises_on_non_object RefJson.loads RefJson.dumps
                  demo_md5 demo_repr demo_http 0 cfg "rust" found w "[1, 2]"
                  (JArr [JInt 1; JInt 2]) eq_refl eq_refl
                  ltac:(discriminate)) as [Hfacts Hresearch];
      exists found, w
  end.
  split; [reflexivity|]. split; [reflexivity|]. split; [reflexivity|].
  split; [exact Hfacts|].
  exact (Hresearch _ _ _ _ _ _ _ Hq Hg eq_refl Htop Hfetch).
Defined.

Lemma generate_script_raises_on_invalid_json_witness :
  let cfg := demo_cfg "not json" in
  exists system user,
    script_prompts demo_repr cfg demo_research = Ok (system, user)
    /\ llm_complete cfg user system 8192 = Ok "not json"
    /\ RefJson.loads (strip_fences "not json") = None
    /\ generate_script RefJson.loads demo_repr cfg demo_research
       = Raise JSONDecodeError.
Proof.
  intros cfg.
  eassert (script_prompts demo_repr cfg demo_research = Ok (_, _)) as Hp
    by (vm_compute; reflexivity).
  do 2 eexists. split; [exact Hp|]. split; [reflexivity|].
  split; [reflexivity|].
  exact (generate_script_raises_on_invalid_json RefJson.loads demo_repr cfg
           demo_research _ _ "not json" Hp eq_refl eq_refl).
Defined.

(** * Further properties *)

(** ** Text *)

Lemma append_cons c (s t : string) : String c s +:+ t = String c (s +:+ t).
Proof. reflexivity. Qed.

Lemma append_nil_l (t : string) : "" +:+ t = t.
Proof. reflexivity. Qed.

Lemma append_nil_r (s : string) : s +:+ "" = s.
Proof.
  induction s as [|c s IH]; [done|]. by rewrite append_cons, IH.
Qed.

Lemma append_assoc (a b c : string) : (a +:+ b) +:+ c = a +:+ (b +:+ c).
Proof.
  induction a as [|x a IH]; [done|]. by rewrite !append_cons, IH.
Qed.

Lemma append_length (a b : string) :
  String.length (a +:+ b) = (String.length a + String.length b)%nat.
Proof.
  induction a as [|x a IH]; [done|]. rewrite append_cons. simpl. by rewrite IH.
Qed.

Lemma rstrip_app_keep (x y : string) :
  rstrip y <> "" -> rstrip (x +:+ y) = x +:+ rstrip y.
Proof.
  intros Hy. induction x as [|c x IH]; [done|].
  rewrite !append_cons. simpl. rewrite IH.
  destruct (x +:+ rstrip y) eqn:E; [|done].
  destruct x; [by rewrite append_nil_l in E|by rewrite append_cons in E].
Qed.

Lemma rstrip_app_drop (x y : string) :
  rstrip y = "" -> rstrip (x +:+ y) = rstrip x.
Proof.
  intros Hy. induction x as [|c x IH]; [done|].
  rewrite append_cons. simpl. by rewrite IH.
Qed.

Lemma rstrip_one (c : ascii) :
  is_space c = false -> rstrip (String c "") = String c "".
Proof. intros H. simpl. by rewrite H. Qed.

Lemma rstrip_cons_keep c s :
  is_space c = false -> rstrip (String c s) <> "".
Proof. intros H. simpl. destruct (rstrip s); [by rewrite H|done]. Qed.

Lemma split_ws_nonempty cur s : cur <> "" -> split_ws cur s <> [].
Proof.
  revert cur. induction s as [|c s IH]; intros cur Hcur; simpl.
  - by destruct cur.
  - destruct (is_space c); [by destruct cur|].
    apply IH. by destruct cur.
Qed.

Lemma join_cons_nonempty sep p rest :
  rest <> [] -> join sep (p :: rest) = p +:+ sep +:+ join sep rest.
Proof. by destruct rest. Qed.

(** The two facts behind the normal form, by one induction on the text:
    with a word [cur] being read, and after a run of whitespace. *)
Lemma collapse_words s :
  (forall cur, cur <> "" -> rstrip cur = cur ->
     rstrip (cur +:+ collapse_from false s) = join " " (split_ws cur s))
  /\ (forall cur, cur <> "" -> rstrip cur = cur ->
       rstrip (cur +:+ String " " (collapse_from true s))
       = join " " (cur :: split_ws "" s)).
Proof.
  induction s as [|c s [IHa IHc]].
  - split; intros cur Hne Hcur; simpl.
    + rewrite append_nil_r. by destruct cur.
    + rewrite rstrip_app_drop by done. done.
  - assert (forall cur, cur <> "" -> rstrip cur = cur -> is_space c = false ->
                rstrip (cur +:+ String c (collapse_from false s))
                = join " " (split_ws (cur +:+ String c "") s)) as Hstep.
    { intros cur Hne Hcur Hc.
      change (String c (collapse_from false s))
        with (String c "" +:+ collapse_from false s).
      rewrite <- append_assoc. apply IHa.
      - by destruct cur.
      - rewrite rstrip_app_keep; rewrite rstrip_one; done. }
    split; intros cur Hne Hcur; cbn [collapse_from split_ws];
      destruct (is_space c) eqn:Hc.
    + rewrite (IHc cur Hne Hcur). by destruct cur.
    + by apply Hstep.
    + by apply IHc.
    + rewrite append_nil_l.
      rewrite join_cons_nonempty by (by apply split_ws_nonempty).
      set (y := String c (collapse_from false s)).
      assert (rstrip y <> "") as Hy by (by apply rstrip_cons_keep).
      assert (rstrip y = join " " (split_ws (String c "") s)) as <-.
      { apply (IHa (String c "")); [done|by apply rstrip_one]. }
      change (String " " y) with (" " +:+ y).
      assert (rstrip (" " +:+ y) = " " +:+ rstrip y) as Hsp
        by (by apply rstrip_app_keep).
      rewrite rstrip_app_keep; rewrite Hsp; done.
Qed.

Lemma strip_collapse_from b s :
  strip (collapse_from b s) = join " " (split_ws "" s).
Proof.
  unfold strip. revert b. induction s as [|c s IH]; intros b; simpl; [done|].
  destruct (is_space c) eqn:Hc.
  - destruct b; simpl; apply IH.
  - simpl. rewrite Hc.
    destruct (collapse_words s) as [Ha _].
    apply (Ha (String c "")); [done|by apply rstrip_one].
Qed.

(** [re.sub(r"\s+", " ", s).strip()] is [" ".join(s.split())]. *)
Lemma strip_collapse_join s : strip (collapse_ws s) = join " " (py_split s).
Proof. apply strip_collapse_from. Qed.

Lemma take_str_length n s : (String.length (take_str n s) <= n)%nat.
Proof.
  revert s. induction n as [|n IH]; intros [|c s]; simpl; try lia.
  specialize (IH s). lia.
Qed.

Lemma all_chars_app p (a b : string) :
  all_chars p (a +:+ b) = all_chars p a && all_chars p b.
Proof.
  induction a as [|c a IH]; [done|].
  rewrite append_cons. simpl. rewrite IH. by rewrite andb_assoc.
Qed.

(** The words of [s.split()] are not empty and hold no whitespace. *)
Lemma split_ws_words s : forall cur,
  all_chars (fun c => negb (is_space c)) cur = true ->
  Forall (fun w => w <> "" /\ all_chars (fun c => negb (is_space c)) w = true)
    (split_ws cur s).
Proof.
  induction s as [|c s IH]; intros cur Hcur; simpl.
  - destruct cur; [constructor|]. by repeat constructor.
  - destruct (is_space c) eqn:Hc.
    + destruct cur; [by apply IH|]. constructor; [done|by apply IH].
    + apply IH. rewrite all_chars_app, Hcur. simpl. by rewrite Hc.
Qed.

(** X1: the narration text that [_extract_markers] returns is its own words
    joined by single spaces (no whitespace at either end, none but single
    spaces inside), these words are the words of the narration without its
    cue spans, and normalising its whitespace again ([re.sub] of [\s+] and
    [strip]) changes nothing; so it is for every section of a script built
    by [_parse]. *)
Theorem clean_text_normal_form :
  (forall narration sid,
     let clean := snd (_extract_markers narration sid) in
     clean = join " " (py_split (re_sub match_cue "" narration))
     /\ clean = join " " (py_split clean)
     /\ strip (collapse_ws clean) = clean
     /\ Forall (fun w => w <> ""
                  /\ all_chars (fun c => negb (is_space c)) w = true)
          (py_split clean))
  /\ (forall wpm tpc data script,
        _parse wpm tpc data = Ok script ->
        Forall (fun sec =>
                  narration_text sec = join " " (py_split (narration_text sec)))
          (sections script)).
Proof.
  assert (forall narration sid,
            let clean := snd (_extract_markers narration sid) in
            clean = join " " (py_split (re_sub match_cue "" narration))
            /\ clean = join " " (py_split clean)) as Hnf.
  { intros narration sid clean. subst clean. unfold _extract_markers. simpl.
    split; [apply strip_collapse_join|].
    rewrite py_split_normalise. apply strip_collapse_join. }
  split.
  - intros narration sid clean. destruct (Hnf narration sid) as [H1 H2].
    split; [exact H1|]. split; [exact H2|]. split.
    + rewrite strip_collapse_join. symmetry. exact H2.
    + by apply split_ws_words.
  - intros wpm tpc data script (sj & raws & _ & _ & Hb & _)%parse_Ok.
    induction Hb as [|raw sec raws secs Hraw _ IH]; constructor; [|exact IH].
    destruct Hraw as (narration & sid & _ & _ & _ & Hclean & _).
    destruct (Hnf narration sid) as [_ H2].
    unfold _extract_markers in H2. simpl in H2. by rewrite Hclean.
Qed.

(** X2 (text of a page): the text kept for a page has at most 8000
    characters and is the beginning of a text made of words without
    whitespace, joined by single spaces. *)
Theorem html_to_text_bounded html :
  (Z.of_nat (String.length (html_to_text html)) <= 8000)%Z
  /\ exists words,
       html_to_text html = take_str (Z.to_nat 8000) (join " " words)
       /\ Forall (fun w => w <> ""
                    /\ all_chars (fun c => negb (is_space c)) w = true) words.
Proof.
  unfold html_to_text. split.
  - pose proof (take_str_length (Z.to_nat 8000)
      (strip (collapse_ws (re_sub match_tag " "
         (re_sub (match_element "script") " "
            (re_sub (match_element "style") " " html)))))). lia.
  - eexists. split; [by rewrite strip_collapse_join|].
    by apply split_ws_words.
Qed.

(** ** Markers *)

Lemma finditer_from_groups m s : forall skip pos p,
  p ∈ finditer_from m skip pos s -> exists t len, m t = Some (snd p, len).
Proof.
  induction s as [|c s IH]; intros skip pos p Hp; simpl in Hp.
  - by apply elem_of_nil in Hp.
  - destruct skip as [|k]; [|by eapply IH].
    destruct (m (String c s)) as [[g len]|] eqn:Hm; [|by eapply IH].
    apply elem_of_cons in Hp as [->|Hp]; [eauto|by eapply IH].
Qed.

Lemma match_screenshot_group t g len :
  match_screenshot t = Some (g, len) ->
  exists body, g = "http://" +:+ body \/ g = "https://" +:+ body.
Proof.
  unfold match_screenshot. intros H.
  apply bind_Some in H as (rest & _ & H).
  apply bind_Some in H as (r2 & _ & H).
  destruct (strip_prefix "s" r2) as [r|].
  - apply bind_Some in H as (r4 & _ & H).
    destruct (span_until rbracket r4) as [body after].
    destruct body; [done|]. destruct after; [done|].
    injection H as <- _. eexists. by right.
  - apply bind_Some in H as (r4 & _ & H).
    destruct (span_until rbracket r4) as [body after].
    destruct body; [done|]. destruct after; [done|].
    injection H as <- _. eexists. by left.
Qed.

Lemma rstrip_keeps_prefix (p b : string) :
  rstrip p = p -> exists r, rstrip (p +:+ b) = p +:+ r.
Proof.
  intros Hp. destruct (rstrip b) eqn:Hb.
  - exists "". by rewrite rstrip_app_drop, append_nil_r.
  - eexists. apply rstrip_app_keep. by rewrite Hb.
Qed.

(** X3: every marker that [_extract_markers] returns carries the section id
    it was given; a screenshot marker has no description and a URL that
    begins with [http://] or [https://]; a visual marker has a description
    and no URL. *)
Theorem markers_well_formed narration sid m :
  m ∈ fst (_extract_markers narration sid) ->
  marker_section_id m = sid
  /\ match marker_type m with
     | Screenshot =>
         description m = None
         /\ exists rest, marker_url m = Some ("http://" +:+ rest)
                         \/ marker_url m = Some ("https://" +:+ rest)
     | Visual => marker_url m = None /\ exists d, description m = Some d
     end.
Proof.
  unfold _extract_markers, findall. simpl.
  intros [Hm|Hm]%elem_of_app.
  - apply list_elem_of_fmap in Hm as (g & -> & Hg).
    apply list_elem_of_fmap in Hg as (p & -> & Hp).
    split; [done|]. simpl. split; [done|].
    apply finditer_from_groups in Hp as (t & len & Hmatch).
    apply match_screenshot_group in Hmatch as (body & [->| ->]); unfold strip.
    + destruct (rstrip_keeps_prefix "http://" body eq_refl) as (r & Hr).
      exists r. left. f_equal. exact Hr.
    + destruct (rstrip_keeps_prefix "https://" body eq_refl) as (r & Hr).
      exists r. right. f_equal. exact Hr.
  - apply list_elem_of_fmap in Hm as (g & -> & Hg).
    split; [done|]. simpl. eauto.
Qed.

Lemma markers_well_formed_witness :
  let m := screenshot_marker (JStr "intro") "https://a.example/1" in
  m ∈ fst (_extract_markers demo_narration (JStr "intro"))
  /\ marker_section_id m = JStr "intro".
Proof.
  intros m.
  assert (m ∈ fst (_extract_markers demo_narration (JStr "intro"))) as Hin.
  { assert (fst (_extract_markers demo_narration (JStr "intro"))
            = [m; visual_marker (JStr "intro") "chart of growth"]) as ->
      by (vm_compute; reflexivity).
    by left. }
  split; [exact Hin|].
  exact (proj1 (markers_well_formed demo_narration (JStr "intro") m Hin)).
Defined.

Lemma no_bracket_no_match (m : string -> option (string * nat)) :
  (forall c t, Ascii.eqb c "[" = false -> m (String c t) = None) ->
  forall rep s pos,
    contains_char "[" s = false ->
    finditer_from m 0 pos s = [] /\ sub_from m rep 0 s = s.
Proof.
  intros Hm rep s. induction s as [|c s IH]; intros pos Hs; [done|].
  simpl in Hs. apply orb_false_iff in Hs as [Hc Hs].
  simpl. rewrite (Hm c s Hc). destruct (IH (S pos) Hs) as [-> ->]. done.
Qed.

Lemma strip_prefix_bracket p c t :
  Ascii.eqb c "[" = false -> strip_prefix (String "[" p) (String c t) = None.
Proof.
  intros Hc.
  change (strip_prefix (String "[" p) (String c t))
    with (if Ascii.eqb "[" c then strip_prefix p t else None).
  rewrite Ascii.eqb_sym in Hc. by rewrite Hc.
Qed.

(** X4: a narration without an opening bracket (the empty one among them)
    has no marker, and its text is its words joined by single spaces. *)
Theorem narration_without_cues narration sid :
  contains_char "[" narration = false ->
  _extract_markers narration sid = ([], join " " (py_split narration)).
Proof.
  intros Hn. unfold _extract_markers, findall, finditer, re_sub.
  destruct (no_bracket_no_match match_screenshot) with (rep := "")
    (s := narration) (pos := 0%nat) as [-> _]; [|done|].
  { intros c t Hc. unfold match_screenshot.
    by rewrite (strip_prefix_bracket _ c t Hc). }
  destruct (no_bracket_no_match match_visual) with (rep := "")
    (s := narration) (pos := 0%nat) as [-> _]; [|done|].
  { intros c t Hc. unfold match_visual.
    by rewrite (strip_prefix_bracket _ c t Hc). }
  destruct (no_bracket_no_match match_cue) with (rep := "")
    (s := narration) (pos := 0%nat) as [_ ->]; [|done|].
  { intros c t Hc. unfold match_cue.
    by rewrite !(strip_prefix_bracket _ c t Hc). }
  simpl. by rewrite strip_collapse_join.
Qed.

Lemma narration_without_cues_witness :
  contains_char "[" "  Plain   words only " = false
  /\ _extract_markers "  Plain   words only " JNull
     = ([], "Plain words only").
Proof.
  split; [reflexivity|].
  exact (narration_without_cues "  Plain   words only " JNull eq_refl).
Defined.

(** ** The sections of a script *)

Lemma parse_section_returns wpm secs t raw :
  raw_section_ok raw -> wpm <> 0%Z ->
  exists sec,
    parse_section wpm (secs, t) raw
    = Ok (secs ++ [sec], (t + estimated_duration_seconds sec)%Q).
Proof.
  intros (fields & -> & [sid Hsid] & Hn) Hw.
  unfold parse_section, py_get, py_getitem. rewrite Hsid.
  assert (exists n, default (JStr "") (dict_get "narration_text" fields)
                    = JStr n) as (n & ->).
  { destruct Hn as [->|(n & ->)]; simpl; eauto. }
  simpl. destruct (_extract_markers n sid) as [markers clean].
  unfold duration_of. destruct (Z.eqb_spec wpm 0) as [|_]; [done|].
  simpl. eexists (Build_ScriptSection _ _ _ _ _ _ _). reflexivity.
Qed.

Lemma parse_section_accepts wpm secs t raw st' :
  parse_section wpm (secs, t) raw = Ok st' ->
  raw_section_ok raw /\ wpm <> 0%Z
  /\ exists sec,
       st' = (secs ++ [sec], (t + estimated_duration_seconds sec)%Q)
       /\ py_getitem raw "section_id" = Ok (section_id sec)
       /\ py_get raw "section_type" (JStr "main") = Ok (section_type sec)
       /\ py_get raw "title" (JStr "") = Ok (section_title sec).
Proof.
  unfold parse_section. intros H. res_inv H.
  destruct a; simpl in Ha1; try discriminate. injection Ha1 as ->.
  apply duration_of_Ok in Ha2 as [Hw _].
  destruct raw as [| | | | | |fields]; try discriminate.
  unfold py_get, py_getitem in *.
  destruct (dict_get "section_id" fields) as [sid|] eqn:Hsid; [|done].
  injection Ha0 as <-. injection Ha3 as <-. injection H as <-.
  split; [|split; [done|]].
  - exists fields. split; [done|]. split; [by rewrite Hsid|].
    injection Ha as Hn.
    destruct (dict_get "narration_text" fields) as [v|]; [|by left].
    right. simpl in Hn. subst v. eauto.
  - eexists (Build_ScriptSection _ _ _ _ _ _ _). split; [reflexivity|].
    simpl. by rewrite Ha4, Ha5.
Qed.

Lemma parse_loop_returns wpm raws : forall secs t,
  Forall raw_section_ok raws -> (raws = [] \/ wpm <> 0%Z) ->
  exists news t',
    parse_loop wpm (secs, t) raws = Ok (secs ++ news, t')
    /\ length news = length raws.
Proof.
  induction raws as [|raw raws IH]; intros secs t Hok Hw.
  - exists [], t. by rewrite app_nil_r.
  - destruct Hw as [|Hw]; [done|].
    apply Forall_cons in Hok as [Hraw Hok].
    destruct (parse_section_returns wpm secs t raw Hraw Hw) as (sec & Hsec).
    destruct (IH (secs ++ [sec]) (t + estimated_duration_seconds sec)%Q Hok)
      as (news & t' & Hloop & Hlen); [by right|].
    exists (sec :: news), t'. cbn [parse_loop]. rewrite Hsec.
    cbn [mbind res_bind]. rewrite Hloop.
    rewrite <- app_assoc. simpl. by rewrite Hlen.
Qed.

Lemma parse_loop_accepts wpm raws : forall secs t secs' t',
  parse_loop wpm (secs, t) raws = Ok (secs', t') ->
  Forall raw_section_ok raws /\ (raws = [] \/ wpm <> 0%Z)
  /\ exists news,
       secs' = secs ++ news
       /\ Forall2 (fun raw sec =>
            py_getitem raw "section_id" = Ok (section_id sec)
            /\ py_get raw "section_type" (JStr "main") = Ok (section_type sec)
            /\ py_get raw "title" (JStr "") = Ok (section_title sec))
            raws news.
Proof.
  induction raws as [|raw raws IH]; intros secs t secs' t' H; simpl in H.
  - injection H as <- <-. split; [constructor|]. split; [by left|].
    exists []. by rewrite app_nil_r.
  - apply bind_Ok in H as ([secs1 t1] & H1 & H).
    apply parse_section_accepts in H1
      as (Hraw & Hw & sec & [= -> ->] & Hid & Hty & Htt).
    apply IH in H as (Hok & _ & news & -> & Hall).
    split; [by constructor|]. split; [by right|].
    exists (sec :: news). rewrite <- app_assoc. split; [done|].
    by constructor.
Qed.

(** X5: [_parse] returns a script exactly when the decoded response is a
    dict whose [sections] (a missing key counting as the empty list) can be
    iterated into raw sections that are all dicts with a [section_id] and a
    narration that is a [str] or absent, and the words-per-minute rate is
    not 0 unless there is no section. *)
Theorem parse_returns_iff wpm tpc data :
  returns (_parse wpm tpc data) <->
  exists sj raws,
    py_get data "sections" (JArr []) = Ok sj /\ py_iter sj = Ok raws
    /\ Forall raw_section_ok raws /\ (raws = [] \/ wpm <> 0%Z).
Proof.
  unfold returns, _parse. split.
  - intros (script & H). res_inv H.
    match goal with
    | Hl : parse_loop _ _ _ = Ok _ |- _ =>
        apply parse_loop_accepts in Hl as (Hok & Hw & _)
    end.
    eauto 10.
  - intros (sj & raws & Hsj & Hraws & Hok & Hw).
    destruct data as [| | | | | |fields]; try discriminate.
    rewrite Hsj. cbn [mbind res_bind]. rewrite Hraws. cbn [mbind res_bind].
    destruct (parse_loop_returns wpm raws [] 0%Q Hok Hw)
      as (news & t' & -> & _).
    simpl. eauto.
Qed.

(** X6: every section of a script built by [_parse] carries the
    [section_id] of its raw section (the generated id [s<n>] is never used)
    and its type and title, [main] and the empty title when the raw section
    has none; sections and raw sections correspond one to one, in order. *)
Theorem parse_section_identity wpm tpc data script :
  _parse wpm tpc data = Ok script ->
  exists sj raws,
    py_get data "sections" (JArr []) = Ok sj /\ py_iter sj = Ok raws
    /\ length (sections script) = length raws
    /\ Forall2 (fun raw sec =>
         py_getitem raw "section_id" = Ok (section_id sec)
         /\ py_get raw "section_type" (JStr "main") = Ok (section_type sec)
         /\ py_get raw "title" (JStr "") = Ok (section_title sec))
         raws (sections script).
Proof.
  unfold _parse. intros H. res_inv H. injection H as <-. simpl.
  match goal with
  | Hl : parse_loop _ _ _ = Ok _ |- _ =>
      apply parse_loop_accepts in Hl as (_ & _ & news & -> & Hall)
  end.
  do 2 eexists. split; [done|]. split; [done|]. simpl. split; [|done].
  symmetry. by eapply Forall2_length.
Qed.

Lemma parse_section_identity_witness :
  exists script,
    _parse 150 "demo" demo_script_json = Ok script
    /\ section_id <$> sections script
       = [JStr "intro"; JStr "beat"; JStr "outro"]
    /\ section_type <$> sections script
       = [JStr "main"; JStr "main"; JStr "outro"].
Proof.
  eexists. split; [vm_compute; reflexivity|].
  match goal with
  | |- context [sections ?s] =>
      destruct (parse_section_identity 150 "demo" demo_script_json s)
        as (sj & raws & _ & _ & _ & _); [vm_compute; reflexivity|]
  end.
  split; reflexivity.
Defined.

Lemma parse_loop_raises wpm good : forall secs t bad rest e,
  Forall raw_section_ok good -> wpm <> 0%Z ->
  (forall secs' t', parse_section wpm (secs', t') bad = Raise e) ->
  parse_loop wpm (secs, t) (good ++ bad :: rest) = Raise e.
Proof.
  induction good as [|raw good IH]; intros secs t bad rest e Hok Hw Hbad.
  - cbn [app parse_loop]. by rewrite Hbad.
  - apply Forall_cons in Hok as [Hraw Hok].
    destruct (parse_section_returns wpm secs t raw Hraw Hw) as (sec & Hsec).
    cbn [app parse_loop]. rewrite Hsec. cbn [mbind res_bind]. by apply IH.
Qed.

(** X7: the first raw section that [_parse] cannot accept decides its
    exception. After well-formed sections, a dict without [section_id]
    raises [KeyError] for that key, whatever follows; and with a rate of 0
    the first section, when it is well-formed, raises
    [ZeroDivisionError]. *)
Theorem parse_errors wpm tpc data sj :
  py_get data "sections" (JArr []) = Ok sj ->
  (forall good fields rest,
     py_iter sj = Ok (good ++ JObj fields :: rest) ->
     Forall raw_section_ok good -> (good = [] \/ wpm <> 0%Z) ->
     dict_get "section_id" fields = None ->
     _parse wpm tpc data = Raise (KeyError "section_id"))
  /\ (forall raw rest,
        py_iter sj = Ok (raw :: rest) -> raw_section_ok raw -> wpm = 0%Z ->
        _parse wpm tpc data = Raise ZeroDivisionError).
Proof.
  intros Hsj. split.
  - intros good fields rest Hraws Hok Hw Hmissing.
    unfold _parse. rewrite Hsj. simpl. rewrite Hraws. simpl.
    assert (forall secs' t',
              parse_section wpm (secs', t') (JObj fields)
              = Raise (KeyError "section_id")) as Hbad.
    { intros secs' t'. unfold parse_section, py_get, py_getitem.
      by rewrite Hmissing. }
    destruct Hw as [->|Hw].
    + cbn [app parse_loop]. by rewrite Hbad.
    + by rewrite (parse_loop_raises wpm good [] 0%Q _ rest _ Hok Hw Hbad).
  - intros raw rest Hraws (fields & -> & [sid Hsid] & Hn) ->.
    unfold _parse. rewrite Hsj. simpl. rewrite Hraws. simpl.
    unfold parse_section, py_get, py_getitem. rewrite Hsid.
    assert (exists n, default (JStr "") (dict_get "narration_text" fields)
                      = JStr n) as (n & ->).
    { destruct Hn as [->|(n & ->)]; simpl; eauto. }
    simpl. by destruct (_extract_markers n sid).
Qed.

Lemma parse_errors_witness :
  let data :=
    JObj [("sections",
           JArr [JObj [("section_id", JStr "a"); ("narration_text", JStr "x")];
                 JObj [("narration_text", JStr "no id")]])] in
  _parse 150 "demo" data = Raise (KeyError "section_id")
  /\ _parse 0 "demo" data = Raise ZeroDivisionError.
Proof.
  intros data.
  destruct (parse_errors 150 "demo" data _ eq_refl) as [Hkey _].
  destruct (parse_errors 0 "demo" data _ eq_refl) as [_ Hzero].
  assert (raw_section_ok
            (JObj [("section_id", JStr "a"); ("narration_text", JStr "x")]))
    as Hok.
  { eexists. split; [done|]. split; [by eexists|]. right. by eexists. }
  split.
  - apply (Hkey [JObj [("section_id", JStr "a"); ("narration_text", JStr "x")]]
             [("narration_text", JStr "no id")] []); try done.
    + by repeat constructor.
    + by right.
  - by eapply Hzero.
Defined.

(** ** Code fences *)

Lemma rev_app_spec (a b : string) : String.rev_app a b = String.rev a +:+ b.
Proof.
  unfold String.rev. revert b. induction a as [|c a IH]; intros b; [done|].
  simpl. rewrite (IH (String c b)), (IH (String c "")).
  by rewrite append_assoc.
Qed.

Lemma rev_cons c (s : string) : String.rev (String c s) = String.rev s +:+ String c "".
Proof. unfold String.rev at 1. simpl. apply rev_app_spec. Qed.

Lemma rev_app (a b : string) : String.rev (a +:+ b) = String.rev b +:+ String.rev a.
Proof.
  induction a as [|c a IH].
  - by rewrite append_nil_l, append_nil_r.
  - by rewrite append_cons, !rev_cons, IH, append_assoc.
Qed.

Lemma rev_involutive (s : string) : String.rev (String.rev s) = s.
Proof.
  induction s as [|c s IH]; [done|]. by rewrite rev_cons, rev_app, IH.
Qed.

Lemma lstrip_app_keep (x y : string) :
  lstrip x <> "" -> lstrip (x +:+ y) = lstrip x +:+ y.
Proof.
  induction x as [|c x IH]; intros Hx; [done|].
  rewrite append_cons. simpl in *. destruct (is_space c); [by apply IH|done].
Qed.

Lemma lstrip_app_drop (x y : string) :
  lstrip x = "" -> lstrip (x +:+ y) = lstrip y.
Proof.
  induction x as [|c x IH]; intros Hx; [done|].
  rewrite append_cons. simpl in *. destruct (is_space c); [by apply IH|done].
Qed.

Lemma rev_eq_nil (s : string) : String.rev s = "" -> s = "".
Proof.
  destruct s as [|c s]; [done|]. rewrite rev_cons.
  by destruct (String.rev s).
Qed.

(** Stripping on the right is stripping the reversed text on the left. *)
Lemma rev_rstrip (s : string) : String.rev (rstrip s) = lstrip (String.rev s).
Proof.
  induction s as [|c s IH]; [done|].
  rewrite rev_cons. simpl. destruct (rstrip s) as [|c' r] eqn:Hr.
  - rewrite lstrip_app_drop by (by rewrite <- IH).
    simpl. by destruct (is_space c).
  - rewrite lstrip_app_keep.
    + by rewrite <- IH, rev_cons.
    + rewrite <- IH. intros H%rev_eq_nil. done.
Qed.

(** The text between a fence and its closing fence, for a text without
    whitespace at either end. *)
Lemma strip_fences_after_open body :
  lstrip body = body -> rstrip body = body ->
  (let s1 := body +:+ nl +:+ "```" in
   match strip_prefix "```" (String.rev s1) with
   | Some r => String.rev (lstrip r)
   | None => s1
   end) = body.
Proof.
  intros Hl Hr. cbv zeta.
  assert (String.rev (body +:+ nl +:+ "```")
          = "```" +:+ nl +:+ String.rev body) as ->.
  { rewrite !rev_app. by rewrite append_assoc. }
  assert (strip_prefix "```" ("```" +:+ nl +:+ String.rev body)
          = Some (nl +:+ String.rev body)) as -> by reflexivity.
  assert (lstrip (nl +:+ String.rev body) = lstrip (String.rev body)) as ->
    by reflexivity.
  rewrite <- rev_rstrip, Hr. apply rev_involutive.
Qed.

Lemma rstrip_fenced (x : string) : rstrip (x +:+ "```") = x +:+ "```".
Proof. by rewrite rstrip_app_keep. Qed.

Lemma lstrip_body_fence (body : string) :
  body <> "" -> lstrip body = body ->
  lstrip (nl +:+ body +:+ nl +:+ "```") = body +:+ nl +:+ "```".
Proof.
  intros Hne Hl. change (lstrip (nl +:+ body +:+ nl +:+ "```"))
    with (lstrip (body +:+ nl +:+ "```")).
  rewrite lstrip_app_keep; rewrite Hl; done.
Qed.

(** X8: a response wrapped in a code fence, with or without the [json]
    tag, is unwrapped to exactly the text between the fences when that text
    has no whitespace at either end; and a text without whitespace at
    either end that neither begins nor ends with a fence is left as it is.
    So [_generate_queries], [_extract_facts] and [generate_script] decode a
    fenced response as they decode the bare one. *)
Theorem strip_fences_unwraps body :
  lstrip body = body -> rstrip body = body ->
  strip_fences ("```json" +:+ nl +:+ body +:+ nl +:+ "```") = body
  /\ strip_fences ("```" +:+ nl +:+ body +:+ nl +:+ "```") = body
  /\ (strip_prefix "```" body = None ->
      strip_prefix "```" (String.rev body) = None ->
      strip_fences body = body).
Proof.
  intros Hl Hr. split; [|split].
  1-2: destruct (decide (body = "")) as [-> | Hne]; [reflexivity|].
  - assert (strip ("```json" +:+ nl +:+ body +:+ nl +:+ "```")
            = "```json" +:+ nl +:+ body +:+ nl +:+ "```") as Hs.
    { unfold strip.
      assert (lstrip ("```json" +:+ nl +:+ body +:+ nl +:+ "```")
              = "```json" +:+ nl +:+ body +:+ nl +:+ "```") as -> by reflexivity.
      rewrite <- !append_assoc. apply rstrip_fenced. }
    unfold strip_fences. rewrite Hs.
    assert (strip_prefix "```" ("```json" +:+ nl +:+ body +:+ nl +:+ "```")
            = Some ("json" +:+ nl +:+ body +:+ nl +:+ "```")) as -> by reflexivity.
    assert (strip_prefix "json" ("json" +:+ nl +:+ body +:+ nl +:+ "```")
            = Some (nl +:+ body +:+ nl +:+ "```")) as -> by reflexivity.
    cbn [default from_option]. unfold id. rewrite (lstrip_body_fence body Hne Hl).
    by apply strip_fences_after_open.
  - assert (strip ("```" +:+ nl +:+ body +:+ nl +:+ "```")
            = "```" +:+ nl +:+ body +:+ nl +:+ "```") as Hs.
    { unfold strip.
      assert (lstrip ("```" +:+ nl +:+ body +:+ nl +:+ "```")
              = "```" +:+ nl +:+ body +:+ nl +:+ "```") as -> by reflexivity.
      rewrite <- !append_assoc. apply rstrip_fenced. }
    unfold strip_fences. rewrite Hs.
    assert (strip_prefix "```" ("```" +:+ nl +:+ body +:+ nl +:+ "```")
            = Some (nl +:+ body +:+ nl +:+ "```")) as -> by reflexivity.
    assert (strip_prefix "json" (nl +:+ body +:+ nl +:+ "```") = None) as ->
      by reflexivity.
    cbn [default from_option]. unfold id. rewrite (lstrip_body_fence body Hne Hl).
    by apply strip_fences_after_open.
  - intros Hopen Hclose. unfold strip_fences, strip.
    rewrite Hl, Hr, Hopen, Hclose. done.
Qed.

Lemma strip_fences_unwraps_witness :
  let body := "[1, 2]" in
  lstrip body = body /\ rstrip body = body
  /\ strip_fences ("```json" +:+ nl +:+ body +:+ nl +:+ "```") = body
  /\ strip_fences body = body.
Proof.
  intros body.
  destruct (strip_fences_unwraps body eq_refl eq_refl) as (H1 & _ & H3).
  split; [reflexivity|]. split; [reflexivity|]. split; [exact H1|].
  apply H3; reflexivity.
Defined.

(** ** Runs of the research service *)

Lemma M_bind_inv {A B : Type} (m : M A) (k : A -> M B) w out w' :
  (m ≫= k) w = (out, w') ->
  (exists e, m w = (Raise e, w') /\ out = Raise e)
  \/ (exists a w1, m w = (Ok a, w1) /\ k a w1 = (out, w')).
Proof.
  unfold mbind, M_bind. destruct (m w) as [[a|e] w1]; [eauto|].
  intros [= <- <-]. eauto.
Qed.

Lemma extract_facts_urls json_loads cfg tpc found w r w' :
  _extract_facts json_loads cfg tpc found w = (Ok r, w') ->
  findings r = found
  /\ relevant_urls r = url <$> filter (fun f => has_content f = true) found.
Proof.
  intros H. unfold _extract_facts in H.
  apply M_bind_Ok in H as (text & w1 & _ & H).
  apply lift_Ok in H as [H _]. res_inv H. by injection H as <-.
Qed.

Section ResearchRuns.

Variable json_loads : string -> option JSON.
Variable json_dumps : JSON -> string.
Variable md5_hex : string -> string.
Variable py_repr : JSON -> string.
Variable default_relevance_score : Q.

Local Abbreviation search_cached :=
  (_search_cached json_loads json_dumps md5_hex py_repr default_relevance_score).
Local Abbreviation cache_path := (search_cache_path md5_hex py_repr).
Local Abbreviation page_path := (page_cache_path md5_hex).
Local Abbreviation run_research :=
  (research json_loads json_dumps md5_hex py_repr).

(** X9: when [_fetch_content] misses the page cache and the server answers
    200, the finding gets the text of the page, the text is written to the
    cache file of the URL, and one request is sent; from then on every
    fetch of a finding with that URL while the file is in place gives the
    same text and leaves the world as it is, whatever the server would
    answer: no request is sent. *)
Theorem page_cache_round_trip http_get cfg f w html :
  files w !! page_path cfg (url f) = None ->
  http_get (url f) = Ok (200%Z, html) ->
  let text := html_to_text html in
  exists w1,
    _fetch_content md5_hex http_get cfg f w = (Ok (with_content f text), w1)
    /\ files w1 = <[page_path cfg (url f) := text]> (files w)
    /\ http_calls w1 = http_calls w ++ [url f]
    /\ search_calls w1 = search_calls w
    /\ forall http_get' cfg' g w2,
         url g = url f -> cache_dir cfg' = cache_dir cfg ->
         files w2 !! page_path cfg (url f) = files w1 !! page_path cfg (url f) ->
         _fetch_content md5_hex http_get' cfg' g w2
         = (Ok (with_content g text), w2).
Proof.
  intros Hmiss Hget text.
  eexists. split.
  { unfold _fetch_content, mbind at 1, M_bind, read_file.
    rewrite Hmiss, Hget. reflexivity. }
  simpl. split; [done|]. split; [done|]. split; [done|].
  intros http_get' cfg' g w2 Hurl Hdir Hfile.
  rewrite lookup_insert_eq in Hfile.
  unfold _fetch_content, mbind at 1, M_bind, read_file.
  assert (page_path cfg' (url g) = page_path cfg (url f)) as ->.
  { unfold page_cache_path, cache_root. by rewrite Hurl, Hdir. }
  by rewrite Hfile.
Qed.

(** X10: when [_fetch_content] misses the page cache and the request does
    not give status 200 (another status, or an exception of the request),
    the finding comes back as it was and no file is written: the failure is
    not cached, the one request is all that the outside sees. *)
Theorem failed_fetch_leaves_no_trace http_get cfg f w :
  files w !! page_path cfg (url f) = None ->
  (forall html, http_get (url f) <> Ok (200%Z, html)) ->
  exists w1,
    _fetch_content md5_hex http_get cfg f w = (Ok f, w1)
    /\ files w1 = files w
    /\ http_calls w1 = http_calls w ++ [url f]
    /\ search_calls w1 = search_calls w.
Proof.
  intros Hmiss Hfail.
  unfold _fetch_content, mbind at 1, M_bind, read_file. rewrite Hmiss.
  destruct (http_get (url f)) as [[status html]|e] eqn:Hget.
  - destruct (Z.eqb_spec status 200) as [-> | Hne].
    + by destruct (Hfail html).
    + eexists. split; [reflexivity|]. done.
  - eexists. split; [reflexivity|]. done.
Qed.

(** A miss of the search cache with a configuration that lacks
    [search.max_results], or with a provider that raises. *)
Lemma search_miss_without_config cfg q w e :
  files w !! cache_path cfg q = None ->
  (c ← py_getitem (_raw cfg) "search"; py_getitem c "max_results") = Raise e ->
  search_cached cfg q w = (Raise e, w).
Proof.
  intros Hmiss He. unfold _search_cached, mbind at 1, M_bind, read_file.
  rewrite Hmiss. unfold mbind at 1, M_bind, lift. by rewrite He.
Qed.

Lemma search_miss_provider_raises cfg q w max_results e :
  files w !! cache_path cfg q = None ->
  (c ← py_getitem (_raw cfg) "search"; py_getitem c "max_results")
  = Ok max_results ->
  search cfg q max_results = Raise e ->
  exists w1,
    search_cached cfg q w = (Raise e, w1)
    /\ files w1 = files w
    /\ search_calls w1 = search_calls w ++ [q]
    /\ http_calls w1 = http_calls w.
Proof.
  intros Hmiss Hmax Hsearch.
  unfold _search_cached, mbind at 1, M_bind, read_file.
  rewrite Hmiss. unfold mbind at 1, M_bind, lift. rewrite Hmax.
  unfold mbind at 1, M_bind, call_search. rewrite Hsearch.
  eexists. split; [reflexivity|]. done.
Qed.

(** X11: on a cache miss, [_search_cached] raises the [KeyError] of a
    configuration without [search.max_results] before the provider is
    asked, and otherwise lets an exception of the provider through after
    asking it once; in both cases no cache file is written. *)
Theorem failed_search_is_not_cached cfg q w :
  files w !! cache_path cfg q = None ->
  (forall e,
     (c ← py_getitem (_raw cfg) "search"; py_getitem c "max_results") = Raise e ->
     search_cached cfg q w = (Raise e, w))
  /\ (forall max_results e,
        (c ← py_getitem (_raw cfg) "search"; py_getitem c "max_results")
        = Ok max_results ->
        search cfg q max_results = Raise e ->
        exists w1,
          search_cached cfg q w = (Raise e, w1)
          /\ files w1 = files w
          /\ search_calls w1 = search_calls w ++ [q]
          /\ http_calls w1 = http_calls w).
Proof.
  intros Hmiss. split.
  - intros e. by apply search_miss_without_config.
  - intros max_results e. by apply search_miss_provider_raises.
Qed.

(** X12: when the cache file of a query exists, [_search_cached] never asks
    the provider and changes nothing, whatever the file holds: a file that
    is not valid JSON makes the call raise [JSONDecodeError] (it is not
    repaired), and the outcome is the same for every configuration with
    that provider name and cache directory. *)
Theorem cache_hit_never_searches cfg q w text :
  files w !! search_cache_path md5_hex py_repr cfg q = Some text ->
  snd (_search_cached json_loads json_dumps md5_hex py_repr
         default_relevance_score cfg q w) = w
  /\ (json_loads text = None ->
      search_cached cfg q w = (Raise JSONDecodeError, w))
  /\ (forall cfg',
        search_provider_name cfg' = search_provider_name cfg ->
        cache_dir cfg' = cache_dir cfg ->
        search_cached cfg' q w = search_cached cfg q w).
Proof.
  intros Hhit.
  rewrite (search_cached_hit json_loads json_dumps md5_hex py_repr
             default_relevance_score cfg q w text Hhit).
  split; [done|]. split.
  - intros Hbad. unfold py_json_loads. by rewrite Hbad.
  - intros cfg' Hname Hdir.
    apply search_cached_hit.
    assert (cache_path cfg' q = cache_path cfg q) as ->; [|done].
    unfold search_cache_path, cache_root. by rewrite Hname, Hdir.
Qed.

(** What any call of [_search_cached] can tell the outside. *)
Lemma search_cached_trace cfg q w out w' :
  search_cached cfg q w = (out, w') ->
  http_calls w' = http_calls w
  /\ (search_calls w' = search_calls w \/ search_calls w' = search_calls w ++ [q]).
Proof.
  unfold _search_cached. intros H.
  apply M_bind_inv in H as [(e & H & _) | (cached & w1 & Hread & H)].
  { unfold read_file in H. discriminate. }
  unfold read_file in Hread. injection Hread as <- <-.
  destruct (files w !! _) as [text|].
  { unfold lift in H. injection H as _ <-. auto. }
  apply M_bind_inv in H as [(e & H & _) | (m & w1 & Hm & H)].
  { unfold lift in H. injection H as _ <-. auto. }
  unfold lift in Hm. injection Hm as _ <-.
  apply M_bind_inv in H as [(e & H & _) | (raw & w1 & Hcall & H)].
  { unfold call_search in H. injection H as _ <-. auto. }
  unfold call_search in Hcall. injection Hcall as _ <-.
  apply M_bind_inv in H as [(e & H & _) | ([] & w1 & Hwrite & H)].
  { unfold write_file in H. discriminate. }
  unfold write_file in Hwrite. injection Hwrite as <-.
  injection H as _ <-. auto.
Qed.

(** The first [gather] always returns one outcome per query; the provider
    is asked for queries of the list only, in their order, each at most
    once. *)
Lemma gather_search_trace cfg qs : forall w,
  exists results w' calls,
    gather (search_cached cfg <$> qs) w = (Ok results, w')
    /\ length results = length qs
    /\ http_calls w' = http_calls w
    /\ search_calls w' = search_calls w ++ calls
    /\ calls `sublist_of` qs.
Proof.
  induction qs as [|q qs IH]; intros w.
  - exists [], w, []. simpl. by rewrite app_nil_r.
  - rewrite fmap_cons. cbn [gather].
    unfold mbind at 1, M_bind, try_task.
    destruct (search_cached cfg q w) as [out w1] eqn:Hq.
    apply search_cached_trace in Hq as [Hhttp Hcalls].
    destruct (IH w1) as (results & w' & calls & Hrun & Hlen & Hh & Hc & Hsub).
    unfold mbind at 1, M_bind. rewrite Hrun.
    destruct Hcalls as [Hsame | Hone].
    + exists (out :: results), w', calls. split; [reflexivity|].
      split; [simpl; by rewrite Hlen|]. split; [congruence|].
      split; [congruence|]. by apply sublist_cons.
    + exists (out :: results), w', (q :: calls). split; [reflexivity|].
      split; [simpl; by rewrite Hlen|]. split; [congruence|].
      split; [rewrite Hc, Hone; by rewrite <- app_assoc|].
      by apply sublist_skip.
Qed.

(** With the provider down and nothing cached, no query gives a finding
    and no file is written. *)
Lemma gather_all_fail cfg qs : forall w,
  (forall q m, exists e, search cfg q m = Raise e) ->
  (forall q, files w !! cache_path cfg q = None) ->
  exists results w',
    gather (search_cached cfg <$> qs) w = (Ok results, w')
    /\ merge_results results = []
    /\ files w' = files w.
Proof.
  intros w Hdown. revert w.
  induction qs as [|q qs IH]; intros w Hmiss.
  - by exists [], w.
  - rewrite fmap_cons. cbn [gather].
    unfold mbind at 1, M_bind, try_task.
    assert (exists e w1, search_cached cfg q w = (Raise e, w1)
                         /\ files w1 = files w) as (e & w1 & -> & Hfiles).
    { destruct (c ← py_getitem (_raw cfg) "search"; py_getitem c "max_results")
        as [m|e] eqn:Hm.
      - destruct (Hdown q m) as [e He].
        destruct (search_miss_provider_raises cfg q w m e (Hmiss q) Hm He)
          as (w1 & Hrun & Hf & _). eauto.
      - exists e, w. split; [|done].
        by apply search_miss_without_config. }
    destruct (IH w1) as (results & w' & Hrun & Hnone & Hf).
    { intros q'. rewrite Hfiles. apply Hmiss. }
    unfold mbind at 1, M_bind. rewrite Hrun.
    exists (Raise e :: results), w'. split; [reflexivity|].
    split; [exact Hnone|congruence].
Qed.

(** The second [gather] sends at most one request per selected finding,
    and never asks the search provider. *)
Lemma fetch_all_budget http_get cfg top : forall heap w,
  exists heap' w' requests,
    fetch_all md5_hex http_get cfg top heap w = (Ok heap', w')
    /\ length heap' = length heap
    /\ http_calls w' = http_calls w ++ requests
    /\ (length requests <= length top)%nat
    /\ search_calls w' = search_calls w.
Proof.
  induction top as [|[i f0] top IH]; intros heap w; cbn [fetch_all].
  - exists heap, w, []. split; [reflexivity|]. rewrite app_nil_r. simpl.
    repeat split; lia.
  - destruct (heap !! i) as [f|] eqn:Hi.
    + unfold mbind at 1, M_bind, try_task.
      destruct (_fetch_content md5_hex http_get cfg f w) as [out w1] eqn:Hf.
      assert (search_calls w1 = search_calls w
              /\ exists reqs, http_calls w1 = http_calls w ++ reqs
                              /\ (length reqs <= 1)%nat) as (Hs & reqs & Hh & Hl).
      { unfold _fetch_content, mbind at 1, M_bind, read_file in Hf.
        destruct (files w !! _).
        - injection Hf as _ <-. split; [done|]. exists [].
          rewrite app_nil_r. simpl. split; [done|lia].
        - destruct (http_get (url f)) as [[status html]|e];
            [destruct (status =? 200)%Z|]; injection Hf as _ <-;
            (split; [done|]; exists [url f]; simpl; split; [done|lia]). }
      destruct out as [f'|e].
      * destruct (IH (<[i := f']> heap) w1)
          as (heap' & w' & reqs' & Hrun & Hlen & Hh' & Hl' & Hs').
        exists heap', w', (reqs ++ reqs'). split; [exact Hrun|].
        split; [by rewrite Hlen, length_insert|].
        split; [rewrite Hh', Hh; by rewrite app_assoc|].
        split; [rewrite length_app; simpl; lia|congruence].
      * destruct (IH heap w1)
          as (heap' & w' & reqs' & Hrun & Hlen & Hh' & Hl' & Hs').
        exists heap', w', (reqs ++ reqs'). split; [exact Hrun|].
        split; [exact Hlen|].
        split; [rewrite Hh', Hh; by rewrite app_assoc|].
        split; [rewrite length_app; simpl; lia|congruence].
    + destruct (IH heap w)
        as (heap' & w' & reqs' & Hrun & Hlen & Hh' & Hl' & Hs').
      exists heap', w', reqs'. split; [exact Hrun|]. split; [exact Hlen|].
      split; [exact Hh'|]. split; [simpl; lia|exact Hs'].
Qed.

Lemma generate_queries_trace cfg tpc w out w' :
  _generate_queries json_loads cfg tpc w = (out, w') ->
  w' = w
  /\ (forall e, llm_complete cfg (queries_prompt tpc) "" 512 = Raise e ->
        out = Raise e)
  /\ (forall qs, out = Ok qs -> (length qs <= 4)%nat).
Proof.
  unfold _generate_queries, mbind at 1, M_bind, lift.
  destruct (llm_complete cfg _ _ _) as [text|e].
  - destruct (json_loads (strip_fences text)) as [[]|];
      intros [= <- <-]; (split; [done|]); (split; [done|]);
      intros qs [= <-]; simpl; try lia.
    rewrite length_take. lia.
  - intros [= <- <-]. split; [done|]. split; [by intros ? [= ->]|done].
Qed.

Lemma extract_facts_trace cfg tpc found w out w' :
  _extract_facts json_loads cfg tpc found w = (out, w') -> w' = w.
Proof.
  unfold _extract_facts, mbind at 1, M_bind, lift.
  destruct (llm_complete cfg _ _ _); by intros [= _ <-].
Qed.

Lemma select_top_length bound unique top :
  select_top bound unique = Ok top ->
  (length top <= length unique)%nat
  /\ (forall n, bound = JInt n -> (0 <= n)%Z -> (length top <= Z.to_nat n)%nat).
Proof.
  unfold select_top.
  set (ranked := py_sorted_desc _ _).
  assert (length ranked = length unique) as Hlen.
  { unfold ranked. rewrite (Permutation_length (py_sorted_desc_perm _ _)).
    unfold refs. apply length_imap. }
  destruct bound as [|b|n| | | |]; try discriminate; intros [= <-].
  - split; [lia|]. discriminate.
  - split; [rewrite length_take; lia|]. discriminate.
  - split.
    + destruct (0 <=? n)%Z; rewrite length_take; lia.
    + intros n' [= <-] Hn. destruct (Z.leb_spec 0 n); [|lia].
      rewrite length_take. lia.
Qed.

(** X13: with the search provider down (every search raises) and nothing
    in the search cache, a run of [research], returning or raising, writes
    no file and requests no page: the exceptions of the provider are
    absorbed by the first [gather]. When the run returns, the result has no
    findings and no relevant URLs, and the facts were asked of the LLM with
    no source. *)
Theorem research_with_provider_down http_get cfg tpc w out w' :
  (forall q m, exists e, search cfg q m = Raise e) ->
  (forall q, files w !! cache_path cfg q = None) ->
  run_research http_get default_relevance_score cfg tpc w = (out, w') ->
  files w' = files w
  /\ http_calls w' = http_calls w
  /\ (forall r, out = Ok r ->
        findings r = [] /\ relevant_urls r = []
        /\ exists answer,
             llm_complete cfg (facts_prompt tpc []) "" 2048 = Ok answer).
Proof.
  intros Hdown Hmiss H. unfold research in H.
  apply M_bind_inv in H as [(e & H & ->) | (queries & w1 & Hq & H)].
  { apply generate_queries_trace in H as (-> & _). done. }
  apply generate_queries_trace in Hq as (-> & _).
  destruct (gather_all_fail cfg queries w Hdown Hmiss)
    as (results & w2 & Hg & Hnone & Hfiles).
  destruct (gather_search_trace cfg queries w)
    as (results' & w2' & calls & Hg' & _ & Hhttp & _).
  rewrite Hg in Hg'. injection Hg' as <- <-.
  apply M_bind_inv in H as [(e & H & _) | (results' & w2' & Hg' & H)];
    [rewrite Hg in H; discriminate|].
  rewrite Hg in Hg'. injection Hg' as <- <-.
  rewrite Hnone in H. cbn [unique_from] in H.
  apply M_bind_inv in H as [(e & H & ->) | (top_n & w3 & Htop & H)].
  { unfold lift in H. injection H as _ <-. done. }
  unfold lift in Htop. injection Htop as _ <-.
  apply M_bind_inv in H as [(e & H & ->) | (top & w3 & Hsel & H)].
  { unfold lift in H. injection H as _ <-. done. }
  unfold lift in Hsel. injection Hsel as Hsel <-.
  assert (top = []) as ->.
  { unfold select_top in Hsel. cbn [refs imap py_sorted_desc foldr] in Hsel.
    destruct top_n as [|b|n| | | |]; try discriminate;
      injection Hsel as <-; try done; repeat case_match;
      first [done | apply take_nil]. }
  cbn [fetch_all] in H.
  apply M_bind_inv in H as [(e & H & _) | (heap & w3 & Hheap & H)];
    [discriminate|].
  injection Hheap as <- <-.
  pose proof (extract_facts_trace _ _ _ _ _ _ H) as ->.
  split; [exact Hfiles|]. split; [exact Hhttp|].
  intros r ->.
  destruct (extract_facts_urls _ _ _ _ _ _ _ H) as [Hf Hu].
  split; [exact Hf|]. split; [exact Hu|].
  unfold _extract_facts in H.
  apply M_bind_Ok in H as (answer & w3 & [Hllm _]%lift_Ok & _). eauto.
Qed.

(** X14: no run of [research], returning or raising, asks the search
    provider more than 4 times; with a non-negative
    [search.top_pages_to_fetch] of [n] it requests at most [n] pages; and
    when the LLM call for the queries raises, [research] raises that
    exception before any search or request. *)
Theorem research_call_budget http_get cfg tpc w out w' :
  run_research http_get default_relevance_score cfg tpc w = (out, w') ->
  exists calls requests,
    search_calls w' = search_calls w ++ calls
    /\ (length calls <= 4)%nat
    /\ http_calls w' = http_calls w ++ requests
    /\ (forall n,
          (c ← py_getitem (_raw cfg) "search"; py_getitem c "top_pages_to_fetch")
          = Ok (JInt n) -> (0 <= n)%Z -> (length requests <= Z.to_nat n)%nat)
    /\ (forall e, llm_complete cfg (queries_prompt tpc) "" 512 = Raise e ->
          out = Raise e /\ w' = w).
Proof.
  unfold research. intros H.
  apply M_bind_inv in H as [(e & H & ->) | (queries & w1 & Hq & H)].
  { apply generate_queries_trace in H as (-> & Hfail & _).
    exists [], []. rewrite !app_nil_r. split; [done|]. split; [simpl; lia|].
    split; [done|]. split; [intros; simpl; lia|].
    intros e' He'. specialize (Hfail e' He'). by injection Hfail as ->. }
  apply generate_queries_trace in Hq as (-> & Hfail & Hfour).
  specialize (Hfour queries eq_refl).
  assert (forall e, llm_complete cfg (queries_prompt tpc) "" 512 = Raise e ->
                    out = Raise e /\ w' = w) as Hllm.
  { intros e He. by specialize (Hfail e He). }
  clear Hfail.
  destruct (gather_search_trace cfg queries w)
    as (results & w2 & calls & Hg & _ & Hhttp & Hcalls & Hsub).
  apply M_bind_inv in H as [(e & H & _) | (results' & w2' & Hg' & H)];
    [rewrite Hg in H; discriminate|].
  rewrite Hg in Hg'. injection Hg' as <- <-.
  assert (length calls <= 4)%nat as Hlen.
  { apply sublist_length in Hsub. lia. }
  apply M_bind_inv in H as [(e & H & _) | (top_n & w3 & Htop & H)].
  { unfold lift in H. injection H as _ <-.
    exists calls, []. rewrite app_nil_r. split; [done|]. split; [done|].
    split; [done|]. split; [intros; simpl; lia|done]. }
  unfold lift in Htop. injection Htop as Htop <-.
  apply M_bind_inv in H as [(e & H & _) | (top & w3 & Hsel & H)].
  { unfold lift in H. injection H as _ <-.
    exists calls, []. rewrite app_nil_r. split; [done|]. split; [done|].
    split; [done|]. split; [intros; simpl; lia|done]. }
  unfold lift in Hsel. injection Hsel as Hsel <-.
  destruct (fetch_all_budget http_get cfg top
              (unique_from ∅ (merge_results results)) w2)
    as (heap & w3 & reqs & Hfetch & _ & Hreq & Hbound & Hsc).
  apply M_bind_inv in H as [(e & H & _) | (heap' & w3' & Hfetch' & H)];
    [rewrite Hfetch in H; discriminate|].
  rewrite Hfetch in Hfetch'. injection Hfetch' as <- <-.
  apply extract_facts_trace in H as ->.
  exists calls, reqs. split; [congruence|]. split; [done|].
  split; [congruence|]. split; [|done].
  intros n Hn Hpos. rewrite Htop in Hn. injection Hn as ->.
  destruct (select_top_length _ _ _ Hsel) as [_ Hle].
  specialize (Hle n eq_refl Hpos). lia.
Qed.

(** X15: when the answer to the facts prompt decodes to an object,
    [_extract_facts] takes [query_used], [key_facts] and
    [structured_summary] from it as they are, with the topic, the empty
    list and the empty string for a missing key, and lists the URLs of the
    findings that have a non-empty content; when it decodes to anything
    else (a list, a number, ...), [_extract_facts] raises [AttributeError]:
    only an undecodable answer gets the fallback. *)
Theorem extract_facts_of_response cfg tpc found w answer v :
  llm_complete cfg (facts_prompt tpc found) "" 2048 = Ok answer ->
  json_loads (strip_fences answer) = Some v ->
  (forall fields, v = JObj fields ->
     _extract_facts json_loads cfg tpc found w
     = (Ok {| topic := tpc;
              query_used := default (JStr tpc) (dict_get "query_used" fields);
              findings := found;
              key_facts := default (JArr []) (dict_get "key_facts" fields);
              structured_summary :=
                default (JStr "") (dict_get "structured_summary" fields);
              relevant_urls :=
                url <$> filter (fun f => has_content f = true) found |}, w))
  /\ ((forall fields, v <> JObj fields) ->
      _extract_facts json_loads cfg tpc found w = (Raise AttributeError, w)).
Proof.
  intros Hllm Hv.
  split; [intros fields Hd | intros Hnot];
    unfold _extract_facts, lift; rewrite Hllm;
    unfold mbind at 1, M_bind; cbv beta iota zeta; rewrite Hv.
  - by rewrite Hd.
  - destruct v as [| | | | | |fields]; try reflexivity.
    by destruct (Hnot fields).
Qed.

End ResearchRuns.

(** ** Concrete runs of the research service *)

Lemma page_cache_round_trip_witness :
  let cfg := demo_cfg "" in
  let f := {| title := "First"; url := "https://a.example/1";
              snippet := "first snippet"; full_content := None;
              relevance_score := 1 |} in
  files empty_world !! page_cache_path demo_md5 cfg (url f) = None
  /\ demo_http (url f) = Ok (200%Z, "<html><body><p>page</p></body></html>")
  /\ exists w1,
       _fetch_content demo_md5 demo_http cfg f empty_world
       = (Ok (with_content f "page"), w1)
       /\ http_calls w1 = [url f]
       /\ _fetch_content demo_md5 offline_http cfg f w1
          = (Ok (with_content f "page"), w1).
Proof.
  intros cfg f.
  assert (files empty_world !! page_cache_path demo_md5 cfg (url f) = None)
    as Hmiss by reflexivity.
  split; [exact Hmiss|]. split; [reflexivity|].
  destruct (page_cache_round_trip demo_md5 demo_http cfg f empty_world
              "<html><body><p>page</p></body></html>" Hmiss eq_refl)
    as (w1 & Hrun & _ & Hcalls & _ & Hlater).
  exists w1. split; [exact Hrun|]. split; [exact Hcalls|].
  apply Hlater; reflexivity.
Defined.

Lemma failed_fetch_leaves_no_trace_witness :
  let cfg := demo_cfg "" in
  let f := {| title := "First"; url := "https://a.example/1";
              snippet := "first snippet"; full_content := None;
              relevance_score := 1 |} in
  files empty_world !! page_cache_path demo_md5 cfg (url f) = None
  /\ offline_http (url f) = Ok (404%Z, "")
  /\ exists w1,
       _fetch_content demo_md5 offline_http cfg f empty_world = (Ok f, w1)
       /\ files w1 = ∅ /\ http_calls w1 = [url f].
Proof.
  intros cfg f.
  assert (files empty_world !! page_cache_path demo_md5 cfg (url f) = None)
    as Hmiss by reflexivity.
  split; [exact Hmiss|]. split; [reflexivity|].
  destruct (failed_fetch_leaves_no_trace demo_md5 offline_http cfg f
              empty_world Hmiss ltac:(intros html; discriminate))
    as (w1 & Hrun & Hfiles & Hcalls & _).
  exists w1. split; [exact Hrun|]. split; [exact Hfiles|exact Hcalls].
Defined.

Lemma failed_search_is_not_cached_witness :
  let cfg := offline_cfg "" in
  let q := JStr "rust" in
  files empty_world !! search_cache_path demo_md5 demo_repr cfg q = None
  /\ exists w1,
       _search_cached RefJson.loads RefJson.dumps demo_md5 demo_repr 0 cfg q
         empty_world = (Raise (ExternalError "connection refused"), w1)
       /\ files w1 = ∅ /\ search_calls w1 = [q].
Proof.
  intros cfg q.
  assert (files empty_world !! search_cache_path demo_md5 demo_repr cfg q = None)
    as Hmiss by reflexivity.
  split; [exact Hmiss|].
  destruct (failed_search_is_not_cached RefJson.loads RefJson.dumps demo_md5
              demo_repr 0 cfg q empty_world Hmiss) as [_ Hdown].
  destruct (Hdown (JInt 5) (ExternalError "connection refused") eq_refl eq_refl)
    as (w1 & Hrun & Hfiles & Hcalls & _).
  exists w1. split; [exact Hrun|]. split; [exact Hfiles|exact Hcalls].
Defined.

Lemma cache_hit_never_searches_witness :
  let cfg := demo_cfg "" in
  let q := JStr "rust" in
  let w := {| files := {[ search_cache_path demo_md5 demo_repr cfg q := "{" ]};
              search_calls := []; http_calls := [] |} in
  files w !! search_cache_path demo_md5 demo_repr cfg q = Some "{"
  /\ RefJson.loads "{" = None
  /\ _search_cached RefJson.loads RefJson.dumps demo_md5 demo_repr 0 cfg q w
     = (Raise JSONDecodeError, w).
Proof.
  intros cfg q w.
  assert (files w !! search_cache_path demo_md5 demo_repr cfg q = Some "{")
    as Hhit by apply lookup_singleton_eq.
  split; [exact Hhit|]. split; [reflexivity|].
  destruct (cache_hit_never_searches RefJson.loads RefJson.dumps demo_md5
              demo_repr 0 cfg q w "{" Hhit) as (_ & Hbad & _).
  apply Hbad. reflexivity.
Defined.

Lemma research_with_provider_down_witness :
  let cfg := offline_cfg "{}" in
  exists r w',
    research RefJson.loads RefJson.dumps demo_md5 demo_repr offline_http 0 cfg
      "rust" empty_world = (Ok r, w')
    /\ findings r = [] /\ relevant_urls r = []
    /\ files w' = ∅ /\ http_calls w' = []
    /\ search_calls w' = [JStr "rust"].
Proof.
  intros cfg.
  eassert (research RefJson.loads RefJson.dumps demo_md5 demo_repr
             offline_http 0 cfg "rust" empty_world = (Ok _, _)) as Hrun
    by (vm_compute; reflexivity).
  do 2 eexists. split; [exact Hrun|].
  assert (forall q m, exists e, search cfg q m = Raise e) as Hdown
    by (intros q m; by eexists).
  assert (forall q, files empty_world
                    !! search_cache_path demo_md5 demo_repr cfg q = None)
    as Hmiss by (intros q; reflexivity).
  destruct (research_with_provider_down RefJson.loads RefJson.dumps demo_md5
              demo_repr 0 offline_http cfg "rust" empty_world _ _
              Hdown Hmiss Hrun) as (Hfiles & Hhttp & Hok).
  destruct (Hok _ eq_refl) as (Hf & Hu & _).
  split; [exact Hf|]. split; [exact Hu|]. split; [exact Hfiles|].
  split; [exact Hhttp|reflexivity].
Defined.

Lemma research_call_budget_witness :
  let cfg := demo_cfg "not json" in
  exists out w',
    research RefJson.loads RefJson.dumps demo_md5 demo_repr demo_http 0 cfg
      "rust" empty_world = (out, w')
    /\ (length (search_calls w') <= 4)%nat
    /\ (length (http_calls w') <= 2)%nat.
Proof.
  intros cfg.
  destruct (research RefJson.loads RefJson.dumps demo_md5 demo_repr demo_http 0
              cfg "rust" empty_world) as [out w'] eqn:Hrun.
  exists out, w'. split; [reflexivity|].
  destruct (research_call_budget RefJson.loads RefJson.dumps demo_md5 demo_repr
              0 demo_http cfg "rust" empty_world out w' Hrun)
    as (calls & requests & -> & Hcalls & -> & Hreq & _).
  split; [exact Hcalls|]. exact (Hreq 2%Z eq_refl ltac:(lia)).
Defined.

Lemma extract_facts_of_response_witness :
  let cfg := demo_cfg "[]" in
  llm_complete cfg (facts_prompt "rust" []) "" 2048 = Ok "[]"
  /\ RefJson.loads (strip_fences "[]") = Some (JArr [])
  /\ _extract_facts RefJson.loads cfg "rust" [] empty_world
     = (Raise AttributeError, empty_world).
Proof.
  intros cfg. split; [reflexivity|]. split; [reflexivity|].
  destruct (extract_facts_of_response RefJson.loads cfg "rust" [] empty_world
              "[]" (JArr []) eq_refl eq_refl) as [_ Hlist].
  apply Hlist. discriminate.
Defined.

(** ** Merging, ranking and slicing *)

Lemma merge_results_app rs1 rs2 :
  merge_results (rs1 ++ rs2) = merge_results rs1 ++ merge_results rs2.
Proof.
  induction rs1 as [|[r|e] rs1 IH]; simpl; [done| |done].
  by rewrite IH, app_assoc.
Qed.

Lemma unique_from_app a : forall seen b,
  unique_from seen (a ++ b)
  = unique_from seen a ++ unique_from (list_to_set (url <$> a) ∪ seen) b.
Proof.
  induction a as [|f a IH]; intros seen b.
  - simpl. f_equal. by rewrite (left_id_L ∅ (∪)).
  - rewrite fmap_cons. cbn [app unique_from list_to_set].
    destruct (decide (url f ∈ seen)) as [Hin|Hnin].
    + rewrite IH. do 2 f_equal. apply set_eq. intros u.
      rewrite !elem_of_union, elem_of_singleton.
      split; [tauto|]. intros [[-> | H] | H]; auto.
    + rewrite IH. cbn [app]. do 3 f_equal. apply set_eq. intros u.
      rewrite !elem_of_union. tauto.
Qed.

Lemma unique_from_id l : forall seen,
  NoDup (url <$> l) -> (forall f, f ∈ l -> url f ∉ seen) ->
  unique_from seen l = l.
Proof.
  induction l as [|f l IH]; intros seen Hnd Hseen; [done|].
  rewrite fmap_cons in Hnd. apply NoDup_cons in Hnd as [Hf Hnd].
  cbn [unique_from]. rewrite decide_False by (apply Hseen; by left).
  f_equal. apply IH; [done|]. intros g Hg. apply not_seen_add.
  split; [|apply Hseen; by right].
  intros Heq. apply Hf. rewrite Heq. apply list_elem_of_fmap. by exists g.
Qed.

(** X16: deduplication composes along the queries: the findings kept from
    the results of the first queries are kept, in place, whatever later
    queries return, and a later query adds exactly its findings whose URL
    no earlier result had; results that only repeat URLs of earlier results
    change nothing; a list without a repeated URL is left as it is, so
    deduplicating twice is deduplicating once. *)
Theorem dedup_composes :
  (forall rs1 rs2,
     let first := merge_results rs1 in
     unique_from ∅ (merge_results (rs1 ++ rs2))
     = unique_from ∅ first
       ++ unique_from (list_to_set (url <$> first)) (merge_results rs2))
  /\ (forall rs1 rs2,
        unique_from ∅ (merge_results rs1)
        `prefix_of` unique_from ∅ (merge_results (rs1 ++ rs2)))
  /\ (forall rs rs1 rs2,
        (forall g, g ∈ merge_results rs ->
           exists f, f ∈ merge_results rs1 /\ url f = url g) ->
        unique_from ∅ (merge_results (rs1 ++ rs ++ rs2))
        = unique_from ∅ (merge_results (rs1 ++ rs2)))
  /\ (forall l, NoDup (url <$> l) -> unique_from ∅ l = l)
  /\ (forall l, unique_from ∅ (unique_from ∅ l) = unique_from ∅ l).
Proof.
  assert (forall rs1 rs2,
     unique_from ∅ (merge_results (rs1 ++ rs2))
     = unique_from ∅ (merge_results rs1)
       ++ unique_from (list_to_set (url <$> merge_results rs1))
            (merge_results rs2)) as Happ.
  { intros rs1 rs2. rewrite merge_results_app, unique_from_app.
    do 2 f_equal. apply (right_id_L ∅ (∪)). }
  split; [exact Happ|]. split.
  { intros rs1 rs2. rewrite Happ. by apply prefix_app_r. }
  split.
  { intros rs rs1 rs2 Hdup. rewrite !Happ. f_equal.
    rewrite merge_results_app, unique_from_app.
    assert (unique_from (list_to_set (url <$> merge_results rs1))
              (merge_results rs) = []) as ->.
    { destruct (unique_from _ (merge_results rs)) as [|g l] eqn:Hu; [done|].
      assert (g ∈ unique_from (list_to_set (url <$> merge_results rs1))
                    (merge_results rs)) as Hg by (rewrite Hu; by left).
      apply unique_from_elem_of in Hg as (i & Hi & Hnew & _).
      destruct (Hdup g) as (f & Hf & Hfu); [by eapply list_elem_of_lookup_2|].
      destruct Hnew. apply elem_of_list_to_set, list_elem_of_fmap. by exists f. }
    cbn [app]. f_equal. apply set_eq. intros u.
    rewrite elem_of_union, !elem_of_list_to_set, !list_elem_of_fmap.
    split; [|by right]. intros [(g & -> & Hg)|H]; [|done].
    destruct (Hdup g Hg) as (f & Hf & Hfu). by exists f. }
  split.
  { intros l Hnd. apply unique_from_id; [done|].
    intros f _. apply not_elem_of_empty. }
  intros l. apply unique_from_id; [apply unique_from_NoDup|].
  intros f _. apply not_elem_of_empty.
Qed.

Lemma insert_desc_head {A : Type} (key : A -> Q) x l :
  Forall (fun y => key y <= key x)%Q l -> insert_desc key x l = x :: l.
Proof.
  destruct l as [|y l]; [done|]. intros [Hy _]%Forall_cons. simpl.
  apply Qle_bool_iff in Hy. by rewrite Hy.
Qed.

Lemma py_sorted_desc_id {A : Type} (key : A -> Q) l :
  StronglySorted (by_score_desc key) l -> py_sorted_desc key l = l.
Proof.
  induction 1 as [|x l Hl IH Hx]; [done|].
  unfold py_sorted_desc in *. rewrite foldr_cons, IH.
  by apply insert_desc_head.
Qed.

Lemma score_antitone (p1 p2 : Z) :
  (p1 <= p2)%Z ->
  (1 - inject_Z p2 * (1 # 10) <= 1 - inject_Z p1 * (1 # 10))%Q.
Proof. intros H. unfold Qle. simpl. lia. Qed.

(** X17: the ranking leaves a list that is already in descending order of
    score as it is, so ranking twice is ranking once; the findings made from
    provider results whose positions do not decrease are already ranked, and
    the pages selected from them are the first [n] results of the
    provider. *)
Theorem ranking_keeps_ranked_order :
  (forall l : list ResearchFinding,
     StronglySorted (by_score_desc relevance_score) l ->
     py_sorted_desc relevance_score l = l)
  /\ (forall l : list ResearchFinding,
        py_sorted_desc relevance_score (py_sorted_desc relevance_score l)
        = py_sorted_desc relevance_score l)
  /\ (forall raw : list SearchResult,
        StronglySorted (fun a b => (position a <= position b)%Z) raw ->
        py_sorted_desc relevance_score (finding_of_result <$> raw)
        = finding_of_result <$> raw)
  /\ (forall (raw : list SearchResult) (n : Z),
        StronglySorted (fun a b => (position a <= position b)%Z) raw ->
        (0 <= n)%Z ->
        exists top,
          select_top (JInt n) (finding_of_result <$> raw) = Ok top
          /\ snd <$> top = finding_of_result <$> take (Z.to_nat n) raw).
Proof.
  assert (forall raw : list SearchResult,
        StronglySorted (fun a b => (position a <= position b)%Z) raw ->
        py_sorted_desc relevance_score (finding_of_result <$> raw)
        = finding_of_result <$> raw) as Hraw.
  { intros raw Hs. apply py_sorted_desc_id.
    induction Hs as [|r raw Hs IH Hr]; [constructor|].
    rewrite fmap_cons. constructor; [exact IH|].
    apply Forall_fmap. eapply Forall_impl; [exact Hr|].
    intros r' Hle. by apply score_antitone. }
  split; [intros l; apply py_sorted_desc_id|].
  split; [intros l; apply py_sorted_desc_id, py_sorted_desc_sorted|].
  split; [exact Hraw|].
  intros raw n Hs Hn. unfold select_top, py_slice_to.
  destruct (Z.leb_spec 0 n); [|lia].
  eexists. split; [reflexivity|].
  rewrite fmap_take, (py_sorted_desc_fmap snd relevance_score), refs_snd.
  by rewrite (Hraw raw Hs), fmap_take.
Qed.

Lemma ranking_keeps_ranked_order_witness :
  py_sorted_desc relevance_score (finding_of_result <$> demo_results)
  = finding_of_result <$> demo_results.
Proof.
  destruct ranking_keeps_ranked_order as (_ & _ & Hraw & _).
  apply Hraw. repeat constructor; simpl; lia.
Defined.

(** X18: the selection [sorted(...)[:top_n]] for every value of
    [search.top_pages_to_fetch]: it returns for [None], a bool and an
    integer only, and raises [TypeError] for anything else (a float or a
    string among them); what it returns is a prefix of the ranking: all of
    it for [None] or an integer not below the number of findings, nothing
    for 0, and for a negative [-k] all but the last [k] findings. *)
Theorem select_top_slices (unique : list ResearchFinding) :
  let ranked :=
    py_sorted_desc (fun r => relevance_score (snd r)) (refs unique) in
  (forall bound top, select_top bound unique = Ok top -> top `prefix_of` ranked)
  /\ select_top JNull unique = Ok ranked
  /\ (forall n, (Z.of_nat (length unique) <= n)%Z ->
        select_top (JInt n) unique = Ok ranked)
  /\ select_top (JInt 0) unique = Ok []
  /\ (forall k, (0 < k)%Z ->
        select_top (JInt (- k)) unique
        = Ok (take (length unique - Z.to_nat k) ranked))
  /\ (forall b, select_top (JBool b) unique
                = Ok (take (if b then 1 else 0)%nat ranked))
  /\ (forall bound,
        returns (select_top bound unique)
        <-> bound = JNull \/ (exists b, bound = JBool b)
            \/ (exists n, bound = JInt n))
  /\ (forall bound e, select_top bound unique = Raise e -> e = TypeError).
Proof.
  intros ranked.
  assert (length ranked = length unique) as Hlen.
  { unfold ranked. rewrite (Permutation_length (py_sorted_desc_perm _ _)).
    unfold refs. apply length_imap. }
  unfold select_top. fold ranked. split.
  { intros bound top. destruct bound as [|b|n| | | |]; try discriminate;
      intros [= <-]; [done|apply prefix_take|].
    destruct (0 <=? n)%Z; apply prefix_take. }
  split; [done|]. split.
  { intros n Hn. simpl. destruct (Z.leb_spec 0 n); [|lia].
    rewrite take_ge by lia. done. }
  split; [done|]. split.
  { intros k Hk. simpl. destruct (Z.leb_spec 0 (- k)); [lia|].
    by rewrite Hlen, Z.opp_involutive. }
  split; [done|]. split.
  { intros bound. unfold returns. split.
    - intros [top Htop]. destruct bound; try discriminate; eauto.
    - intros [-> | [[b ->] | [n ->]]]; simpl; eauto. }
  intros bound e. destruct bound; try discriminate; by intros [= <-].
Qed.

(** ** The file stem of a title *)

Lemma all_chars_impl (p q : ascii -> bool) s :
  (forall c, p c = true -> q c = true) ->
  all_chars p s = true -> all_chars q s = true.
Proof.
  intros Hpq. induction s as [|c s IH]; [done|]. simpl.
  intros [Hc Hs]%andb_true_iff. by rewrite (Hpq c Hc), IH.
Qed.

Lemma all_chars_lstrip p s : all_chars p s = true -> all_chars p (lstrip s) = true.
Proof.
  induction s as [|c s IH]; [done|]. simpl.
  intros [Hc Hs]%andb_true_iff. destruct (is_space c); [by apply IH|].
  simpl. by rewrite Hc, Hs.
Qed.

Lemma all_chars_rstrip p s : all_chars p s = true -> all_chars p (rstrip s) = true.
Proof.
  induction s as [|c s IH]; [done|]. simpl.
  intros [Hc Hs]%andb_true_iff. specialize (IH Hs).
  destruct (rstrip s) as [|c' r].
  - destruct (is_space c); [done|]. simpl. by rewrite Hc.
  - cbn [all_chars] in *. by rewrite Hc, IH.
Qed.

Lemma all_chars_take p n s :
  all_chars p s = true -> all_chars p (take_str n s) = true.
Proof.
  revert n. induction s as [|c s IH]; intros [|n]; try done. simpl.
  intros [Hc Hs]%andb_true_iff. by rewrite Hc, IH.
Qed.

Lemma take_str_le n s : (String.length (take_str n s) <= n)%nat.
Proof.
  revert s. induction n as [|n IH]; intros [|c s]; simpl; try lia.
  specialize (IH s). lia.
Qed.

Lemma take_str_all n s : (String.length s <= n)%nat -> take_str n s = s.
Proof.
  revert s. induction n as [|n IH]; intros [|c s]; simpl; try done; try lia.
  intros H. f_equal. apply IH. lia.
Qed.

(** Deleting the characters of a class leaves none of them, and leaves a
    text without them as it is. *)
Lemma delete_class_none cls s :
  all_chars (fun c => negb (cls c)) (re_sub (match_char cls) "" s) = true.
Proof.
  unfold re_sub. induction s as [|c s IH]; [done|].
  cbn [sub_from match_char]. destruct (cls c) eqn:Hc.
  - cbn [Nat.pred]. by rewrite append_nil_l.
  - cbn [all_chars]. by rewrite Hc, IH.
Qed.

Lemma delete_class_id cls s :
  all_chars (fun c => negb (cls c)) s = true ->
  re_sub (match_char cls) "" s = s.
Proof.
  unfold re_sub. induction s as [|c s IH]; [done|].
  cbn [all_chars sub_from match_char].
  intros [Hc Hs]%andb_true_iff. apply negb_true_iff in Hc. rewrite Hc.
  by rewrite IH.
Qed.

(** Replacing the runs of whitespace by an underscore. *)
Lemma replace_spaces_chars p s : forall skip,
  all_chars p s = true ->
  all_chars (fun c => Ascii.eqb c "_" || (p c && negb (is_space c)))
    (sub_from match_spaces "_" skip s) = true.
Proof.
  induction s as [|c s IH]; intros skip; [done|].
  cbn [all_chars sub_from]. intros [Hc Hs]%andb_true_iff.
  destruct skip as [|k]; [|by apply IH].
  unfold match_spaces. cbn [space_run].
  destruct (is_space c) eqn:Hsp.
  - change ("_" +:+ ?x) with (String "_" x). cbn [all_chars].
    rewrite IH by done. done.
  - cbn [all_chars]. rewrite Hc, Hsp, IH by done. simpl.
    by rewrite orb_true_r.
Qed.

Lemma match_spaces_nonspace c s :
  is_space c = false -> match_spaces (String c s) = None.
Proof. intros H. unfold match_spaces. cbn [space_run]. by rewrite H. Qed.

Lemma replace_spaces_id s :
  all_chars (fun c => negb (is_space c)) s = true ->
  re_sub match_spaces "_" s = s.
Proof.
  unfold re_sub. induction s as [|c s IH]; [done|].
  cbn [all_chars sub_from]. intros [Hc Hs]%andb_true_iff.
  apply negb_true_iff in Hc. rewrite (match_spaces_nonspace c s Hc).
  by rewrite IH.
Qed.

Lemma lstrip_id s :
  all_chars (fun c => negb (is_space c)) s = true -> lstrip s = s.
Proof.
  destruct s as [|c s]; [done|]. simpl.
  intros [Hc _]%andb_true_iff. apply negb_true_iff in Hc. by rewrite Hc.
Qed.

Lemma rstrip_id s :
  all_chars (fun c => negb (is_space c)) s = true -> rstrip s = s.
Proof.
  induction s as [|c s IH]; [done|]. simpl.
  intros [Hc Hs]%andb_true_iff. apply negb_true_iff in Hc.
  rewrite IH by done. rewrite Hc. by destruct s.
Qed.

Lemma stem_char_safe c :
  stem_char c = true -> unsafe_char c = false /\ is_space c = false.
Proof.
  unfold stem_char, unsafe_char. intros H.
  assert (is_space c = false) as Hsp.
  { destruct c as [[] [] [] [] [] [] [] []]; try reflexivity; discriminate. }
  split; [|exact Hsp]. apply negb_false_iff.
  apply orb_true_iff in H as [-> | ->]; [done|]. by rewrite orb_true_r.
Qed.

Lemma kept_char_stem c :
  Ascii.eqb c "_" || (negb (unsafe_char c) && negb (is_space c)) = true ->
  stem_char c = true.
Proof.
  unfold stem_char, unsafe_char.
  intros [Hu | [Hk Hsp]%andb_true_iff]%orb_true_iff.
  - apply Ascii.eqb_eq in Hu as ->. reflexivity.
  - apply negb_true_iff in Hsp. rewrite negb_involutive, Hsp in Hk.
    by rewrite orb_false_r in Hk.
Qed.

Lemma all_chars_contains p c s :
  all_chars p s = true -> p c = false -> contains_char c s = false.
Proof.
  intros Hs Hc. induction s as [|x s IH]; [done|]. simpl in *.
  apply andb_true_iff in Hs as [Hx Hs]. rewrite (IH Hs), orb_false_r.
  apply Ascii.eqb_neq. intros ->. congruence.
Qed.

Lemma safe_stem_fixed s :
  s <> "" -> (String.length s <= 80)%nat -> all_chars stem_char s = true ->
  _safe_stem s = s.
Proof.
  intros Hne Hlen Hs. unfold _safe_stem.
  assert (all_chars (fun c => negb (is_space c)) s = true) as Hnsp.
  { eapply all_chars_impl; [|exact Hs]. intros c Hc.
    apply stem_char_safe in Hc as [_ ->]. done. }
  rewrite delete_class_id.
  2:{ eapply all_chars_impl; [|exact Hs]. intros c Hc.
      apply stem_char_safe in Hc as [-> _]. done. }
  unfold strip. rewrite (lstrip_id s Hnsp), (rstrip_id s Hnsp).
  rewrite (replace_spaces_id s Hnsp), (take_str_all 80 s Hlen).
  by destruct s.
Qed.

(** X19: the stem that [_safe_stem] gives for any title is not empty, has
    at most 80 characters, and is made of word characters and hyphens
    only, so it holds no whitespace, no [/] and no [.]; a stem is its own
    stem. *)
Theorem safe_stem_is_safe (title : string) :
  let stem := _safe_stem title in
  stem <> ""
  /\ (String.length stem <= 80)%nat
  /\ all_chars stem_char stem = true
  /\ contains_char "/" stem = false
  /\ contains_char "." stem = false
  /\ _safe_stem stem = stem.
Proof.
  intros stem.
  assert (stem <> "" /\ (String.length stem <= 80)%nat
          /\ all_chars stem_char stem = true) as (Hne & Hlen & Hs).
  { unfold stem, _safe_stem.
    set (body := take_str 80 _).
    assert ((String.length body <= 80)%nat) as Hlen by apply take_str_le.
    assert (all_chars stem_char body = true) as Hs.
    { apply all_chars_take.
      eapply all_chars_impl; [apply kept_char_stem|].
      apply replace_spaces_chars. unfold strip.
      apply all_chars_rstrip, all_chars_lstrip, delete_class_none. }
    destruct body as [|c r]; [|done].
    split; [done|]. split; [simpl; lia|reflexivity]. }
  split; [exact Hne|]. split; [exact Hlen|]. split; [exact Hs|].
  split; [by apply (all_chars_contains stem_char)|].
  split; [by apply (all_chars_contains stem_char)|].
  by apply safe_stem_fixed.
Qed.

(** ** Overrides by dotted key *)

Lemma dict_get_None k fields :
  dict_get k fields = None <-> k ∉ fst <$> fields.
Proof.
  induction fields as [|[k' v] fields IH]; simpl.
  - split; [intros _; apply not_elem_of_nil|done].
  - rewrite not_elem_of_cons. destruct (dict_get k fields) as [x|].
    + split; [done|]. intros [_ H]. by apply IH in H.
    + destruct (String.eqb_spec k k') as [-> | Hne].
      * split; [done|]. by intros [H _].
      * split; [|done]. intros _. split; [done|]. by apply IH.
Qed.

Lemma dict_set_keys k v fields x :
  x ∈ fst <$> dict_set k v fields <-> x = k \/ x ∈ fst <$> fields.
Proof.
  induction fields as [|[k' v'] fields IH]; cbn [dict_set].
  - rewrite !fmap_cons, fmap_nil, list_elem_of_singleton. cbn [fst].
    split; [auto|]. intros [H|H]; [done|]. by apply elem_of_nil in H.
  - destruct (String.eqb_spec k k') as [-> | Hne].
    + rewrite !fmap_cons, !elem_of_cons. cbn [fst]. tauto.
    + rewrite !fmap_cons, !elem_of_cons, IH. cbn [fst]. tauto.
Qed.

Lemma dict_set_NoDup k v fields :
  NoDup (fst <$> fields) -> NoDup (fst <$> dict_set k v fields).
Proof.
  induction fields as [|[k' v'] fields IH]; cbn [dict_set].
  - intros _. rewrite fmap_cons, fmap_nil. apply NoDup_singleton.
  - rewrite fmap_cons. intros [Hk' Hnd]%NoDup_cons. cbn [fst] in Hk'.
    destruct (String.eqb_spec k k') as [-> | Hne].
    + rewrite fmap_cons. by apply NoDup_cons.
    + rewrite fmap_cons. apply NoDup_cons. split; [|by apply IH].
      cbn [fst]. rewrite dict_set_keys. intros [H|H]; congruence.
Qed.

Lemma dict_get_set_same k v fields :
  NoDup (fst <$> fields) -> dict_get k (dict_set k v fields) = Some v.
Proof.
  induction fields as [|[k' v'] fields IH]; simpl.
  - intros _. by rewrite String.eqb_refl.
  - intros [Hk' Hnd]%NoDup_cons.
    destruct (String.eqb_spec k k') as [-> | Hne]; simpl.
    + apply dict_get_None in Hk'. by rewrite Hk', String.eqb_refl.
    + by rewrite IH.
Qed.

Lemma dict_get_set_other k k' v fields :
  k <> k' -> dict_get k' (dict_set k v fields) = dict_get k' fields.
Proof.
  intros Hne. induction fields as [|[k0 v0] fields IH]; simpl.
  - destruct (String.eqb_spec k' k); [congruence|done].
  - destruct (String.eqb_spec k k0) as [-> | Hk]; simpl.
    + destruct (dict_get k' fields); [done|].
      destruct (String.eqb_spec k' k0); [congruence|done].
    + by rewrite IH.
Qed.

Lemma dict_get_wf k fields x :
  wf_json (JObj fields) = true -> dict_get k fields = Some x -> wf_json x = true.
Proof.
  cbn [wf_json]. intros [_ Hall]%andb_true_iff.
  induction fields as [|[k' v] fields IH]; [done|]. simpl in *.
  apply andb_true_iff in Hall as [Hv Hall].
  destruct (dict_get k fields) as [y|].
  - intros [= <-]. by apply IH.
  - destruct (String.eqb k k'); [|done]. by intros [= <-].
Qed.

Lemma dict_set_wf k v fields :
  wf_json (JObj fields) = true -> wf_json v = true ->
  wf_json (JObj (dict_set k v fields)) = true.
Proof.
  cbn [wf_json]. intros [Hnd Hall]%andb_true_iff Hv.
  apply bool_decide_eq_true in Hnd. apply andb_true_iff. split.
  { apply bool_decide_eq_true. by apply dict_set_NoDup. }
  clear Hnd. induction fields as [|[k' v'] fields IH]; simpl in *.
  - by rewrite Hv.
  - apply andb_true_iff in Hall as [Hv' Hall].
    destruct (String.eqb k k'); simpl; [by rewrite Hv, Hall|].
    by rewrite Hv', IH.
Qed.

Lemma split_on_nonempty sep s : forall cur, split_on sep cur s <> [].
Proof.
  induction s as [|c s IH]; intros cur; simpl; [done|].
  destruct (Ascii.eqb c sep); [done|apply IH].
Qed.

Lemma removelast_last (l : list string) :
  l <> [] -> removelast l ++ [default "" (last l)] = l.
Proof.
  induction l as [|x l IH]; [done|]. intros _.
  destruct l as [|y l]; [done|].
  change (removelast (x :: y :: l)) with (x :: removelast (y :: l)).
  change (last (x :: y :: l)) with (last (y :: l)).
  cbn [app]. f_equal. by apply IH.
Qed.

(** What a successful assignment along a path leaves. *)
Lemma set_path_get init : forall last_key value d d',
  wf_json d = true ->
  set_path init last_key value d = Ok d' ->
  get_path (init ++ [last_key]) d' = Some value
  /\ (wf_json value = true -> wf_json d' = true)
  /\ (forall other common k k' r r',
        other = common ++ k :: r -> init ++ [last_key] = common ++ k' :: r' ->
        k <> k' -> get_path other d' = get_path other d).
Proof.
  induction init as [|key init IH]; intros last_key value d d' Hwf H.
  - cbn [set_path] in H. destruct d as [| | | | | |fields]; try discriminate.
    injection H as <-. split; [|split].
    + cbn [app get_path]. rewrite dict_get_set_same; [done|].
      cbn [wf_json] in Hwf. apply andb_true_iff in Hwf as [Hnd _].
      by apply bool_decide_eq_true in Hnd.
    + intros Hv. by apply dict_set_wf.
    + intros other common k k' r r' -> Hkeys Hne.
      destruct common as [|c common].
      * cbn [app] in *. injection Hkeys as <- _. cbn [get_path].
        by rewrite dict_get_set_other.
      * cbn [app] in Hkeys. injection Hkeys as _ Hnil.
        by destruct common.
  - cbn [set_path] in H. destruct d as [| | | | | |fields]; try discriminate.
    res_inv H. rename H into Hd. injection Hd as <-.
    match goal with
    | Hc : set_path init last_key value ?child = Ok ?c' |- _ =>
        rename Hc into Hchild; rename c' into child'
    end.
    assert (wf_json (default (JObj []) (dict_get key fields)) = true) as Hcwf.
    { destruct (dict_get key fields) as [x|] eqn:Hx; [|done].
      by eapply dict_get_wf. }
    assert (NoDup (fst <$> fields)) as Hnd.
    { cbn [wf_json] in Hwf. apply andb_true_iff in Hwf as [Hnd _].
      by apply bool_decide_eq_true in Hnd. }
    destruct (IH _ _ _ _ Hcwf Hchild) as (Hget & Hwf' & Hframe).
    split; [|split].
    + cbn [app get_path]. rewrite dict_get_set_same by done. exact Hget.
    + intros Hv. apply dict_set_wf; [done|by apply Hwf'].
    + intros other common k k' r r' -> Hkeys Hne.
      destruct common as [|c common].
      * cbn [app] in *. injection Hkeys as <- _. cbn [get_path].
        by rewrite dict_get_set_other.
      * cbn [app] in *. injection Hkeys as <- Hkeys. cbn [get_path].
        rewrite dict_get_set_same by done. cbn [mbind option_bind].
        rewrite (Hframe _ common k k' r r' eq_refl Hkeys Hne).
        destruct (dict_get key fields) as [x|]; [done|].
        cbn [default from_option mbind option_bind].
        destruct common; cbn [app get_path]; done.
Qed.

(** X20: when [_set_nested] returns on a configuration in which no object
    holds a key twice, reading the dotted key back gives the value that was
    set, every path that branches off the dotted key reads as before, and
    the configuration still holds no key twice if the value holds none. *)
Theorem set_nested_read_back d dot_key value d' :
  wf_json d = true ->
  _set_nested d dot_key value = Ok d' ->
  let keys := split_on "." "" dot_key in
  get_path keys d' = Some value
  /\ (wf_json value = true -> wf_json d' = true)
  /\ (forall common k k' r r',
        keys = common ++ k' :: r' -> k <> k' ->
        get_path (common ++ k :: r) d' = get_path (common ++ k :: r) d).
Proof.
  intros Hwf H keys. unfold _set_nested in H. fold keys in H.
  destruct (set_path_get _ _ _ _ _ Hwf H) as (Hget & Hwf' & Hframe).
  rewrite removelast_last in Hget, Hframe by apply split_on_nonempty.
  split; [exact Hget|]. split; [exact Hwf'|].
  intros common k k' r r' Hkeys Hne. by eapply Hframe.
Qed.

Lemma set_nested_read_back_witness :
  let d := JObj [("search", JObj [("max_results", JInt 5)]);
                 ("script", JObj [("target_minutes", JInt 5)])] in
  exists d',
    wf_json d = true
    /\ _set_nested d "search.top_pages_to_fetch" (JInt 3) = Ok d'
    /\ get_path ["search"; "top_pages_to_fetch"] d' = Some (JInt 3)
    /\ get_path ["search"; "max_results"] d' = Some (JInt 5)
    /\ get_path ["script"] d' = get_path ["script"] d.
Proof.
  intros d.
  eassert (_set_nested d "search.top_pages_to_fetch" (JInt 3) = Ok _) as Hrun
    by (vm_compute; reflexivity).
  eexists. split; [reflexivity|]. split; [exact Hrun|].
  destruct (set_nested_read_back d "search.top_pages_to_fetch" (JInt 3) _
              eq_refl Hrun) as (Hget & _ & Hframe).
  split; [exact Hget|]. split.
  - etrans; [|reflexivity].
    apply (Hframe ["search"] "max_results" "top_pages_to_fetch" [] []);
      [reflexivity|discriminate].
  - apply (Hframe [] "script" "search" [] ["top_pages_to_fetch"]);
      [reflexivity|discriminate].
Defined.

Lemma get_path_empty_dict keys x :
  get_path keys (JObj []) = Some x -> keys = [] /\ x = JObj [].
Proof. destruct keys; [by intros [= <-]|done]. Qed.

(** Where an assignment along a path fails: at the first value on the path
    that is not a dict, with [AttributeError] from [setdefault] before the
    last key and [TypeError] from the assignment at the last key. *)
Lemma set_path_outcome init : forall last_key value d,
  match set_path init last_key value d with
  | Ok _ =>
      forall n x, (n <= length init)%nat ->
        get_path (take n init) d = Some x -> exists fields, x = JObj fields
  | Raise e =>
      exists n x,
        (n <= length init)%nat /\ get_path (take n init) d = Some x
        /\ (forall fields, x <> JObj fields)
        /\ e = if (n <? length init)%nat then AttributeError else TypeError
  end.
Proof.
  induction init as [|key init IH]; intros last_key value d.
  - cbn [set_path]. destruct d as [| | | | | |fields];
      try (exists 0%nat; eexists; split; [done|]; split; [reflexivity|];
           split; [done|reflexivity]).
    intros n x Hn. rewrite take_nil. intros [= <-]. eauto.
  - cbn [set_path]. destruct d as [| | | | | |fields];
      try (exists 0%nat; eexists; split; [simpl; lia|];
           split; [reflexivity|]; split; [done|reflexivity]).
    specialize (IH last_key value (default (JObj []) (dict_get key fields))).
    destruct (set_path init last_key value _) as [child'|e];
      cbn [mbind res_bind].
    + intros [|n] x Hn; [intros [= <-]; eauto|].
      cbn [take get_path length] in *.
      destruct (dict_get key fields) as [c|]; [|done].
      cbn [mbind option_bind default from_option] in *.
      apply IH. lia.
    + destruct IH as (n & x & Hn & Hget & Hx & ->).
      destruct (dict_get key fields) as [c|] eqn:Hc.
      * exists (S n), x. split; [simpl; lia|].
        split; [cbn [take get_path]; by rewrite Hc|]. split; [done|].
        cbn [length]. by destruct (Nat.ltb_spec n (length init));
          destruct (Nat.ltb_spec (S n) (S (length init))); try lia.
      * cbn [default from_option] in Hget.
        apply get_path_empty_dict in Hget as [_ ->]. by destruct (Hx []).
Qed.

(** X21: [_set_nested] returns exactly when every value that the
    configuration holds under a proper prefix of the dotted key is a dict
    (the configuration itself among them); otherwise it raises at the
    first such value that is not a dict, [AttributeError] when keys are left
    after it and [TypeError] when it is the one to assign in. *)
Theorem set_nested_errors d dot_key value :
  let keys := split_on "." "" dot_key in
  (returns (_set_nested d dot_key value) <->
     forall n x, (n < length keys)%nat ->
       get_path (take n keys) d = Some x -> exists fields, x = JObj fields)
  /\ (forall e, _set_nested d dot_key value = Raise e ->
        exists n x,
          (n < length keys)%nat /\ get_path (take n keys) d = Some x
          /\ (forall fields, x <> JObj fields)
          /\ e = if (S n <? length keys)%nat then AttributeError
                 else TypeError).
Proof.
  intros keys. unfold _set_nested. fold keys.
  pose proof (removelast_last keys (split_on_nonempty _ _ _)) as Hkeys.
  set (init := removelast keys) in *.
  set (last_key := default "" (last keys)) in *.
  assert (length keys = S (length init)) as Hlen.
  { rewrite <- Hkeys, length_app. simpl. lia. }
  assert (forall n, (n <= length init)%nat -> take n keys = take n init) as Htake.
  { intros n Hn. rewrite <- Hkeys. by apply take_app_le. }
  pose proof (set_path_outcome init last_key value d) as H.
  destruct (set_path init last_key value d) as [d'|e].
  - split; [|done]. split; [|by eexists].
    intros _ n x Hn. rewrite Htake by lia. apply H. lia.
  - destruct H as (n & x & Hn & Hget & Hx & ->). split.
    + split; [by intros [? ?]|]. intros Hall.
      destruct (Hall n x) as [fields ->]; [lia|by rewrite Htake|].
      by destruct (Hx fields).
    + intros e' [= <-]. exists n, x. split; [lia|].
      split; [by rewrite Htake|]. split; [done|]. rewrite Hlen.
      by destruct (Nat.ltb_spec n (length init));
        destruct (Nat.ltb_spec (S n) (S (length init))); try lia.
Qed.

(** ** The [--set] arguments *)

Lemma contains_char_app c a b :
  contains_char c (a +:+ b) = contains_char c a || contains_char c b.
Proof.
  induction a as [|x a IH]; [done|].
  rewrite append_cons. simpl. by rewrite IH, orb_assoc.
Qed.

Lemma span_until_first stop k rest :
  contains_char stop k = false ->
  span_until stop (k +:+ String stop rest) = (k, String stop rest).
Proof.
  induction k as [|x k IH].
  - intros _. rewrite append_nil_l. simpl. by rewrite Ascii.eqb_refl.
  - rewrite append_cons. simpl. intros [Hx Hk]%orb_false_iff.
    rewrite Hx, (IH Hk). done.
Qed.

Lemma auto_cast_error v e :
  auto_cast v = Failed e -> exists msg, e = ValueError msg.
Proof.
  unfold auto_cast, py_float, py_int.
  repeat case_match; try discriminate; intros [= <-]; eauto.
Qed.

Lemma collect_overrides_spec set_args : forall overrides,
  NoDup (fst <$> overrides) ->
  match collect_overrides overrides set_args with
  | Done items =>
      NoDup (fst <$> items)
      /\ (length items <= length overrides + length set_args)%nat
      /\ (overrides <> [] \/ set_args <> [] -> items <> [])
      /\ Forall (fun item => contains_char "=" item = true) set_args
  | Failed e => exists msg, e = ValueError msg
  end.
Proof.
  induction set_args as [|item rest IH]; intros overrides Hnd.
  - cbn [collect_overrides]. split; [done|]. split; [simpl; lia|].
    split; [by intros [H|H]|constructor].
  - cbn [collect_overrides].
    destruct (contains_char "=" item) eqn:Heq; cbn [negb]; [|eauto].
    destruct (split_once "=" item) as [k v].
    destruct (auto_cast v) as [x|e] eqn:Hx; cbn [mbind checked_bind].
    2:{ by apply auto_cast_error in Hx. }
    specialize (IH (dict_set k x overrides) (dict_set_NoDup k x _ Hnd)).
    destruct (collect_overrides _ rest) as [items|e]; [|done].
    destruct IH as (Hnd' & Hlen & Hne & Hall).
    split; [done|]. split.
    { assert (length (dict_set k x overrides) <= S (length overrides))%nat.
      { clear. induction overrides as [|[k' v'] o IH]; simpl; [lia|].
        destruct (String.eqb k k'); simpl; lia. }
      simpl. lia. }
    split; [|by constructor].
    intros _. apply Hne. left. by destruct overrides as [|[k' v'] o];
      simpl; [|destruct (String.eqb k k')].
Qed.

Lemma apply_set_single k v :
  contains_char "=" k = false ->
  _apply_set_overrides [k +:+ "=" +:+ v]
  = (fun x => Some [(k, x)]) <$> auto_cast v.
Proof.
  intros Hk. unfold _apply_set_overrides. cbn [collect_overrides].
  rewrite contains_char_app. change ("=" +:+ v) with (String "=" v).
  cbn [contains_char]. rewrite Ascii.eqb_refl, orb_true_r. cbn [negb].
  unfold split_once. rewrite (span_until_first "=" k v Hk).
  cbn [drop_str]. destruct (auto_cast v) as [x|e]; reflexivity.
Qed.

Lemma collect_overrides_app pre : forall overrides overrides' rest,
  collect_overrides overrides pre = Done overrides' ->
  collect_overrides overrides (pre ++ rest) = collect_overrides overrides' rest.
Proof.
  induction pre as [|item pre IH]; intros overrides overrides' rest H.
  - by injection H as <-.
  - cbn [app collect_overrides] in *.
    destruct (negb (contains_char "=" item)); [discriminate|].
    destruct (split_once "=" item) as [k v].
    destruct (auto_cast v) as [x|e]; [|discriminate].
    cbn [mbind checked_bind] in *. by apply IH.
Qed.

(** X22: [_apply_set_overrides] gives [None] for no argument and for no
    argument only; an argument is split at its first [=], so the value may
    hold one; an argument without [=], the first one or one that follows
    arguments that are accepted, raises [ValueError] with the argument in
    its message; no other kind of exception is raised; and the dict
    returned for arguments is not empty, has each key once and at most one
    key per argument. *)
Theorem set_overrides_parse :
  _apply_set_overrides [] = Done None
  /\ (forall k v, contains_char "=" k = false ->
        _apply_set_overrides [k +:+ "=" +:+ v]
        = (fun x => Some [(k, x)]) <$> auto_cast v)
  /\ (forall item rest, contains_char "=" item = false ->
        _apply_set_overrides (item :: rest)
        = Failed (ValueError
            ("--set must be in format key=value, got: " +:+ item)))
  /\ (forall set_args e, _apply_set_overrides set_args = Failed e ->
        exists msg, e = ValueError msg)
  /\ (forall set_args items,
        _apply_set_overrides set_args = Done (Some items) ->
        set_args <> [] /\ items <> [] /\ NoDup (fst <$> items)
        /\ (length items <= length set_args)%nat
        /\ Forall (fun item => contains_char "=" item = true) set_args)
  /\ (forall set_args,
        _apply_set_overrides set_args = Done None <-> set_args = [])
  /\ (forall pre overrides item post,
        collect_overrides [] pre = Done overrides ->
        contains_char "=" item = false ->
        _apply_set_overrides (pre ++ item :: post)
        = Failed (ValueError
            ("--set must be in format key=value, got: " +:+ item))).
Proof.
  split; [done|]. split.
  { apply apply_set_single. }
  split.
  { intros item rest Hitem. unfold _apply_set_overrides.
    cbn [collect_overrides]. by rewrite Hitem. }
  assert (forall set_args,
            match collect_overrides [] set_args with
            | Done items =>
                NoDup (fst <$> items)
                /\ (length items <= length set_args)%nat
                /\ (set_args <> [] -> items <> [])
                /\ Forall (fun item => contains_char "=" item = true) set_args
            | Failed e => exists msg, e = ValueError msg
            end) as Hspec.
  { intros set_args.
    pose proof (collect_overrides_spec set_args [] (NoDup_nil_2)) as H.
    destruct (collect_overrides [] set_args) as [items|e]; [|done].
    destruct H as (? & ? & Hne & ?). repeat split; auto. }
  split.
  { intros set_args e. unfold _apply_set_overrides.
    destruct set_args as [|a rest]; [done|]. specialize (Hspec (a :: rest)).
    destruct (collect_overrides [] (a :: rest)); [done|].
    by intros [= <-]. }
  split.
  { intros set_args items. unfold _apply_set_overrides.
    destruct set_args as [|a rest]; [done|]. specialize (Hspec (a :: rest)).
    destruct (collect_overrides [] (a :: rest)) as [items'|]; [|done].
    intros [= <-]. destruct Hspec as (? & ? & Hne & ?).
    repeat split; auto. }
  split.
  { intros set_args. unfold _apply_set_overrides.
    destruct set_args as [|a rest]; [done|].
    split; [|done]. by destruct (collect_overrides [] (a :: rest)). }
  intros pre overrides item post Hpre Hitem. unfold _apply_set_overrides.
  destruct (pre ++ item :: post) as [|a rest] eqn:Hargs;
    [by destruct pre|].
  rewrite <- Hargs, (collect_overrides_app pre [] overrides _ Hpre).
  cbn [collect_overrides]. by rewrite Hitem.
Qed.

(** *** The cast of a value *)

Lemma digit_or_dot_char c :
  digit_or_dot c = true ->
  lower_char c = c /\ Ascii.eqb c "t" = false /\ Ascii.eqb c "f" = false.
Proof.
  destruct c as [[] [] [] [] [] [] [] []]; try discriminate; done.
Qed.

Lemma decimal_digit c : is_decimal_char c = true -> is_digit_char c = true.
Proof.
  unfold is_decimal_char, is_digit_char. by intros ->.
Qed.

Lemma digit_not_dot c : is_digit_char c = true -> Ascii.eqb c "." = false.
Proof.
  destruct c as [[] [] [] [] [] [] [] []]; try discriminate; done.
Qed.

Lemma not_bool_word c r :
  digit_or_dot c = true ->
  String.eqb (lower (String c r)) "true" = false
  /\ String.eqb (lower (String c r)) "false" = false.
Proof.
  intros (Hl & Ht & Hf)%digit_or_dot_char. cbn [lower]. rewrite Hl.
  cbn [String.eqb]. by rewrite Ht, Hf.
Qed.

Lemma remove_char_app c a b :
  remove_char c (a +:+ b) = remove_char c a +:+ remove_char c b.
Proof.
  induction a as [|x a IH]; [done|].
  rewrite append_cons. simpl. destruct (Ascii.eqb x c); [done|].
  by rewrite append_cons, IH.
Qed.

Lemma remove_char_id c s : contains_char c s = false -> remove_char c s = s.
Proof.
  induction s as [|x s IH]; [done|]. simpl.
  intros [-> Hs]%orb_false_iff. by rewrite IH.
Qed.

Lemma digits_no_dot s :
  all_chars is_digit_char s = true -> contains_char "." s = false.
Proof. intros H. by apply (all_chars_contains is_digit_char). Qed.

Lemma remove_dots_digits s :
  all_chars digit_or_dot s = true ->
  all_chars is_digit_char (remove_char "." s) = true.
Proof.
  induction s as [|c s IH]; [done|]. simpl.
  intros [Hc Hs]%andb_true_iff. destruct (Ascii.eqb c ".") eqn:Hdot.
  - by apply IH.
  - simpl. unfold digit_or_dot in Hc. rewrite Hdot, orb_false_r in Hc.
    by rewrite Hc, IH.
Qed.

Lemma remove_dots_digits_inv s :
  all_chars is_digit_char (remove_char "." s) = true ->
  all_chars digit_or_dot s = true.
Proof.
  induction s as [|c s IH]; [done|]. simpl. unfold digit_or_dot at 1.
  destruct (Ascii.eqb c ".") eqn:Hdot.
  - intros H. by rewrite orb_true_r, IH.
  - simpl. intros [Hc Hs]%andb_true_iff. by rewrite Hc, IH.
Qed.

Lemma split_on_app sep a s : forall cur,
  contains_char sep a = false ->
  split_on sep cur (a +:+ s) = split_on sep (cur +:+ a) s.
Proof.
  induction a as [|x a IH]; intros cur.
  - intros _. by rewrite append_nil_l, append_nil_r.
  - rewrite append_cons. simpl. intros [-> Ha]%orb_false_iff.
    rewrite IH by done. by rewrite append_assoc.
Qed.

Lemma split_on_none sep a cur :
  contains_char sep a = false -> split_on sep cur a = [cur +:+ a].
Proof.
  intros Ha. rewrite <- (append_nil_r a) at 1.
  by rewrite split_on_app.
Qed.

Lemma split_on_sep sep cur s :
  split_on sep cur (String sep s) = cur :: split_on sep "" s.
Proof. simpl. by rewrite Ascii.eqb_refl. Qed.

Lemma all_chars_weaken_decimal s :
  all_chars is_decimal_char s = true -> all_chars is_digit_char s = true.
Proof. apply all_chars_impl, decimal_digit. Qed.

Lemma isdigit_digits s :
  s <> "" -> all_chars is_digit_char s = true -> isdigit s = true.
Proof. by destruct s. Qed.

Lemma append_eq_nil (a b : string) : a +:+ b = "" -> a = "" /\ b = "".
Proof. by destruct a. Qed.

Lemma decimal_prefix_all v :
  all_chars is_decimal_char v = true -> decimal_prefix v = String.length v.
Proof.
  induction v as [|c v IH]; [done|]. simpl.
  intros [-> Hv]%andb_true_iff. by rewrite IH.
Qed.

Lemma auto_cast_cases :
  (forall v, lower v = "true" -> auto_cast v = Done (JBool true))
  /\ (forall v, lower v = "false" -> auto_cast v = Done (JBool false))
  /\ (forall v, v <> "" -> all_chars is_decimal_char v = true ->
        (Z.of_nat (String.length v) <= 4300)%Z ->
        auto_cast v = Done (JInt (decimal_value 0 v)))
  /\ (forall v, all_chars is_decimal_char v = true ->
        (4300 < Z.of_nat (String.length v))%Z ->
        auto_cast v
        = Failed (ValueError (digit_limit_exceeded (String.length v))))
  /\ (forall ip fp, ip +:+ fp <> "" ->
        all_chars is_decimal_char ip = true ->
        all_chars is_decimal_char fp = true ->
        (Z.of_nat (String.length ip) <= 308)%Z ->
        auto_cast (ip +:+ "." +:+ fp)
        = Done (JFloat (Qmake (decimal_value 0 (ip +:+ fp))
                          (Z.to_pos (10 ^ Z.of_nat (String.length fp))))))
  /\ (forall a b rest, a <> "" ->
        all_chars is_decimal_char a = true ->
        all_chars is_decimal_char b = true ->
        all_chars digit_or_dot rest = true ->
        let v := a +:+ "." +:+ b +:+ "." +:+ rest in
        auto_cast v
        = Failed (ValueError
            ("could not convert string to float: '" +:+ v +:+ "'")))
  /\ (forall v, v <> "" -> all_chars is_digit_char v = true ->
        all_chars is_decimal_char v = false ->
        (Z.of_nat (decimal_prefix v) <= 4300)%Z ->
        auto_cast v = Failed (ValueError (invalid_int_literal v)))
  /\ (forall v, all_chars digit_or_dot v = false ->
        lower v <> "true" -> lower v <> "false" ->
        auto_cast v = Done (JStr v)).
Proof.
  split; [by intros v Hv; unfold auto_cast; rewrite Hv|].
  split; [by intros v Hv; unfold auto_cast; rewrite Hv|].
  assert (forall v, v <> "" -> all_chars is_digit_char v = true ->
            auto_cast v = py_int v) as Hint.
  { intros v Hne Hv. unfold auto_cast.
    destruct v as [|c r]; [done|].
    destruct (not_bool_word c r) as [-> ->].
    { cbn [all_chars] in Hv. apply andb_true_iff in Hv as [Hc _].
      unfold digit_or_dot. by rewrite Hc. }
    rewrite (remove_char_id "." (String c r)) by by apply digits_no_dot.
    rewrite isdigit_digits by done.
    by rewrite digits_no_dot. }
  split.
  { intros v Hne Hv Hlen.
    rewrite Hint by (by try apply all_chars_weaken_decimal).
    unfold py_int. rewrite (decimal_prefix_all v Hv).
    destruct (Z.ltb_spec 4300 (Z.of_nat (String.length v))); [lia|].
    by rewrite Hv. }
  split.
  { intros v Hv Hlen.
    assert (v <> "") as Hne by (intros ->; simpl in Hlen; lia).
    rewrite Hint by (by try apply all_chars_weaken_decimal).
    unfold py_int. rewrite (decimal_prefix_all v Hv).
    by destruct (Z.ltb_spec 4300 (Z.of_nat (String.length v))); [|lia]. }
  assert (forall v c r, v = String c r -> digit_or_dot c = true ->
            contains_char "." v = true ->
            remove_char "." v <> "" ->
            all_chars digit_or_dot v = true ->
            auto_cast v = py_float v) as Hfloat.
  { intros v c r -> Hc Hdot Hne Hv. unfold auto_cast.
    destruct (not_bool_word c r Hc) as [-> ->].
    rewrite isdigit_digits by (by try apply remove_dots_digits).
    by rewrite Hdot. }
  split.
  { intros ip fp Hne Hip Hfp _.
    pose proof (digits_no_dot ip (all_chars_weaken_decimal _ Hip)) as Hipd.
    pose proof (digits_no_dot fp (all_chars_weaken_decimal _ Hfp)) as Hfpd.
    assert (all_chars digit_or_dot (ip +:+ "." +:+ fp) = true) as Hall.
    { apply remove_dots_digits_inv.
      rewrite !remove_char_app, (remove_char_id "." ip), (remove_char_id "." fp)
        by done.
      change (remove_char "." ".") with "". rewrite append_nil_l.
      rewrite all_chars_app. by rewrite !all_chars_weaken_decimal. }
    assert (exists c r, ip +:+ "." +:+ fp = String c r) as (c & r & Hv).
    { destruct ip; [rewrite append_nil_l|rewrite append_cons]; eauto. }
    rewrite (Hfloat _ c r Hv).
    - unfold py_float.
      rewrite split_on_app, append_nil_l by done.
      change ("." +:+ fp) with (String "." fp).
      rewrite split_on_sep, split_on_none, append_nil_l by done.
      by rewrite Hip, Hfp.
    - rewrite Hv in Hall. cbn [all_chars] in Hall.
      by apply andb_true_iff in Hall as [-> _].
    - rewrite !contains_char_app. simpl. by rewrite orb_true_r.
    - rewrite !remove_char_app,
        (remove_char_id "." ip), (remove_char_id "." fp) by done.
      change (remove_char "." ".") with "". by rewrite append_nil_l.
    - exact Hall. }
  split.
  { intros a b rest Hne Ha Hb Hrest v.
    pose proof (digits_no_dot a (all_chars_weaken_decimal _ Ha)) as Had.
    pose proof (digits_no_dot b (all_chars_weaken_decimal _ Hb)) as Hbd.
    assert (exists c r, a = String c r) as (c & r & Ea)
      by (destruct a; [done|eauto]).
    assert (remove_char "." v = a +:+ b +:+ remove_char "." rest) as Hrem.
    { unfold v.
      rewrite !remove_char_app, (remove_char_id "." a), (remove_char_id "." b)
        by done.
      change (remove_char "." ".") with "". by rewrite !append_nil_l. }
    assert (all_chars digit_or_dot v = true) as Hall.
    { apply remove_dots_digits_inv. rewrite Hrem.
      rewrite !all_chars_app, !all_chars_weaken_decimal by done.
      by rewrite remove_dots_digits. }
    rewrite (Hfloat v c (r +:+ "." +:+ b +:+ "." +:+ rest)).
    - unfold py_float, v.
      rewrite split_on_app, append_nil_l by done.
      change ("." +:+ b +:+ "." +:+ rest)
        with (String "." (b +:+ "." +:+ rest)).
      rewrite split_on_sep, split_on_app, append_nil_l by done.
      change ("." +:+ rest) with (String "." rest).
      rewrite split_on_sep.
      pose proof (split_on_nonempty "." rest "") as Hrest'.
      by destruct (split_on "." "" rest).
    - unfold v. by rewrite Ea, append_cons.
    - rewrite Ea in Ha. cbn [all_chars] in Ha.
      apply andb_true_iff in Ha as [Hc _]. unfold digit_or_dot.
      by rewrite (decimal_digit c Hc).
    - unfold v. rewrite !contains_char_app. simpl. by rewrite orb_true_r.
    - rewrite Hrem, Ea, append_cons. done.
    - exact Hall. }
  split.
  { intros v Hne Hv Hdec Hpre. rewrite Hint by done. unfold py_int.
    destruct (Z.ltb_spec 4300 (Z.of_nat (decimal_prefix v))); [lia|].
    by rewrite Hdec. }
  intros v Hv Ht Hf. unfold auto_cast.
  destruct (String.eqb_spec (lower v) "true"); [done|].
  destruct (String.eqb_spec (lower v) "false"); [done|].
  destruct (isdigit (remove_char "." v)) eqn:Hd; [|done].
  assert (all_chars is_digit_char (remove_char "." v) = true) as Hd'.
  { unfold isdigit in Hd. by destruct (remove_char "." v). }
  apply remove_dots_digits_inv in Hd'. congruence.
Qed.

(** X23: the cast of the value of a [--set] argument: [true] and [false]
    in any case give the booleans; a non-empty run of at most 4300 decimal
    digits gives the integer it writes (leading zeros dropped), and a
    longer one raises the [ValueError] of the digit limit of [int]; digits
    with one dot, at most 308 of them before the dot, give the float;
    digits with two dots or more, as a version number, raise [ValueError]
    from [float], and so does, from [int], a value that [isdigit] accepts
    with a digit that is not decimal; any value with a character that is
    neither a digit nor a dot stays a string. *)
Theorem set_value_casts k :
  contains_char "=" k = false ->
  let set v := _apply_set_overrides [k +:+ "=" +:+ v] in
  (forall v, lower v = "true" -> set v = Done (Some [(k, JBool true)]))
  /\ (forall v, lower v = "false" -> set v = Done (Some [(k, JBool false)]))
  /\ (forall v, v <> "" -> all_chars is_decimal_char v = true ->
        (Z.of_nat (String.length v) <= 4300)%Z ->
        set v = Done (Some [(k, JInt (decimal_value 0 v))]))
  /\ (forall v, all_chars is_decimal_char v = true ->
        (4300 < Z.of_nat (String.length v))%Z ->
        set v = Failed (ValueError (digit_limit_exceeded (String.length v))))
  /\ (forall ip fp, ip +:+ fp <> "" ->
        all_chars is_decimal_char ip = true ->
        all_chars is_decimal_char fp = true ->
        (Z.of_nat (String.length ip) <= 308)%Z ->
        set (ip +:+ "." +:+ fp)
        = Done (Some [(k, JFloat (Qmake (decimal_value 0 (ip +:+ fp))
                          (Z.to_pos (10 ^ Z.of_nat (String.length fp)))))]))
  /\ (forall a b rest, a <> "" ->
        all_chars is_decimal_char a = true ->
        all_chars is_decimal_char b = true ->
        all_chars digit_or_dot rest = true ->
        let v := a +:+ "." +:+ b +:+ "." +:+ rest in
        set v = Failed (ValueError
                  ("could not convert string to float: '" +:+ v +:+ "'")))
  /\ (forall v, v <> "" -> all_chars is_digit_char v = true ->
        all_chars is_decimal_char v = false ->
        (Z.of_nat (decimal_prefix v) <= 4300)%Z ->
        set v = Failed (ValueError (invalid_int_literal v)))
  /\ (forall v, all_chars digit_or_dot v = false ->
        lower v <> "true" -> lower v <> "false" ->
        set v = Done (Some [(k, JStr v)])).
Proof.
  intros Hk set.
  destruct auto_cast_cases
    as (Ht & Hf & Hi & Hlim & Hfl & Hver & Hsup & Hstr).
  unfold set. repeat split; intros; rewrite (apply_set_single k _ Hk).
  - by rewrite Ht.
  - by rewrite Hf.
  - by rewrite Hi.
  - by rewrite Hlim.
  - by rewrite Hfl.
  - by rewrite Hver.
  - by rewrite Hsup.
  - by rewrite Hstr.
Qed.

Lemma set_value_casts_witness :
  contains_char "=" "search.max_results" = false
  /\ _apply_set_overrides ["search.max_results=007"]
     = Done (Some [("search.max_results", JInt 7)])
  /\ _apply_set_overrides ["tag=1.2.3"]
     = Failed (ValueError "could not convert string to float: '1.2.3'").
Proof.
  split; [reflexivity|]. split.
  - destruct (set_value_casts "search.max_results" eq_refl)
      as (_ & _ & Hint & _).
    exact (Hint "007" ltac:(discriminate) eq_refl
             ltac:(vm_compute; discriminate)).
  - destruct (set_value_casts "tag" eq_refl)
      as (_ & _ & _ & _ & _ & Hver & _).
    exact (Hver "1" "2" "3" ltac:(discriminate) eq_refl eq_refl eq_refl).
Defined.

(** ** The search providers *)

Local Ltac in_list := repeat first [by left | right].

(** X24: [get_search_provider] looks the name up without regard to case;
    the provider it returns has the lower-cased name as its
    [provider_name]; a name that is not one of the four raises
    [ValueError]; [searx] never fails and falls back to
    [http://localhost:8080]; and the only other failure is the [KeyError]
    of an environment variable of the provider that is not set. *)
Theorem search_provider_lookup (env : gmap string string) (name : string) :
  (forall p, get_search_provider env name = Done p ->
     provider_name p = lower name)
  /\ (lower name ∉ ["google"; "bing"; "serpapi"; "searx"] ->
      get_search_provider env name
      = Failed (ValueError
          ("Unknown search provider '" +:+ name +:+ "'. Available: "
           +:+ "['google', 'bing', 'serpapi', 'searx']")))
  /\ (lower name = "searx" ->
      get_search_provider env name
      = Done (SearxProvider
                (default "http://localhost:8080" (env !! "SEARX_BASE_URL"))))
  /\ (forall e, get_search_provider env name = Failed (Builtin e) ->
        exists var, e = KeyError var /\ env !! var = None
          /\ var ∈ ["GOOGLE_SEARCH_API_KEY"; "GOOGLE_SEARCH_CX";
                    "BING_SEARCH_API_KEY"; "SERPAPI_KEY"]).
Proof.
  unfold get_search_provider, _SEARCH_PROVIDERS. cbn [assoc_get].
  destruct (String.eqb_spec (lower name) "google") as [-> | Hg].
  { unfold environ.
    split; [|split; [|split]].
    - intros p.
      destruct (env !! "GOOGLE_SEARCH_API_KEY"); [|done].
      destruct (env !! "GOOGLE_SEARCH_CX"); [|done].
      by intros [= <-].
    - intros Hnot. destruct Hnot. in_list.
    - done.
    - intros e.
      destruct (env !! "GOOGLE_SEARCH_API_KEY") eqn:H1.
      + destruct (env !! "GOOGLE_SEARCH_CX") eqn:H2; [done|].
        intros [= <-]. eexists. split; [done|]. split; [done|in_list].
      + intros [= <-]. eexists. split; [done|]. split; [done|in_list]. }
  destruct (String.eqb_spec (lower name) "bing") as [-> | Hb].
  { unfold environ.
    split; [|split; [|split]].
    - intros p. destruct (env !! "BING_SEARCH_API_KEY"); [|done].
      by intros [= <-].
    - intros Hnot. destruct Hnot. in_list.
    - done.
    - intros e. destruct (env !! "BING_SEARCH_API_KEY") eqn:H1; [done|].
      intros [= <-]. eexists. split; [done|]. split; [done|in_list]. }
  destruct (String.eqb_spec (lower name) "serpapi") as [-> | Hs].
  { unfold environ.
    split; [|split; [|split]].
    - intros p. destruct (env !! "SERPAPI_KEY"); [|done].
      by intros [= <-].
    - intros Hnot. destruct Hnot. in_list.
    - done.
    - intros e. destruct (env !! "SERPAPI_KEY") eqn:H1; [done|].
      intros [= <-]. eexists. split; [done|]. split; [done|in_list]. }
  destruct (String.eqb_spec (lower name) "searx") as [-> | Hx].
  { split; [|split; [|split]].
    - by intros p [= <-].
    - intros Hnot. destruct Hnot. in_list.
    - done.
    - done. }
  split; [done|]. split; [done|]. split; [done|done].
Qed.

Lemma results_of_positions tk uk sk items : forall results,
  results_of tk uk sk items = Ok results ->
  res_position <$> results = fst <$> items.
Proof.
  induction items as [|[i item] items IH]; intros results H.
  - by injection H as <-.
  - cbn [results_of] in H. res_inv H. injection H as <-.
    rewrite !fmap_cons. cbn [res_position fst]. f_equal. by apply IH.
Qed.

Lemma imap_seq_from {A : Type} (l : list A) : forall k,
  fst <$> imap (fun i x => (Z.of_nat (k + i), x)) l
  = Z.of_nat <$> seq k (length l).
Proof.
  induction l as [|x l IH]; intros k; [done|].
  rewrite imap_cons, fmap_cons. cbn [fst length seq]. rewrite fmap_cons.
  rewrite Nat.add_0_r. f_equal.
  rewrite <- (IH (S k)). f_equal. apply imap_ext. intros i y _. simpl.
  do 2 f_equal. lia.
Qed.

Lemma enumerate_positions {A : Type} (l : list A) :
  fst <$> enumerate l = Z.of_nat <$> seq 0 (length l).
Proof. unfold enumerate. apply (imap_seq_from l 0). Qed.

Lemma ranked_positions tk uk sk items results :
  results_of tk uk sk (enumerate items) = Ok results ->
  res_position <$> results = Z.of_nat <$> seq 0 (length results)
  /\ length results = length items.
Proof.
  intros H%results_of_positions. rewrite enumerate_positions in H.
  assert (length results = length items) as Hlen.
  { apply (f_equal length) in H.
    by rewrite !length_fmap, length_seq in H. }
  by rewrite Hlen.
Qed.

(** X25: the results that a search provider returns carry their 0-based
    rank in the response as position, whichever the provider; the Searx
    provider returns at most [max_results] of them when [max_results] is
    not negative. *)
Theorem provider_results_ranked (http_json : Request -> res JSON)
  (p : SearchProvider) (query : string) (max_results : Z)
  (results : list ProviderResult) :
  provider_search http_json p query max_results = Ok results ->
  res_position <$> results = Z.of_nat <$> seq 0 (length results)
  /\ (forall i r, results !! i = Some r -> res_position r = Z.of_nat i)
  /\ (forall base_url, p = SearxProvider base_url -> (0 <= max_results)%Z ->
        (length results <= Z.to_nat max_results)%nat).
Proof.
  intros H.
  assert (res_position <$> results = Z.of_nat <$> seq 0 (length results)
          /\ (forall base_url, p = SearxProvider base_url ->
                (0 <= max_results)%Z ->
                (length results <= Z.to_nat max_results)%nat)) as [Hpos Hmax].
  { destruct p as [api_key cx|api_key|api_key|base_url];
      cbn [provider_search] in H; res_inv H.
    - apply ranked_positions in H as [H _]. done.
    - apply ranked_positions in H as [H _]. done.
    - apply ranked_positions in H as [H _]. done.
    - apply ranked_positions in H as [H Hlen]. split; [done|].
      intros _ _ Hn. rewrite Hlen.
      match goal with
      | Hs : py_slice_value ?v max_results = Ok ?sliced,
        Hi : py_iter ?sliced = Ok ?items |- _ =>
          destruct v; try discriminate; cbn [py_slice_value py_slice_to] in Hs;
          cbn [mbind res_bind] in Hs; injection Hs as <-;
          injection Hi as <-
      end.
      + destruct (Z.leb_spec 0 max_results); [|lia].
        rewrite length_fmap, list_ascii_of_string_of_list_ascii, length_take.
        lia.
      + destruct (Z.leb_spec 0 max_results); [|lia].
        rewrite length_take. lia. }
  split; [exact Hpos|]. split; [|exact Hmax].
  intros i r Hi.
  assert ((res_position <$> results) !! i = Some (res_position r)) as Hr
    by (by rewrite list_lookup_fmap, Hi).
  rewrite Hpos, list_lookup_fmap in Hr.
  destruct (seq 0 (length results) !! i) as [j|] eqn:Hj; [|done].
  apply lookup_seq in Hj as [-> _]. by injection Hr as <-.
Qed.

Lemma provider_results_ranked_witness :
  exists results,
    provider_search demo_http_json (SearxProvider "http://localhost:8080")
      "rust" 2 = Ok results
    /\ res_position <$> results = [0%Z; 1%Z]
    /\ res_snippet <$> results = [JStr "first snippet"; JStr ""].
Proof.
  eassert (provider_search demo_http_json (SearxProvider "http://localhost:8080")
             "rust" 2 = Ok _) as Hrun by (vm_compute; reflexivity).
  eexists. split; [exact Hrun|].
  destruct (provider_results_ranked _ _ _ _ _ Hrun) as (Hpos & _ & _).
  split; [exact Hpos|reflexivity].
Defined.

(** ** The configuration of a run *)

(** X26: when [--set] arguments are given and [run_generate] gets its
    configuration, that configuration is built from the base configuration
    with the [--set] overrides alone: the overrides of the topic file are
    not in it, and any topic file that loads, or none, gives the same
    configuration. *)
Theorem set_replaces_topic_overrides (_build : JSON -> checked RuntimeConfig)
  (base : JSON) (topic_doc : option JSON) (set_args : list string)
  (cfg : RuntimeConfig) :
  set_args <> [] ->
  run_generate_config _build base topic_doc set_args = Done cfg ->
  (exists items raw,
     _apply_set_overrides set_args = Done (Some items)
     /\ apply_overrides base items = Ok raw
     /\ _build raw = Done cfg)
  /\ (forall topic_doc' cfg',
        load _build base topic_doc' = Done cfg' ->
        run_generate_config _build base topic_doc' set_args = Done cfg).
Proof.
  intros Hargs H.
  assert (exists items raw,
            _apply_set_overrides set_args = Done (Some items)
            /\ items <> []
            /\ apply_overrides base items = Ok raw
            /\ _build raw = Done cfg) as (items & raw & Hset & Hne & Hraw & Hb).
  { unfold run_generate_config in H.
    destruct (load _build base topic_doc) as [cfg0|]; [|done].
    cbn [mbind checked_bind] in H.
    destruct (_apply_set_overrides set_args) as [[items|]|] eqn:Hset;
      [| |done]; cbn [mbind checked_bind] in H.
    - destruct items as [|kv items].
      + unfold _apply_set_overrides in Hset.
        destruct set_args as [|a rest]; [done|].
        pose proof (collect_overrides_spec (a :: rest) [] NoDup_nil_2) as Hs.
        destruct (collect_overrides [] (a :: rest)) as [items'|]; [|done].
        injection Hset as ->. destruct Hs as (_ & _ & Hne & _).
        destruct Hne; [by right|done].
      + destruct (apply_overrides base (kv :: items)) as [raw|] eqn:Hraw;
          [|done].
        cbn [of_res mbind checked_bind] in H. exists (kv :: items), raw. done.
    - unfold _apply_set_overrides in Hset.
      destruct set_args as [|a rest]; [done|].
      by destruct (collect_overrides [] (a :: rest)). }
  split; [by exists items, raw|].
  intros topic_doc' cfg' Hload. unfold run_generate_config.
  rewrite Hload. cbn [mbind checked_bind]. rewrite Hset.
  cbn [mbind checked_bind]. destruct items as [|kv items]; [done|].
  rewrite Hraw. exact Hb.
Qed.

Lemma set_replaces_topic_overrides_witness :
  exists cfg,
    ["search.max_results=3"] <> []
    /\ run_generate_config demo_build demo_base (Some demo_topic_doc)
         ["search.max_results=3"] = Done cfg
    /\ get_path ["search"; "max_results"] (_raw cfg) = Some (JInt 3)
    /\ get_path ["script"; "target_minutes"] (_raw cfg) = Some (JInt 5)
    /\ (exists cfg0,
          load demo_build demo_base (Some demo_topic_doc) = Done cfg0
          /\ get_path ["script"; "target_minutes"] (_raw cfg0) = Some (JInt 8))
    /\ run_generate_config demo_build demo_base None ["search.max_results=3"]
       = Done cfg.
Proof.
  eassert (run_generate_config demo_build demo_base (Some demo_topic_doc)
             ["search.max_results=3"] = Done _) as Hrun
    by (vm_compute; reflexivity).
  eexists. split; [discriminate|]. split; [exact Hrun|].
  split; [reflexivity|]. split; [reflexivity|]. split.
  - eexists. split; reflexivity.
  - destruct (set_replaces_topic_overrides demo_build demo_base
                (Some demo_topic_doc) ["search.max_results=3"] _
                ltac:(discriminate) Hrun) as [_ Hany].
    eapply (Hany None). reflexivity.
Defined.

(** ** The relevant URLs of a research result *)

(** X27: the relevant URLs of a result of [research] are the URLs of its
    findings that have a non-empty content, in the order of the findings;
    no URL is listed twice, and every one of them is the URL of a finding
    whose content is set. *)
Theorem relevant_urls_of_research json_loads json_dumps md5_hex py_repr http_get
  default_relevance_score cfg tpc w r w' :
  research json_loads json_dumps md5_hex py_repr http_get
    default_relevance_score cfg tpc w = (Ok r, w') ->
  relevant_urls r
  = url <$> filter (fun f => has_content f = true) (findings r)
  /\ NoDup (relevant_urls r)
  /\ relevant_urls r `sublist_of` (url <$> findings r)
  /\ (forall u, u ∈ relevant_urls r ->
        exists f c, f ∈ findings r /\ url f = u
                    /\ full_content f = Some c /\ c <> "").
Proof.
  intros H.
  pose proof (research_findings _ _ _ _ _ _ _ _ _ _ _ H)
    as (queries & w1 & results & w2 & _ & _ & Hsame).
  apply research_Ok in H
    as (_ & _ & _ & _ & _ & _ & heap & w3 & _ & _ & _ & _ & Hfacts).
  apply extract_facts_urls in Hfacts as [Hf Hu]. rewrite <- Hf in Hu.
  assert (relevant_urls r `sublist_of` (url <$> findings r)) as Hsub.
  { rewrite Hu. apply fmap_sublist, sublist_filter. }
  split; [exact Hu|]. split.
  { eapply sublist_NoDup; [|exact Hsub].
    rewrite (same_record_urls _ _ Hsame). apply unique_from_NoDup. }
  split; [exact Hsub|].
  intros u Hin. rewrite Hu in Hin.
  apply list_elem_of_fmap in Hin as (f & -> & Hin).
  apply list_elem_of_filter in Hin as [Hc Hin].
  unfold has_content in Hc.
  destruct (full_content f) as [[|c s]|] eqn:Hfc; try discriminate.
  exists f, (String c s). done.
Qed.

Lemma relevant_urls_of_research_witness :
  exists r w',
    research RefJson.loads RefJson.dumps demo_md5 demo_repr demo_http 0
      (demo_cfg "not json") "rust" empty_world = (Ok r, w')
    /\ relevant_urls r = ["https://a.example/1"; "https://a.example/2"]
    /\ NoDup (relevant_urls r).
Proof.
  eassert (research RefJson.loads RefJson.dumps demo_md5 demo_repr demo_http 0
             (demo_cfg "not json") "rust" empty_world = (Ok _, _)) as Hrun
    by (vm_compute; reflexivity).
  do 2 eexists. split; [exact Hrun|].
  destruct (relevant_urls_of_research _ _ _ _ _ _ _ _ _ _ _ Hrun)
    as (Hu & Hnd & _).
  split; [reflexivity|exact Hnd].
Defined.
